(** * Onedb: schema and synthetic-data seeding for a building-materials shop

    A shallow embedding of [models.py] and [Dbcarga.py].

    - Python floats are IEEE-754 binary64 numbers.  A finite double is
      represented by its exact rational value ([Q]), and every float
      operation rounds the exact result to 53 significant bits, ties to
      even ([Binary64.fl]).  All magnitudes that occur in the program lie
      between 2^-60 and 2^10, far from overflow and from the subnormal
      range, so the exponent is left unbounded.
    - The [random] module and the Faker instance each own a hidden generator.
      A generator is a tape of raw draws and a cursor; every primitive reads
      one draw and advances the cursor.
    - The SQLite file holds, for each of the six tables, whether it exists
      and its rows.  The SQLAlchemy session keeps the objects added but not
      yet flushed, and the view of its open transaction.
    - The program runs in a state-and-exception monad over that world; an
      exception leaves the state as it was when it was raised. *)

From Stdlib Require Import ZArith NArith QArith Qround Qpower Lia Lqa.
From Stdlib Require Import List String Bool Arith.
Import ListNotations.

Open Scope Z_scope.

(* ================================================================== *)
(** * Binary64 arithmetic on exact values *)
(* ================================================================== *)

Module Binary64.

(** Nearest integer, ties to even. *)
Definition rne (t : Q) : Z :=
  let k := Qfloor t in
  match Qcompare (t - inject_Z k) (1 # 2) with
  | Lt => k
  | Gt => k + 1
  | Eq => if Z.even k then k else k + 1
  end.

(** For [x > 0], the exponent [e] of the last place of the double nearest
    to [x]: [2^(e+52) <= x < 2^(e+53)]. *)
Definition ulp_exp (x : Q) : Z :=
  let g := Z.log2 (Qnum x) - Z.log2 (Zpos (Qden x)) in
  if Qle_bool (2 ^ g) x then g - 52 else g - 53.

Definition fl_pos (x : Q) : Q :=
  let e := ulp_exp x in (inject_Z (rne (x / 2 ^ e)) * 2 ^ e)%Q.

(** Round to nearest double, ties to even. *)
Definition fl (x : Q) : Q :=
  Qred (match Qnum x with
        | Z0 => 0
        | Zpos _ => fl_pos x
        | Zneg _ => - fl_pos (- x)
        end)%Q.

Definition fadd (x y : Q) : Q := fl (x + y).
Definition fsub (x y : Q) : Q := fl (x - y).
Definition fmul (x y : Q) : Q := fl (x * y).

(** A decimal literal of the source, such as [0.8], denotes the double
    nearest to it. *)
Definition literal (x : Q) : Q := fl x.

(** [x < y] on floats. *)
Definition flt (x y : Q) : bool := negb (Qle_bool y x).

(** Python's [round(x, 2)] on a float: the exact value of [x] is rounded
    to two decimals (ties to even), and the decimal is read back as the
    nearest double. *)
Definition round2 (x : Q) : Q := fl (inject_Z (rne (x * 100)) / 100).

End Binary64.

(* ================================================================== *)
(** * The tables of [models.py] *)
(* ================================================================== *)

(** Dates are day ordinals.  A primary key is [None] until the row is
    flushed to the store. *)
Definition date := Z.

Module Cliente.
Record t := mk {
  id_cliente : option Z;
  nome : string;
  cpf_cnpj : string;
  endereco : string;
  telefone : string;
  email : string;
  segmento : string;
  canal_compra : string }.
Definition tablename : string := "clientes".
Definition with_id (i : Z) (c : t) : t :=
  mk (Some i) (nome c) (cpf_cnpj c) (endereco c) (telefone c) (email c) (segmento c) (canal_compra c).
End Cliente.

Module Produto.
Record t := mk {
  id_produto : option Z;
  descricao : string;
  categoria : string;
  preco_unitario : Q;
  peso_sazonal : Q;
  unidade_medida : string }.
Definition tablename : string := "produtos".
Definition with_id (i : Z) (p : t) : t :=
  mk (Some i) (descricao p) (categoria p) (preco_unitario p) (peso_sazonal p) (unidade_medida p).
End Produto.

Module Caixa.
Record t := mk {
  id_caixa : option Z;
  nome : string;
  funcao : string;
  data_admissao : date }.
Definition tablename : string := "caixas".
Definition with_id (i : Z) (c : t) : t :=
  mk (Some i) (nome c) (funcao c) (data_admissao c).
End Caixa.

Module FormaPagamento.
Record t := mk {
  id_forma_pagamento : option Z;
  descricao : string;
  prazo_pagamento : Z;
  desconto : Q }.
Definition tablename : string := "formas_pagamento".
Definition with_id (i : Z) (f : t) : t :=
  mk (Some i) (descricao f) (prazo_pagamento f) (desconto f).
End FormaPagamento.

Module StatusEntrega.
Record t := mk {
  id_status_entrega : option Z;
  descricao : string }.
Definition tablename : string := "status_entrega".
Definition with_id (i : Z) (s : t) : t :=
  mk (Some i) (descricao s).
End StatusEntrega.

Module Venda.
Record t := mk {
  id_venda : option Z;
  id_cliente : option Z;
  id_produto : option Z;
  data_venda : date;
  valor_venda : Q;
  quantidade : Z;
  id_forma_pagamento : option Z;
  id_status_entrega : option Z;
  data_entrega : option date;
  id_caixa : option Z }.
Definition tablename : string := "vendas".
Definition with_id (i : Z) (v : t) : t :=
  mk (Some i) (id_cliente v) (id_produto v) (data_venda v) (valor_venda v) (quantidade v)
     (id_forma_pagamento v) (id_status_entrega v) (data_entrega v) (id_caixa v).
End Venda.

(** An object handed to [session.add]. *)
Inductive Entity :=
| ECliente (c : Cliente.t)
| EProduto (p : Produto.t)
| ECaixa (c : Caixa.t)
| EFormaPagamento (f : FormaPagamento.t)
| EStatusEntrega (s : StatusEntrega.t)
| EVenda (v : Venda.t).

(* ================================================================== *)
(** * The store, the session and the world *)
(* ================================================================== *)

(** The contents of [loja_material_construcao.db]: for each of the six
    tables, [None] when the table does not exist, and otherwise its rows in
    rowid order. *)
Record Store := mkStore {
  clientes : option (list Cliente.t);
  produtos : option (list Produto.t);
  caixas : option (list Caixa.t);
  formas_pagamento : option (list FormaPagamento.t);
  status_entrega : option (list StatusEntrega.t);
  vendas : option (list Venda.t) }.

Inductive Table := TCaixas | TClientes | TFormasPagamento | TProdutos | TStatusEntrega | TVendas.

Definition tablename (t : Table) : string :=
  match t with
  | TCaixas => Caixa.tablename
  | TClientes => Cliente.tablename
  | TFormasPagamento => FormaPagamento.tablename
  | TProdutos => Produto.tablename
  | TStatusEntrega => StatusEntrega.tablename
  | TVendas => Venda.tablename
  end.

Definition table_of (e : Entity) : Table :=
  match e with
  | ECliente _ => TClientes
  | EProduto _ => TProdutos
  | ECaixa _ => TCaixas
  | EFormaPagamento _ => TFormasPagamento
  | EStatusEntrega _ => TStatusEntrega
  | EVenda _ => TVendas
  end.

(** [Base.metadata.tables]: the tables in the order their classes are
    declared. *)
Definition metadata_tables : list Table :=
  [TClientes; TProdutos; TCaixas; TFormasPagamento; TStatusEntrega; TVendas].

Definition Table_eqb (a b : Table) : bool :=
  match a, b with
  | TCaixas, TCaixas | TClientes, TClientes | TFormasPagamento, TFormasPagamento
  | TProdutos, TProdutos | TStatusEntrega, TStatusEntrega | TVendas, TVendas => true
  | _, _ => false
  end.

(** The tables the foreign keys of a table refer to. *)
Definition referred_tables (t : Table) : list Table :=
  match t with
  | TVendas => [TClientes; TProdutos; TFormasPagamento; TStatusEntrega; TCaixas]
  | _ => []
  end.

(** A session: the objects added and not yet flushed, oldest first, and the
    view of the transaction it has open, if any. *)
Record Session := mkSession {
  pending : list Entity;
  transaction : option Store }.

(** What reaches the database. *)
Inductive Event :=
| EvHasTable (table : Table)
| EvCreateTable (table : Table)
| EvSelect (table : Table)
| EvInsert (table : Table) (rowid : Z)
| EvCommit
| EvClose.

(** A hidden generator: a tape of raw draws and the next position. *)
Record Generator := mkGenerator {
  tape : nat -> N;
  cursor : nat }.

(** The texts Faker produces. *)
Inductive FakeText := FName | FCpf | FAddress | FPhoneNumber | FEmail | FSentence (nb_words : nat).

Record World := mkWorld {
  random_state : Generator;            (* the [random] module *)
  fake_state : Generator;              (* [Faker('pt_BR')] *)
  fake_locale : FakeText -> N -> string; (* the pt_BR provider data *)
  today : date;                        (* [date.today()] *)
  database : Store;                    (* committed contents of the file *)
  session : Session;
  log : list Event }.

Definition set_random (g : Generator) (w : World) : World :=
  mkWorld g (fake_state w) (fake_locale w) (today w) (database w) (session w) (log w).
Definition set_fake (g : Generator) (w : World) : World :=
  mkWorld (random_state w) g (fake_locale w) (today w) (database w) (session w) (log w).
Definition set_database (d : Store) (w : World) : World :=
  mkWorld (random_state w) (fake_state w) (fake_locale w) (today w) d (session w) (log w).
Definition set_session (s : Session) (w : World) : World :=
  mkWorld (random_state w) (fake_state w) (fake_locale w) (today w) (database w) s (log w).
Definition emit (e : Event) (w : World) : World :=
  mkWorld (random_state w) (fake_state w) (fake_locale w) (today w) (database w) (session w)
          (log w ++ [e]).

(* ================================================================== *)
(** * The monad of Python statements *)
(* ================================================================== *)

Inductive Exn :=
| IndexError       (* random.choice on an empty sequence *)
| ValueError
| OperationalError (* sqlite: no such table / table already exists *).

Inductive Result (A : Type) :=
| Ok (a : A)
| Raise (e : Exn).
Arguments Ok {A} a.
Arguments Raise {A} e.

Definition M (A : Type) : Type := World -> Result A * World.

Definition ret {A} (a : A) : M A := fun w => (Ok a, w).
Definition raise {A} (e : Exn) : M A := fun w => (Raise e, w).
Definition bind {A B} (m : M A) (k : A -> M B) : M B :=
  fun w => match m w with
           | (Ok a, w') => k a w'
           | (Raise e, w') => (Raise e, w')
           end.
Definition gets {A} (f : World -> A) : M A := fun w => (Ok (f w), w).
Definition modify (f : World -> World) : M unit := fun w => (Ok tt, f w).

Declare Scope py_scope.
Delimit Scope py_scope with py.
Notation "x <- m ;; k" := (bind m (fun x => k))
  (at level 61, m at next level, right associativity) : py_scope.
Notation "m ;; k" := (bind m (fun _ => k))
  (at level 61, right associativity) : py_scope.
Open Scope py_scope.

(** [for _ in range(n): body] *)
Fixpoint for_ (n : nat) (body : M unit) : M unit :=
  match n with
  | O => ret tt
  | S n' => body ;; for_ n' body
  end.

(* ================================================================== *)
(** * The [random] module *)
(* ================================================================== *)

Module random.

(** One raw draw of the hidden generator. *)
Definition getrandbits : M N :=
  fun w => let g := random_state w in
           (Ok (tape g (cursor g)), set_random (mkGenerator (tape g) (S (cursor g))) w).

(** [random()]: a multiple of 2^-53 in [0, 1). *)
Definition random : M Q :=
  k <- getrandbits ;;
  ret (Z.of_N k mod 2 ^ 53 # 9007199254740992).



(** [_randbelow(n)] for [n > 0]: an integer in [0, n).  The tape has one
    raw draw per call: it stands for the word that the loop of
    [_randbelow_with_getrandbits] accepts. *)
Definition _randbelow (n : Z) : M Z :=
  k <- getrandbits ;;
  ret (Z.of_N k mod n).

Definition randrange (start stop : Z) : M Z :=
  let width := stop - start in
  if 0 <? width then k <- _randbelow width ;; ret (start + k)
  else raise ValueError.

(** [randint(a, b)]: [randrange(a, b+1)]. *)
Definition randint (a b : Z) : M Z := randrange a (b + 1).

(** [choice(seq)]: [IndexError] on an empty sequence. *)
Definition choice {A} (seq : list A) : M A :=
  match seq with
  | [] => raise IndexError
  | x :: _ =>
      i <- _randbelow (Z.of_nat (List.length seq)) ;;
      ret (nth (Z.to_nat i) seq x)
  end.

(** [uniform(a, b)]: [a + (b - a) * random()]. *)
Definition uniform (a b : Q) : M Q :=
  r <- random ;;
  ret (Binary64.fadd a (Binary64.fmul (Binary64.fsub b a) r)).

(** [itertools.accumulate(weights)] with float addition. *)
Fixpoint accumulate_from (acc : Q) (ws : list Q) : list Q :=
  match ws with
  | [] => []
  | x :: ws' => let acc' := Binary64.fadd acc x in acc' :: accumulate_from acc' ws'
  end.

Definition accumulate (ws : list Q) : list Q :=
  match ws with
  | [] => []
  | x :: ws' => x :: accumulate_from x ws'
  end.

(** [bisect.bisect_right(a, x, lo, hi)]:
    [while lo < hi: mid = (lo+hi)//2; if x < a[mid]: hi = mid else: lo = mid+1].
    The interval shrinks at every turn, so [hi - lo] turns are enough. *)
Fixpoint bisect_loop (turns : nat) (a : list Q) (x : Q) (lo hi : nat) : nat :=
  match turns with
  | O => lo
  | S turns' =>
      if (lo <? hi)%nat then
        let mid := ((lo + hi) / 2)%nat in
        if Binary64.flt x (nth mid a 0%Q) then bisect_loop turns' a x lo mid
        else bisect_loop turns' a x (S mid) hi
      else lo
  end.

Definition bisect (a : list Q) (x : Q) (lo hi : nat) : nat :=
  bisect_loop (hi - lo) a x lo hi.

(** [choices(population, weights=weights)] with the default [k=1]. *)
Definition choices (population : list string) (weights : list Q) : M (list string) :=
  let n := List.length population in
  let cum_weights := accumulate weights in
  if negb (List.length cum_weights =? n)%nat then raise ValueError
  else
    let total := Binary64.fadd (last cum_weights 0%Q) 0 in
    if Qle_bool total 0 then raise ValueError
    else
      r <- random ;;
      ret [nth (bisect cum_weights (Binary64.fmul r total) 0 (n - 1)) population ""%string].

End random.

(** [seq[0]] *)
Definition item0 {A} (seq : list A) : M A :=
  match seq with
  | x :: _ => ret x
  | [] => raise IndexError
  end.

(* ================================================================== *)
(** * The Faker instance *)
(* ================================================================== *)

Module fake.

Definition draw : M N :=
  fun w => let g := fake_state w in
           (Ok (tape g (cursor g)), set_fake (mkGenerator (tape g) (S (cursor g))) w).

Definition text (k : FakeText) : M string :=
  n <- draw ;;
  locale <- gets fake_locale ;;
  ret (locale k n).

Definition name : M string := text FName.
Definition cpf : M string := text FCpf.
Definition address : M string := text FAddress.
Definition phone_number : M string := text FPhoneNumber.
Definition email : M string := text FEmail.
Definition sentence (nb_words : nat) : M string := text (FSentence nb_words).

(** The date arguments the program passes: ["today"], ["-30d"], ["-1y"],
    ["-5y"]. *)
Inductive DateSpec :=
| Today
| DaysAgo (n : Z)
| YearsAgo (n : Z).

(** Faker counts 365.24 days to the year; adding the resulting timedelta to
    a date keeps its whole days, rounded towards the past. *)
Definition parse_date (today : date) (spec : DateSpec) : date :=
  match spec with
  | Today => today
  | DaysAgo n => today - n
  | YearsAgo n => today + (- (36524 * n)) / 100
  end.

(** [date_between(start_date, end_date)]: a day of [start, end]. *)
Definition date_between (start_date end_date : DateSpec) : M date :=
  t <- gets today ;;
  let s := parse_date t start_date in
  let e := parse_date t end_date in
  if e <? s then raise ValueError
  else
    n <- draw ;;
    ret (s + Z.of_N n mod (e - s + 1)).

End fake.

(* ================================================================== *)
(** * The engine and the session *)
(* ================================================================== *)

Definition set_clientes (r : option (list Cliente.t)) (s : Store) : Store :=
  mkStore r (produtos s) (caixas s) (formas_pagamento s) (status_entrega s) (vendas s).
Definition set_produtos (r : option (list Produto.t)) (s : Store) : Store :=
  mkStore (clientes s) r (caixas s) (formas_pagamento s) (status_entrega s) (vendas s).
Definition set_caixas (r : option (list Caixa.t)) (s : Store) : Store :=
  mkStore (clientes s) (produtos s) r (formas_pagamento s) (status_entrega s) (vendas s).
Definition set_formas_pagamento (r : option (list FormaPagamento.t)) (s : Store) : Store :=
  mkStore (clientes s) (produtos s) (caixas s) r (status_entrega s) (vendas s).
Definition set_status_entrega (r : option (list StatusEntrega.t)) (s : Store) : Store :=
  mkStore (clientes s) (produtos s) (caixas s) (formas_pagamento s) r (vendas s).
Definition set_vendas (r : option (list Venda.t)) (s : Store) : Store :=
  mkStore (clientes s) (produtos s) (caixas s) (formas_pagamento s) (status_entrega s) r.

Definition exists_ {A} (r : option (list A)) : bool :=
  match r with Some _ => true | None => false end.

Definition has_table (t : Table) (s : Store) : bool :=
  match t with
  | TCaixas => exists_ (caixas s)
  | TClientes => exists_ (clientes s)
  | TFormasPagamento => exists_ (formas_pagamento s)
  | TProdutos => exists_ (produtos s)
  | TStatusEntrega => exists_ (status_entrega s)
  | TVendas => exists_ (vendas s)
  end.

(** The store after [CREATE TABLE t]: the table exists and has no rows. *)
Definition create_empty (t : Table) (s : Store) : Store :=
  match t with
  | TCaixas => set_caixas (Some []) s
  | TClientes => set_clientes (Some []) s
  | TFormasPagamento => set_formas_pagamento (Some []) s
  | TProdutos => set_produtos (Some []) s
  | TStatusEntrega => set_status_entrega (Some []) s
  | TVendas => set_vendas (Some []) s
  end.

(** [inspector.has_table]: a read of the schema. *)
Definition engine_has_table (t : Table) : M bool :=
  modify (emit (EvHasTable t)) ;;
  gets (fun w => has_table t (database w)).

(** [CREATE TABLE t], which SQLite refuses when the table exists. *)
Definition engine_create_table (t : Table) : M unit :=
  present <- gets (fun w => has_table t (database w)) ;;
  if present then raise OperationalError
  else modify (fun w => emit (EvCreateTable t) (set_database (create_empty t (database w)) w)).

(** [[t for t in tables if self._can_create_table(t)]], where
    [checkfirst] is [True]: every table of the metadata is looked up, in
    turn, and those the store does not have are kept. *)
Fixpoint can_create_tables (ts : list Table) : M (list Table) :=
  match ts with
  | [] => ret []
  | t :: ts' =>
      present <- engine_has_table t ;;
      rest <- can_create_tables ts' ;;
      ret (if present then rest else t :: rest)
  end.

(** [sort_tables_and_constraints]: a table comes after the tables of the
    collection it refers to, and the order given is kept otherwise.  Only
    [vendas] refers to other tables, so two groups are enough. *)
Definition sort_tables_and_constraints (ts : list Table) : list Table :=
  let free t := forallb (fun p => negb (existsb (Table_eqb p) ts)) (referred_tables t) in
  filter free ts ++ filter (fun t => negb (free t)) ts.

(** One [CREATE TABLE] for each table of the collection. *)
Fixpoint create_tables (ts : list Table) : M unit :=
  match ts with
  | [] => ret tt
  | t :: ts' => engine_create_table t ;; create_tables ts'
  end.

(** [MetaData.create_all(engine)], whose [checkfirst] defaults to [True]:
    the tables are all looked up first, and then those that are missing are
    created. *)
Definition create_all : M unit :=
  collection <- can_create_tables metadata_tables ;;
  create_tables (sort_tables_and_constraints collection).

(** The rowid SQLite gives to a new row of an INTEGER PRIMARY KEY table:
    one more than the largest in the table, and 1 in an empty table. *)
Definition rowid_of (k : option Z) : Z :=
  match k with Some i => i | None => 0 end.

Definition next_rowid (keys : list (option Z)) : Z :=
  match keys with
  | [] => 1
  | k :: ks => 1 + fold_left Z.max (map rowid_of ks) (rowid_of k)
  end.

(** [INSERT] of a new object, which no generator gives a primary key: the
    row is appended under the next rowid.  [None] when the table is
    missing. *)
Definition insert_row (e : Entity) (s : Store) : option (Z * Store) :=
  match e with
  | ECliente c =>
      match clientes s with
      | Some rows =>
          let i := next_rowid (map Cliente.id_cliente rows) in
          Some (i, set_clientes (Some (rows ++ [Cliente.with_id i c])) s)
      | None => None
      end
  | EProduto p =>
      match produtos s with
      | Some rows =>
          let i := next_rowid (map Produto.id_produto rows) in
          Some (i, set_produtos (Some (rows ++ [Produto.with_id i p])) s)
      | None => None
      end
  | ECaixa c =>
      match caixas s with
      | Some rows =>
          let i := next_rowid (map Caixa.id_caixa rows) in
          Some (i, set_caixas (Some (rows ++ [Caixa.with_id i c])) s)
      | None => None
      end
  | EFormaPagamento f =>
      match formas_pagamento s with
      | Some rows =>
          let i := next_rowid (map FormaPagamento.id_forma_pagamento rows) in
          Some (i, set_formas_pagamento (Some (rows ++ [FormaPagamento.with_id i f])) s)
      | None => None
      end
  | EStatusEntrega x =>
      match status_entrega s with
      | Some rows =>
          let i := next_rowid (map StatusEntrega.id_status_entrega rows) in
          Some (i, set_status_entrega (Some (rows ++ [StatusEntrega.with_id i x])) s)
      | None => None
      end
  | EVenda v =>
      match vendas s with
      | Some rows =>
          let i := next_rowid (map Venda.id_venda rows) in
          Some (i, set_vendas (Some (rows ++ [Venda.with_id i v])) s)
      | None => None
      end
  end.

(** [Session()] *)
Definition new_session : M unit :=
  modify (set_session (mkSession [] None)).

(** The view of the session's transaction; the first statement of a session
    opens the transaction on the committed contents. *)
Definition begin : M Store :=
  fun w =>
    match transaction (session w) with
    | Some s => (Ok s, w)
    | None =>
        (Ok (database w),
         set_session (mkSession (pending (session w)) (Some (database w))) w)
    end.

Definition set_transaction (s : Store) (w : World) : World :=
  set_session (mkSession (pending (session w)) (Some s)) w.

Definition insert (e : Entity) : M unit :=
  s <- begin ;;
  match insert_row e s with
  | Some (i, s') => modify (fun w => emit (EvInsert (table_of e) i) (set_transaction s' w))
  | None => raise OperationalError
  end.

Fixpoint insert_all (es : list Entity) : M unit :=
  match es with
  | [] => ret tt
  | e :: es' => insert e ;; insert_all es'
  end.

(** [session.flush()]: the pending objects are inserted, oldest first, and
    are pending no more. *)
Definition session_flush : M unit :=
  es <- gets (fun w => pending (session w)) ;;
  insert_all es ;;
  modify (fun w => set_session (mkSession [] (transaction (session w))) w).

(** [session.add(obj)] *)
Definition session_add (e : Entity) : M unit :=
  modify (fun w => set_session
                     (mkSession (pending (session w) ++ [e]) (transaction (session w))) w).

(** A mapped class: its table and where its rows are. *)
Record Mapper (A : Type) := mkMapper {
  mapped_table : Table;
  mapped_rows : Store -> option (list A) }.
Arguments mkMapper {A}.
Arguments mapped_table {A}.
Arguments mapped_rows {A}.

Definition ClienteMapper := mkMapper TClientes clientes.
Definition ProdutoMapper := mkMapper TProdutos produtos.
Definition CaixaMapper := mkMapper TCaixas caixas.
Definition FormaPagamentoMapper := mkMapper TFormasPagamento formas_pagamento.
Definition StatusEntregaMapper := mkMapper TStatusEntrega status_entrega.
Definition VendaMapper := mkMapper TVendas vendas.

(** [session.query(cls).all()]: the session flushes first (autoflush), then
    reads every row of the table. *)
Definition session_query_all {A} (m : Mapper A) : M (list A) :=
  session_flush ;;
  s <- begin ;;
  match mapped_rows m s with
  | Some rows => modify (emit (EvSelect (mapped_table m))) ;; ret rows
  | None => raise OperationalError
  end.

(** [session.commit()]: flush, then the transaction's view becomes the
    committed contents. *)
Definition session_commit : M unit :=
  session_flush ;;
  modify (fun w =>
            match transaction (session w) with
            | Some s => set_session (mkSession (pending (session w)) None) (set_database s w)
            | None => w
            end) ;;
  modify (emit EvCommit).

(** [session.close()]: whatever is uncommitted is dropped. *)
Definition session_close : M unit :=
  modify (set_session (mkSession [] None)) ;;
  modify (emit EvClose).

(* ================================================================== *)
(** * The generators of [models.py] and [Dbcarga.py] *)
(* ================================================================== *)

Import Binary64.

(** [categorias_produtos]: a dict, in insertion order. *)
Definition categorias_produtos : list (string * Q) :=
  [("Cimento e Argamassa", literal (2 # 10));
   ("Tijolos e Blocos", literal (15 # 100));
   ("Telhas e Coberturas", literal (1 # 10));
   ("Madeiras", literal (1 # 10));
   ("Hidráulica", literal (15 # 100));
   ("Elétrica", literal (1 # 10));
   ("Ferramentas", literal (1 # 10));
   ("Tintas", literal (1 # 10))]%string.

(** [formas_pagamento] *)
Definition formas_pagamento_pesos : list (string * Q) :=
  [("Dinheiro", literal (1 # 10));
   ("Cartão de Crédito", literal (6 # 10));
   ("Cartão de Débito", literal (2 # 10));
   ("Boleto", literal (1 # 10))]%string.

(** [status_entrega] *)
Definition lista_status_entrega : list string :=
  ["Em processamento"; "Enviado"; "Entregue"]%string.

Definition keys {A B} (d : list (A * B)) : list A := map fst d.
Definition values {A B} (d : list (A * B)) : list B := map snd d.

Definition gerar_cliente : M Cliente.t :=
  nome <- fake.name ;;
  cpf_cnpj <- fake.cpf ;;
  endereco <- fake.address ;;
  telefone <- fake.phone_number ;;
  email <- fake.email ;;
  segmento <- random.choice ["Residencial"; "Comercial"; "Industrial"]%string ;;
  canal_compra <- random.choice ["Loja Física"; "Online"]%string ;;
  ret (Cliente.mk None nome cpf_cnpj endereco telefone email segmento canal_compra).

Definition gerar_produto : M Produto.t :=
  categoria <- (l <- random.choices (keys categorias_produtos) (values categorias_produtos) ;;
                item0 l) ;;
  descricao <- fake.sentence 4 ;;
  preco_unitario <- (u <- random.uniform 10 500 ;; ret (round2 u)) ;;
  peso_sazonal <- random.uniform (literal (8 # 10)) (literal (12 # 10)) ;;
  unidade_medida <- random.choice ["UN"; "KG"; "M"; "M2"; "M3"]%string ;;
  ret (Produto.mk None descricao categoria preco_unitario peso_sazonal unidade_medida).

Definition gerar_caixa : M Caixa.t :=
  nome <- fake.name ;;
  funcao <- random.choice ["Caixa"; "Gerente"]%string ;;
  data_admissao <- fake.date_between (fake.YearsAgo 5) fake.Today ;;
  ret (Caixa.mk None nome funcao data_admissao).

Definition gerar_forma_pagamento : M FormaPagamento.t :=
  descricao <- (l <- random.choices (keys formas_pagamento_pesos)
                                    (values formas_pagamento_pesos) ;;
                item0 l) ;;
  prazo_pagamento <- (if String.eqb descricao "Boleto" then random.randint 0 30 else ret 0) ;;
  desconto <- (if String.eqb descricao "Dinheiro"
               then random.uniform 0 (literal (1 # 10)) else ret 0%Q) ;;
  ret (FormaPagamento.mk None descricao prazo_pagamento desconto).

Definition gerar_status_entrega (lista_status : list string) : M StatusEntrega.t :=
  descricao <- random.choice lista_status ;;
  ret (StatusEntrega.mk None descricao).

Definition gerar_venda : M Venda.t :=
  cliente <- (rows <- session_query_all ClienteMapper ;; random.choice rows) ;;
  produto <- (rows <- session_query_all ProdutoMapper ;; random.choice rows) ;;
  forma_pagamento <- (rows <- session_query_all FormaPagamentoMapper ;; random.choice rows) ;;
  status_entrega <- (rows <- session_query_all StatusEntregaMapper ;; random.choice rows) ;;
  caixa <- (rows <- session_query_all CaixaMapper ;; random.choice rows) ;;
  data_venda <- fake.date_between (fake.YearsAgo 1) fake.Today ;;
  valor_venda <- (k <- random.randint 1 10 ;;
                  ret (fmul (Produto.preco_unitario produto) (inject_Z k))) ;;
  quantidade <- random.randint 1 10 ;;
  data_entrega <- (if String.eqb (StatusEntrega.descricao status_entrega) "Entregue"
                   then d <- fake.date_between (fake.DaysAgo 30) fake.Today ;; ret (Some d)
                   else ret None) ;;
  ret (Venda.mk None
         (Cliente.id_cliente cliente)
         (Produto.id_produto produto)
         data_venda
         valor_venda
         quantidade
         (FormaPagamento.id_forma_pagamento forma_pagamento)
         (StatusEntrega.id_status_entrega status_entrega)
         data_entrega
         (Caixa.id_caixa caixa)).

(* ================================================================== *)
(** * The two scripts *)
(* ================================================================== *)

(** The module body of [models.py]. *)
Definition models_main : M unit :=
  create_all ;;
  new_session ;;
  for_ 100 (c <- gerar_cliente ;; session_add (ECliente c) ;;
            p <- gerar_produto ;; session_add (EProduto p) ;;
            x <- gerar_caixa ;; session_add (ECaixa x) ;;
            f <- gerar_forma_pagamento ;; session_add (EFormaPagamento f) ;;
            s <- gerar_status_entrega lista_status_entrega ;; session_add (EStatusEntrega s)) ;;
  for_ 500 (v <- gerar_venda ;; session_add (EVenda v)) ;;
  session_commit ;;
  session_close.

(** The body of [Dbcarga.py] after its imports: a session of its own on the
    same file, the three loops, commit and close. *)
Definition Dbcarga_seeding : M unit :=
  new_session ;;
  for_ 400 (p <- gerar_produto ;; session_add (EProduto p)) ;;
  for_ 80 (c <- gerar_cliente ;; session_add (ECliente c)) ;;
  for_ 200 (v <- gerar_venda ;; session_add (EVenda v)) ;;
  session_commit ;;
  session_close.

(** [Dbcarga.py] as a script: [from models import ...] runs the body of
    [models.py] first. *)
Definition Dbcarga_main : M unit :=
  models_main ;;
  Dbcarga_seeding.

(* ================================================================== *)
(** * Specification vocabulary *)
(* ================================================================== *)

(** Nothing but the two generators moved. *)
Definition untouched (w w' : World) : Prop :=
  database w' = database w /\ session w' = session w /\ log w' = log w /\
  today w' = today w /\ fake_locale w' = fake_locale w.

(** On a day [t], the statement [m] returns, its value satisfies [P], and it
    only consumes draws. *)
Definition draws {A} (t : date) (m : M A) (P : A -> Prop) : Prop :=
  forall w, today w = t -> exists a w', m w = (Ok a, w') /\ P a /\ untouched w w'.

(** The store the next statement of the session works on: its open
    transaction, or else the committed contents. *)
Definition base (w : World) : Store :=
  match transaction (session w) with
  | Some s => s
  | None => database w
  end.

(** The store once [e] is inserted (unchanged when its table is missing). *)
Definition stored (s : Store) (e : Entity) : Store :=
  match insert_row e s with
  | Some (_, s') => s'
  | None => s
  end.

(** What a query of the session sees: the base store with the pending
    objects flushed into it. *)
Definition view (w : World) : Store :=
  fold_left stored (pending (session w)) (base w).

(** Every pending object has its table. *)
Definition flush_ok (w : World) : Prop :=
  Forall (fun e => has_table (table_of e) (base w) = true) (pending (session w)).

(** The six tables exist. *)
Definition complete (s : Store) : Prop :=
  forall t, has_table t s = true.

(** Number of rows of a table (none when it is missing). *)
Definition size {A} (r : option (list A)) : nat :=
  match r with Some rows => List.length rows | None => O end.

Definition is_insert (e : Event) : Prop :=
  match e with EvInsert _ _ => True | _ => False end.

(** Events that neither commit nor close. *)
Definition quiet_event (e : Event) : Prop :=
  match e with EvCommit | EvClose => False | _ => True end.


(** The inserts that flushing [es] into [s] sends. *)
Fixpoint flush_events (es : list Entity) (s : Store) : list Event :=
  match es with
  | [] => []
  | e :: es' =>
      match insert_row e s with
      | Some (i, s') => EvInsert (table_of e) i :: flush_events es' s'
      | None => []
      end
  end.

Definition count (t : Table) (s : Store) : nat :=
  match t with
  | TCaixas => size (caixas s)
  | TClientes => size (clientes s)
  | TFormasPagamento => size (formas_pagamento s)
  | TProdutos => size (produtos s)
  | TStatusEntrega => size (status_entrega s)
  | TVendas => size (vendas s)
  end.

(** The largest value [random()] returns: 1 - 2^-53. *)
Definition random_max : Q := 9007199254740991 # 9007199254740992.

(** The [i]-th raw draw the [random] module will make from [w] on. *)
Definition draw_at (w : World) (i : nat) : N :=
  tape (random_state w) (cursor (random_state w) + i).

(** The row [random.choice] takes from [rows] on raw draw [d]. *)
Definition pick {A} (rows : list A) (d : N) : option A :=
  nth_error rows (Z.to_nat (Z.of_N d mod Z.of_nat (List.length rows))).

(** The world after one draw of the [random] module, or of Faker. *)
Definition next_gen (g : Generator) : Generator :=
  mkGenerator (tape g) (S (cursor g)).
Definition advance_random (w : World) : World := set_random (next_gen (random_state w)) w.
Definition advance_fake (w : World) : World := set_fake (next_gen (fake_state w)) w.

(** The clock, the locale and both generators are as they were. *)
Definition env_kept (w w' : World) : Prop :=
  random_state w' = random_state w /\ fake_state w' = fake_state w /\
  fake_locale w' = fake_locale w /\ today w' = today w.

(** The session can generate a sale: a flush would succeed and each of the
    five reference tables exists and has a row. *)
Definition ready (w : World) : Prop :=
  flush_ok w /\
  (0 < size (clientes (view w)))%nat /\
  (0 < size (produtos (view w)))%nat /\
  (0 < size (formas_pagamento (view w)))%nat /\
  (0 < size (status_entrega (view w)))%nat /\
  (0 < size (caixas (view w)))%nat.

(** [gerar_venda], run from [w], returned [v] and left [w']: the five
    queries saw the tables [rc], [rp], [rf], [rs], [rx]; the five choices
    took the rows [c], [p], [f], [s], [x] on the first five draws; the sixth
    draw priced the sale and the seventh set its quantity. *)
Definition sold (w : World) (v : Venda.t) (w' : World) : Prop :=
  exists rc rp rf rs rx c p f s x,
    flush_ok w /\
    clientes (view w) = Some rc /\ produtos (view w) = Some rp /\
    formas_pagamento (view w) = Some rf /\ status_entrega (view w) = Some rs /\
    caixas (view w) = Some rx /\
    pick rc (draw_at w 0) = Some c /\ pick rp (draw_at w 1) = Some p /\
    pick rf (draw_at w 2) = Some f /\ pick rs (draw_at w 3) = Some s /\
    pick rx (draw_at w 4) = Some x /\
    Venda.id_venda v = None /\
    Venda.id_cliente v = Cliente.id_cliente c /\
    Venda.id_produto v = Produto.id_produto p /\
    Venda.id_forma_pagamento v = FormaPagamento.id_forma_pagamento f /\
    Venda.id_status_entrega v = StatusEntrega.id_status_entrega s /\
    Venda.id_caixa v = Caixa.id_caixa x /\
    Venda.valor_venda v =
      Binary64.fmul (Produto.preco_unitario p) (inject_Z (1 + Z.of_N (draw_at w 5) mod 10)) /\
    Venda.quantidade v = 1 + Z.of_N (draw_at w 6) mod 10 /\
    fake.parse_date (today w) (fake.YearsAgo 1) <= Venda.data_venda v <= today w /\
    (if String.eqb (StatusEntrega.descricao s) "Entregue"
     then exists d, Venda.data_entrega v = Some d /\ today w - 30 <= d <= today w
     else Venda.data_entrega v = None) /\
    transaction (session w') = Some (view w) /\ pending (session w') = [] /\
    database w' = database w /\ today w' = today w /\ fake_locale w' = fake_locale w /\
    log w' = log w ++ flush_events (pending (session w)) (base w)
                   ++ map EvSelect [TClientes; TProdutos; TFormasPagamento;
                                    TStatusEntrega; TCaixas].

(** Why [gerar_venda] raised [e] from [w]. *)
Definition refused (w : World) (e : Exn) : Prop :=
  (e = OperationalError /\
   (~ flush_ok w \/ clientes (view w) = None \/ produtos (view w) = None \/
    formas_pagamento (view w) = None \/ status_entrega (view w) = None \/
    caixas (view w) = None))
  \/
  (e = IndexError /\ flush_ok w /\
   (clientes (view w) = Some [] \/ produtos (view w) = Some [] \/
    formas_pagamento (view w) = Some [] \/ status_entrega (view w) = Some [] \/
    caixas (view w) = Some [])).

(** The tables that exist in [s] are in [s'] with the same rows. *)
Definition kept (s s' : Store) : Prop :=
  (clientes s <> None -> clientes s' = clientes s) /\
  (produtos s <> None -> produtos s' = produtos s) /\
  (caixas s <> None -> caixas s' = caixas s) /\
  (formas_pagamento s <> None -> formas_pagamento s' = formas_pagamento s) /\
  (status_entrega s <> None -> status_entrega s' = status_entrega s) /\
  (vendas s <> None -> vendas s' = vendas s).

(** Where a seeding session stands: since it was opened in [w0] nothing
    was committed, the tables exist, a query would see [added t] more rows
    of table [t] than were committed, and neither a commit nor a close was
    sent. *)
Definition in_session (w0 : World) (added : Table -> nat) (w : World) : Prop :=
  database w = database w0 /\ today w = today w0 /\ fake_locale w = fake_locale w0 /\
  complete (base w) /\
  (forall t, count t (view w) = (count t (database w0) + added t)%nat) /\
  exists evs, log w = log w0 ++ evs /\ Forall quiet_event evs.

(** One more row of table [t]. *)
Definition bump (t : Table) (added : Table -> nat) : Table -> nat :=
  fun u => (added u + if Table_eqb u t then 1 else 0)%nat.

(** The number of commits among the events. *)
Definition commits (evs : list Event) : nat :=
  List.length (filter (fun e => match e with EvCommit => true | _ => false end) evs).

(** Rows each script adds, per table. *)
Definition models_rows (t : Table) : nat :=
  match t with TVendas => 500 | _ => 100 end.

Definition Dbcarga_rows (t : Table) : nat :=
  match t with TProdutos => 400 | TClientes => 80 | TVendas => 200 | _ => 0 end.

(* ================================================================== *)
(** * Sample worlds *)
(* ================================================================== *)

Definition tape_of (l : list N) : nat -> N := fun i => nth i l 0%N.

(** One row in each reference table, the delivery status being
    "Entregue", and no sale yet. *)
Definition sample_store : Store :=
  mkStore
    (Some [Cliente.mk (Some 1) "Ana" "000.000.000-00" "Rua A, 1" "0000-0000" "ana@example.org"
                      "Residencial" "Online"])
    (Some [Produto.mk (Some 1) "Cimento 50kg" "Cimento e Argamassa" 10 1 "UN"])
    (Some [Caixa.mk (Some 1) "Bia" "Caixa" 19000])
    (Some [FormaPagamento.mk (Some 1) "Dinheiro" 0 0])
    (Some [StatusEntrega.mk (Some 1) "Entregue"])
    (Some []).


(** The same store without any cashier. *)
Definition store_without_caixa : Store := set_caixas (Some []) sample_store.

(** A file with no table at all. *)
Definition empty_file : Store := mkStore None None None None None None.

(** A world on day 20000 whose two generators will give the draws [r] and
    [f] (and zeros after them), with a fresh session on store [s]. *)
Definition sample_world (r f : list N) (s : Store) : World :=
  mkWorld (mkGenerator (tape_of r) 0) (mkGenerator (tape_of f) 0)
          (fun _ _ => "texto"%string) 20000 s (mkSession [] None) [].

(* ================================================================== *)
(** * Further vocabulary *)
(* ================================================================== *)

(** The value the next call of [random()] returns from [w]. *)
Definition next_random (w : World) : Q :=
  Z.of_N (draw_at w 0) mod 2 ^ 53 # 9007199254740992.

(** A list of floats in ascending order. *)
Definition ascending (a : list Q) : Prop :=
  forall i j, (i <= j < List.length a)%nat -> (nth i a 0 <= nth j a 0)%Q.

Fixpoint ascendingb (a : list Q) : bool :=
  match a with
  | [] => true
  | x :: a' =>
      match a' with
      | [] => true
      | y :: _ => Qle_bool x y && ascendingb a'
      end
  end.

(** The world [w] with the [i]-th coming raw draw of the [random] module
    replaced by [d]. *)
Definition set_draw (i : nat) (d : N) (w : World) : World :=
  set_random
    (mkGenerator
       (fun j => if (j =? cursor (random_state w) + i)%nat then d
                 else tape (random_state w) j)
       (cursor (random_state w)))
    w.

(** The rows of a table (none when it is missing). *)
Definition rows {A} (r : option (list A)) : list A :=
  match r with Some l => l | None => [] end.

(** Two stores with the same rows in every table. *)
Definition same_rows (s s' : Store) : Prop :=
  rows (clientes s') = rows (clientes s) /\ rows (produtos s') = rows (produtos s) /\
  rows (caixas s') = rows (caixas s) /\
  rows (formas_pagamento s') = rows (formas_pagamento s) /\
  rows (status_entrega s') = rows (status_entrega s) /\
  rows (vendas s') = rows (vendas s).

(** Every row of the table has a primary key, and no two rows share one. *)
Definition keyed {A} (pk : A -> option Z) (r : option (list A)) : Prop :=
  NoDup (map pk (rows r)) /\ ~ In None (map pk (rows r)).

Definition keys_ok (s : Store) : Prop :=
  keyed Cliente.id_cliente (clientes s) /\ keyed Produto.id_produto (produtos s) /\
  keyed Caixa.id_caixa (caixas s) /\
  keyed FormaPagamento.id_forma_pagamento (formas_pagamento s) /\
  keyed StatusEntrega.id_status_entrega (status_entrega s) /\
  keyed Venda.id_venda (vendas s).

(** Each foreign key of [v] is the primary key of a row of [s]. *)
Definition references (v : Venda.t) (s : Store) : Prop :=
  In (Venda.id_cliente v) (map Cliente.id_cliente (rows (clientes s))) /\
  In (Venda.id_produto v) (map Produto.id_produto (rows (produtos s))) /\
  In (Venda.id_forma_pagamento v)
     (map FormaPagamento.id_forma_pagamento (rows (formas_pagamento s))) /\
  In (Venda.id_status_entrega v)
     (map StatusEntrega.id_status_entrega (rows (status_entrega s))) /\
  In (Venda.id_caixa v) (map Caixa.id_caixa (rows (caixas s))).

(** Referential integrity: every sale of the store references rows of the
    store. *)
Definition integrity (s : Store) : Prop :=
  forall v, In v (rows (vendas s)) -> references v s.

(** Every table of [s'] starts with the rows of [s]: since [s], rows were
    only added, and at the end. *)
Definition extends (s s' : Store) : Prop :=
  (exists l, rows (clientes s') = rows (clientes s) ++ l) /\
  (exists l, rows (produtos s') = rows (produtos s) ++ l) /\
  (exists l, rows (caixas s') = rows (caixas s) ++ l) /\
  (exists l, rows (formas_pagamento s') = rows (formas_pagamento s) ++ l) /\
  (exists l, rows (status_entrega s') = rows (status_entrega s) ++ l) /\
  (exists l, rows (vendas s') = rows (vendas s) ++ l).






(** The statements of [Dbcarga.py] that come before its loop of sales: the
    session and the two loops that add products and customers. *)
Definition Dbcarga_additions : M unit :=
  new_session ;;
  for_ 400 (p <- gerar_produto ;; session_add (EProduto p)) ;;
  for_ 80 (c <- gerar_cliente ;; session_add (ECliente c)).

(** A session of [in_session] whose visible store satisfies [S]. *)
Definition in_session_with (S : Store -> Prop) (w0 : World) (added : Table -> nat)
           (w : World) : Prop :=
  in_session w0 added w /\ S (view w).

(** From [w] to [w'] nothing was committed: the committed contents are the
    same and the log grew by events that neither commit nor close. *)
Definition uncommitted (w w' : World) : Prop :=
  database w' = database w /\
  exists evs, log w' = log w ++ evs /\ Forall quiet_event evs.

(** A statement that commits nothing, whether it returns or raises. *)
Definition commits_nothing {A} (m : M A) : Prop :=
  forall w, uncommitted w (snd (m w)).

(* ################################################################## *)
(** * Part II: facts and theorems *)
(* ################################################################## *)

(* ================================================================== *)
(** * Facts on rounding *)
(* ================================================================== *)

Module Binary64Facts.
Import Binary64.
Local Open Scope Q_scope.

Ltac compare_to_order :=
  repeat match goal with
         | H : Qcompare _ _ = Eq |- _ => apply Qeq_alt in H
         | H : Qcompare _ _ = Lt |- _ => apply Qlt_alt in H
         | H : Qcompare _ _ = Gt |- _ => apply Qgt_alt in H
         end.

Lemma rne_floor_or (t : Q) : rne t = Qfloor t \/ rne t = (Qfloor t + 1)%Z.
Proof.
  unfold rne. destruct (Qcompare _ _); [destruct (Z.even _)|..]; auto.
Qed.

Lemma rne_Z (k : Z) : rne (inject_Z k) = k.
Proof.
  unfold rne. rewrite Qfloor_Z.
  destruct (Qcompare _ _) eqn:C; trivial; compare_to_order; exfalso; lra.
Qed.

Lemma rne_mono (s t : Q) : s <= t -> (rne s <= rne t)%Z.
Proof.
  intros Hst.
  pose proof (Qfloor_resp_le _ _ Hst) as Hfl.
  destruct (Z.eq_dec (Qfloor s) (Qfloor t)) as [E|N].
  - unfold rne. rewrite <- E.
    destruct (Qcompare (s - inject_Z (Qfloor s)) (1 # 2)) eqn:Cs;
      destruct (Qcompare (t - inject_Z (Qfloor s)) (1 # 2)) eqn:Ct;
      try destruct (Z.even (Qfloor s)); try lia; exfalso;
      compare_to_order; lra.
  - destruct (rne_floor_or s) as [-> | ->], (rne_floor_or t) as [-> | ->]; lia.
Qed.

#[export] Instance rne_comp : Proper (Qeq ==> eq) rne.
Proof.
  intros s t E. apply Z.le_antisymm; apply rne_mono; rewrite E; apply Qle_refl.
Qed.

(** The nearest integer is at most one half away. *)
Lemma rne_near (t : Q) : inject_Z (rne t) - (1 # 2) <= t /\ t <= inject_Z (rne t) + (1 # 2).
Proof.
  pose proof (Qfloor_le t) as Lo. pose proof (Qlt_floor t) as Hi.
  rewrite inject_Z_plus in Hi. change (inject_Z 1) with 1 in Hi.
  unfold rne.
  destruct (Qcompare (t - inject_Z (Qfloor t)) (1 # 2)) eqn:C;
    [destruct (Z.even (Qfloor t))|..]; compare_to_order;
    rewrite ?inject_Z_plus; change (inject_Z 1) with 1; lra.
Qed.

(** A number less than one half away from an integer rounds to it. *)
Lemma rne_unique (t : Q) (n : Z) :
  inject_Z n - (1 # 2) < t -> t < inject_Z n + (1 # 2) -> rne t = n.
Proof.
  intros Lo Hi. destruct (rne_near t) as [A B].
  assert (inject_Z (rne t) < inject_Z n + 1) as U by lra.
  assert (inject_Z n < inject_Z (rne t) + 1) as L by lra.
  change 1 with (inject_Z 1) in U, L. rewrite <- inject_Z_plus in U, L.
  rewrite <- Zlt_Qlt in U, L. lia.
Qed.

Lemma two_pow_pos (e : Z) : 0 < 2 ^ e.
Proof. apply Qpower_0_lt. reflexivity. Qed.

Lemma two_pow_add (a b : Z) : 2 ^ (a + b) == 2 ^ a * 2 ^ b.
Proof. apply Qpower_plus. discriminate. Qed.

Lemma two_pow_le (a b : Z) : (a <= b)%Z -> 2 ^ a <= 2 ^ b.
Proof. intros H. apply Qpower_le_compat_l; [exact H | discriminate]. Qed.

Lemma two_pow_inject (k : Z) : (0 <= k)%Z -> inject_Z (2 ^ k) == 2 ^ k.
Proof. intros H. now rewrite Zpower_Qpower. Qed.

Lemma log2_sandwich (n : Z) :
  (0 < n)%Z -> 2 ^ Z.log2 n <= inject_Z n /\ inject_Z n < 2 ^ (Z.log2 n + 1).
Proof.
  intros Hn. destruct (Z.log2_spec n Hn) as [Hlo Hhi].
  pose proof (Z.log2_nonneg n) as H0.
  split.
  - rewrite <- two_pow_inject by exact H0. now rewrite <- Zle_Qle.
  - rewrite <- two_pow_inject by lia. now rewrite <- Zlt_Qlt.
Qed.

(** [ulp_exp] finds the binade of a positive number. *)
Lemma ulp_exp_spec (x : Q) :
  0 < x -> 2 ^ (ulp_exp x + 52) <= x /\ x < 2 ^ (ulp_exp x + 53).
Proof.
  intros Hx. destruct x as [n d].
  assert (Hn : (0 < n)%Z) by (unfold Qlt in Hx; simpl in Hx; lia).
  destruct (log2_sandwich n Hn) as [Nlo Nhi].
  destruct (log2_sandwich (Zpos d) eq_refl) as [Dlo Dhi].
  unfold ulp_exp; cbn [Qnum Qden].
  set (ln := Z.log2 n) in *. set (ld := Z.log2 (Zpos d)) in *.
  assert (HD : 0 < inject_Z (Zpos d)) by reflexivity.
  assert (Hlow : 2 ^ (ln - ld - 1) < n # d).
  { rewrite (Qmake_Qdiv n d). apply Qlt_shift_div_l; [exact HD|].
    apply Qlt_le_trans with (2 ^ (ln - ld - 1) * 2 ^ (ld + 1)).
    - apply Qmult_lt_l; [apply two_pow_pos | exact Dhi].
    - rewrite <- two_pow_add. now replace (ln - ld - 1 + (ld + 1))%Z with ln by lia. }
  assert (Hupp : n # d < 2 ^ (ln - ld + 1)).
  { rewrite (Qmake_Qdiv n d). apply Qlt_shift_div_r; [exact HD|].
    apply Qlt_le_trans with (2 ^ (ln - ld + 1) * 2 ^ ld).
    - rewrite <- two_pow_add. now replace (ln - ld + 1 + ld)%Z with (ln + 1)%Z by lia.
    - apply Qmult_le_l; [apply two_pow_pos | exact Dlo]. }
  destruct (Qle_bool (2 ^ (ln - ld)) (n # d)) eqn:C.
  - apply Qle_bool_iff in C.
    replace (ln - ld - 52 + 52)%Z with (ln - ld)%Z by lia.
    replace (ln - ld - 52 + 53)%Z with (ln - ld + 1)%Z by lia. now split.
  - replace (ln - ld - 53 + 52)%Z with (ln - ld - 1)%Z by lia.
    replace (ln - ld - 53 + 53)%Z with (ln - ld)%Z by lia.
    split; [now apply Qlt_le_weak|].
    apply Qnot_le_lt. intros H. apply Qle_bool_iff in H. congruence.
Qed.

Lemma ulp_exp_mono (x y : Q) : 0 < x -> x <= y -> (ulp_exp x <= ulp_exp y)%Z.
Proof.
  intros Hx Hxy.
  destruct (ulp_exp_spec x Hx) as [Xlo _].
  destruct (ulp_exp_spec y) as [_ Yhi]; [lra|].
  destruct (Z_le_gt_dec (ulp_exp x) (ulp_exp y)) as [L|G]; [exact L|exfalso].
  pose proof (two_pow_le (ulp_exp y + 53) (ulp_exp x + 52) ltac:(lia)). lra.
Qed.

Lemma scaled_range (x : Q) :
  0 < x -> 2 ^ 52 <= x / 2 ^ ulp_exp x /\ x / 2 ^ ulp_exp x <= 2 ^ 53.
Proof.
  intros Hx. destruct (ulp_exp_spec x Hx) as [Lo Hi].
  pose proof (two_pow_pos (ulp_exp x)) as P.
  rewrite two_pow_add in Lo, Hi. split.
  - apply Qle_shift_div_l; [exact P|]. lra.
  - apply Qle_shift_div_r; [exact P|]. lra.
Qed.

Lemma significand_range (x : Q) :
  0 < x -> (2 ^ 52 <= rne (x / 2 ^ ulp_exp x) <= 2 ^ 53)%Z.
Proof.
  intros Hx. destruct (scaled_range x Hx) as [Lo Hi].
  split.
  - rewrite <- (rne_Z (2 ^ 52)). apply rne_mono.
    now rewrite two_pow_inject by lia.
  - rewrite <- (rne_Z (2 ^ 53)). apply rne_mono.
    now rewrite two_pow_inject by lia.
Qed.

Lemma fl_pos_mono (x y : Q) : 0 < x -> x <= y -> fl_pos x <= fl_pos y.
Proof.
  intros Hx Hxy. assert (Hy : 0 < y) by lra.
  pose proof (ulp_exp_mono x y Hx Hxy) as He.
  unfold fl_pos.
  pose proof (two_pow_pos (ulp_exp x)) as Px.
  pose proof (two_pow_pos (ulp_exp y)) as Py.
  destruct (Z.eq_dec (ulp_exp x) (ulp_exp y)) as [E|N].
  - rewrite <- E. apply Qmult_le_compat_r; [|lra].
    rewrite <- Zle_Qle. apply rne_mono.
    apply Qmult_le_compat_r; [exact Hxy|]. apply Qlt_le_weak, Qinv_lt_0_compat, Px.
  - destruct (significand_range x Hx) as [_ Mx].
    destruct (significand_range y Hy) as [My _].
    rewrite Zle_Qle in Mx, My. rewrite two_pow_inject in Mx, My by lia.
    apply Qle_trans with (2 ^ 53 * 2 ^ ulp_exp x).
    { apply Qmult_le_compat_r; [exact Mx | lra]. }
    apply Qle_trans with (2 ^ 52 * 2 ^ ulp_exp y).
    2:{ apply Qmult_le_compat_r; [exact My | lra]. }
    rewrite <- !two_pow_add. apply two_pow_le. lia.
Qed.

Lemma fl_pos_positive (x : Q) : 0 < x -> 0 < fl_pos x.
Proof.
  intros Hx. unfold fl_pos.
  destruct (significand_range x Hx) as [M _].
  apply Qmult_lt_0_compat; [|apply two_pow_pos].
  replace 0 with (inject_Z 0) by reflexivity. rewrite <- Zlt_Qlt. lia.
Qed.

(** Rounding is monotone. *)
Lemma fl_mono (x y : Q) : x <= y -> fl x <= fl y.
Proof.
  intros Hxy. unfold fl. rewrite !Qred_correct.
  destruct x as [[|n|n] d], y as [[|m|m] e]; cbn [Qnum];
    try (exfalso; unfold Qle in Hxy; simpl in Hxy; lia); try lra.
  - apply Qlt_le_weak, fl_pos_positive. reflexivity.
  - apply fl_pos_mono; [reflexivity | exact Hxy].
  - assert (0 < fl_pos (- (Zneg n # d))) by (apply fl_pos_positive; reflexivity). lra.
  - assert (0 < fl_pos (- (Zneg n # d))) by (apply fl_pos_positive; reflexivity).
    assert (0 < fl_pos (Zpos m # e)) by (apply fl_pos_positive; reflexivity). lra.
  - assert (fl_pos (- (Zneg m # e)) <= fl_pos (- (Zneg n # d))).
    { apply fl_pos_mono; [reflexivity | lra]. }
    lra.
Qed.

(** The double of a number does not depend on how the fraction is written. *)
Lemma fl_comp (x y : Q) : x == y -> fl x = fl y.
Proof.
  intros E.
  assert (H : fl x == fl y).
  { apply Qle_antisym; apply fl_mono; rewrite E; apply Qle_refl. }
  unfold fl in *. rewrite !Qred_correct in H. apply Qred_complete, H.
Qed.

(** For a positive number, the double is [fl_pos]. *)
Lemma fl_of_positive (x : Q) : 0 < x -> fl x == fl_pos x.
Proof.
  intros Hx. unfold fl. rewrite Qred_correct.
  destruct x as [[|n|n] d]; cbn [Qnum]; try reflexivity;
    exfalso; unfold Qlt in Hx; simpl in Hx; lia.
Qed.

(** Rounding moves a positive number by at most half a unit in the last
    place. *)
Lemma fl_error (x : Q) :
  0 < x ->
  fl x - x <= 2 ^ ulp_exp x * (1 # 2) /\ x - fl x <= 2 ^ ulp_exp x * (1 # 2).
Proof.
  intros Hx. rewrite (fl_of_positive x Hx). unfold fl_pos.
  pose proof (two_pow_pos (ulp_exp x)) as P.
  destruct (rne_near (x / 2 ^ ulp_exp x)) as [Lo Hi].
  set (m := inject_Z (rne (x / 2 ^ ulp_exp x))) in *.
  assert (E : x == x / 2 ^ ulp_exp x * 2 ^ ulp_exp x).
  { field. intros Z. rewrite Z in P. now apply Qlt_irrefl in P. }
  set (q := x / 2 ^ ulp_exp x) in *.
  set (p := 2 ^ ulp_exp x) in *.
  split; rewrite E at 1; nra.
Qed.

(** Below 512 the unit in the last place is at most 2^-44. *)
Lemma ulp_exp_below_512 (x : Q) : 0 < x -> x < 512 -> (ulp_exp x <= -44)%Z.
Proof.
  intros Hx Hlt. destruct (ulp_exp_spec x Hx) as [Lo _].
  destruct (Z_le_gt_dec (ulp_exp x) (-44)) as [L|G]; [exact L|exfalso].
  pose proof (two_pow_le 9 (ulp_exp x + 52) ltac:(lia)) as H.
  change (2 ^ 9) with 512 in H. lra.
Qed.

End Binary64Facts.

(* ================================================================== *)
(** * Reasoning on runs *)
(* ================================================================== *)

Lemma untouched_refl (w : World) : untouched w w.
Proof. repeat split. Qed.

Lemma untouched_trans (w1 w2 w3 : World) :
  untouched w1 w2 -> untouched w2 w3 -> untouched w1 w3.
Proof. unfold untouched. intuition congruence. Qed.

Lemma bind_ok {A B} (m : M A) (k : A -> M B) w a w1 :
  m w = (Ok a, w1) -> bind m k w = k a w1.
Proof. intros E. unfold bind. now rewrite E. Qed.

Lemma bind_raise {A B} (m : M A) (k : A -> M B) w e w1 :
  m w = (Raise e, w1) -> bind m k w = (Raise e, w1).
Proof. intros E. unfold bind. now rewrite E. Qed.

Lemma bind_inv_ok {A B} (m : M A) (k : A -> M B) w b w' :
  bind m k w = (Ok b, w') -> exists a w1, m w = (Ok a, w1) /\ k a w1 = (Ok b, w').
Proof.
  unfold bind. destruct (m w) as [[a|e] w1]; [eauto | discriminate].
Qed.

Lemma draws_ret {A} t (a : A) (P : A -> Prop) : P a -> draws t (ret a) P.
Proof. intros H w _. exists a, w. auto using untouched_refl. Qed.

Lemma draws_bind {A B} t (m : M A) (k : A -> M B) (P : A -> Prop) (Q : B -> Prop) :
  draws t m P -> (forall a, P a -> draws t (k a) Q) -> draws t (bind m k) Q.
Proof.
  intros Hm Hk w Ht.
  destruct (Hm w Ht) as (a & w1 & E1 & Pa & U1).
  destruct (Hk a Pa w1) as (b & w2 & E2 & Qb & U2).
  { destruct U1 as (_ & _ & _ & T & _). congruence. }
  exists b, w2. unfold bind. rewrite E1. eauto using untouched_trans.
Qed.

Lemma draws_weaken {A} t (m : M A) (P Q : A -> Prop) :
  draws t m P -> (forall a, P a -> Q a) -> draws t m Q.
Proof.
  intros Hm HPQ w Ht. destruct (Hm w Ht) as (a & w' & E & Pa & U).
  exists a, w'. auto.
Qed.

Module RandomFacts.
Import Binary64 Binary64Facts.

Lemma getrandbits_draws t : draws t random.getrandbits (fun _ => True).
Proof.
  intros w _. eexists _, _. split; [reflexivity|]. split; [exact I|]. repeat split.
Qed.

Lemma random_draws t :
  draws t random.random (fun r => (0 <= r)%Q /\ (r <= random_max)%Q).
Proof.
  unfold random.random. eapply draws_bind; [apply getrandbits_draws|].
  intros k _. apply draws_ret.
  pose proof (Z.mod_pos_bound (Z.of_N k) (2 ^ 53) eq_refl) as [L H].
  unfold random_max, Qle; cbn [Qnum Qden].
  change (2 ^ 53) with 9007199254740992 in *. lia.
Qed.

Lemma randbelow_draws t (n : Z) :
  0 < n -> draws t (random._randbelow n) (fun k => 0 <= k < n).
Proof.
  intros Hn. unfold random._randbelow. eapply draws_bind; [apply getrandbits_draws|].
  intros k _. apply draws_ret. apply Z.mod_pos_bound, Hn.
Qed.

Lemma randint_draws t (a b : Z) :
  a <= b -> draws t (random.randint a b) (fun k => a <= k <= b).
Proof.
  intros Hab. unfold random.randint, random.randrange. cbv zeta.
  destruct (Z.ltb_spec 0 (b + 1 - a)) as [H|H]; [|lia].
  eapply draws_bind; [apply randbelow_draws, H|].
  intros k Hk. cbv beta in Hk. apply draws_ret. lia.
Qed.

Lemma choice_draws {A} t (seq : list A) :
  seq <> [] -> draws t (random.choice seq) (fun x => In x seq).
Proof.
  destruct seq as [|x l]; [congruence|]. intros _.
  unfold random.choice.
  eapply draws_bind; [apply randbelow_draws; cbn [List.length]; lia|].
  intros i Hi. cbv beta in Hi. apply draws_ret. apply nth_In. lia.
Qed.

(** [uniform(a, b)] with [a <= b] lies between the double of [a] and what
    the largest value of [random()] gives. *)
Lemma uniform_draws t (a b : Q) :
  (a <= b)%Q ->
  draws t (random.uniform a b)
        (fun u => (fl a <= u)%Q /\ (u <= fl (a + fl (fl (b - a) * random_max)))%Q).
Proof.
  intros Hab. unfold random.uniform.
  eapply draws_bind; [apply random_draws|].
  intros r [R0 R1]. apply draws_ret.
  unfold fadd, fmul, fsub.
  assert (D0 : (0 <= fl (b - a))%Q).
  { change 0%Q with (fl 0). apply fl_mono. lra. }
  assert (P0 : (0 <= fl (fl (b - a) * r))%Q).
  { change 0%Q with (fl 0). apply fl_mono. apply Qmult_le_0_compat; assumption. }
  assert (P1 : (fl (fl (b - a) * r) <= fl (fl (b - a) * random_max))%Q).
  { apply fl_mono. generalize dependent (fl (b - a)). intros d D0 _.
    generalize dependent random_max. intros m R1. nra. }
  split; apply fl_mono; lra.
Qed.

End RandomFacts.

(* ================================================================== *)
(** * The uniform choice *)
(* ================================================================== *)

Module RandbelowFacts.














End RandbelowFacts.

Module ChoicesFacts.
Import Binary64 Binary64Facts RandomFacts.

(** The search stays inside [lo, hi]. *)
Lemma bisect_loop_bounds (a : list Q) (x : Q) (turns lo hi : nat) :
  (lo <= hi)%nat ->
  (lo <= random.bisect_loop turns a x lo hi <= hi)%nat.
Proof.
  revert lo hi. induction turns as [|turns IH]; intros lo hi Hle; cbn [random.bisect_loop]; [lia|].
  destruct (Nat.ltb_spec lo hi) as [Hlt|Hge]; [|lia].
  pose proof (Nat.div_mod_eq (lo + hi) 2) as Hdiv.
  pose proof (Nat.mod_upper_bound (lo + hi) 2 ltac:(lia)) as Hmod.
  destruct (flt x (nth ((lo + hi) / 2) a 0%Q)).
  - specialize (IH lo ((lo + hi) / 2)%nat ltac:(lia)). lia.
  - specialize (IH (S ((lo + hi) / 2)) hi ltac:(lia)). lia.
Qed.

(** [hi - lo] turns are enough: more turns change nothing. *)
Lemma bisect_loop_enough (a : list Q) (x : Q) (turns turns' lo hi : nat) :
  (hi - lo <= turns)%nat -> (hi - lo <= turns')%nat ->
  random.bisect_loop turns a x lo hi = random.bisect_loop turns' a x lo hi.
Proof.
  revert turns' lo hi.
  induction turns as [|turns IH]; intros [|turns'] lo hi H1 H2;
    cbn [random.bisect_loop]; trivial;
    destruct (Nat.ltb_spec lo hi) as [Hlt|Hge]; trivial; try lia.
  pose proof (Nat.div_mod_eq (lo + hi) 2) as Hdiv.
  pose proof (Nat.mod_upper_bound (lo + hi) 2 ltac:(lia)) as Hmod.
  destruct (flt x (nth ((lo + hi) / 2) a 0%Q)); apply IH; lia.
Qed.

Lemma bisect_bounds (a : list Q) (x : Q) (hi : nat) :
  (random.bisect a x 0 hi <= hi)%nat.
Proof. unfold random.bisect. apply bisect_loop_bounds. lia. Qed.

(** With as many weights as labels and a positive total, [choices] returns
    one label of the population. *)
Lemma choices_draws t (population : list string) (weights : list Q) :
  population <> [] ->
  List.length (random.accumulate weights) = List.length population ->
  Qle_bool (fadd (last (random.accumulate weights) 0%Q) 0) 0 = false ->
  draws t (random.choices population weights)
        (fun l => exists x, l = [x] /\ In x population).
Proof.
  intros Hne Hlen Htot. unfold random.choices.
  rewrite Hlen, Nat.eqb_refl. cbn [negb]. rewrite Htot.
  eapply draws_bind; [apply random_draws|].
  intros r _. apply draws_ret. eexists. split; [reflexivity|].
  apply nth_In.
  pose proof (bisect_bounds (random.accumulate weights)
                (fmul r (fadd (last (random.accumulate weights) 0%Q) 0))
                (List.length population - 1)).
  destruct population; [congruence | cbn [List.length] in *; lia].
Qed.

Lemma item0_draws {A} t (l : list A) (P : A -> Prop) :
  (exists x, l = [x] /\ P x) -> draws t (item0 l) P.
Proof. intros (x & -> & Px). now apply draws_ret. Qed.

End ChoicesFacts.

Module FakeFacts.

Lemma draw_draws t : draws t fake.draw (fun _ => True).
Proof.
  intros w _. eexists _, _. split; [reflexivity|]. split; [exact I|]. repeat split.
Qed.

Lemma text_draws t (k : FakeText) : draws t (fake.text k) (fun _ => True).
Proof.
  unfold fake.text. eapply draws_bind; [apply draw_draws|]. intros n _.
  intros w _. eexists _, _. split; [reflexivity|]. split; [exact I|]. repeat split.
Qed.

(** [date_between] returns a day of the interval it is given. *)
Lemma date_between_draws t (s e : fake.DateSpec) :
  fake.parse_date t s <= fake.parse_date t e ->
  draws t (fake.date_between s e)
        (fun d => fake.parse_date t s <= d <= fake.parse_date t e).
Proof.
  intros Hse w Ht. unfold fake.date_between, bind, gets. rewrite Ht.
  destruct (Z.ltb_spec (fake.parse_date t e) (fake.parse_date t s)) as [H|_]; [lia|].
  unfold fake.draw, ret. eexists _, _. split; [reflexivity|].
  split; [|repeat split; exact Ht].
  pose proof (Z.mod_pos_bound (Z.of_N (tape (fake_state w) (cursor (fake_state w))))
                (fake.parse_date t e - fake.parse_date t s + 1) ltac:(lia)).
  lia.
Qed.

End FakeFacts.

(* ================================================================== *)
(** * The reference-entity generators *)
(* ================================================================== *)

Module GeneratorFacts.
Import Binary64 Binary64Facts RandomFacts ChoicesFacts FakeFacts.

Ltac step := eapply draws_bind; [| intros ? ?; cbv beta in * ].
Tactic Notation "step" "as" ident(x) ident(H) :=
  eapply draws_bind; [| intros x H; cbv beta in H ].

Lemma fl_0 : fl 0 = 0%Q.
Proof. reflexivity. Qed.

Lemma desconto_upper :
  (fl (0 + fl (fl (literal (1 # 10) - 0) * random_max)) <= literal (1 # 10))%Q /\
  (fl (0 + fl (fl (literal (1 # 10) - 0) * random_max)) <= 1 # 10)%Q.
Proof. split; apply Qle_bool_iff; vm_compute; reflexivity. Qed.

Lemma preco_lower : fl 10 = 10%Q.
Proof. vm_compute. reflexivity. Qed.

Lemma preco_upper : (fl (10 + fl (fl (500 - 10) * random_max)) <= 500)%Q.
Proof. apply Qle_bool_iff. vm_compute. reflexivity. Qed.

Lemma peso_lower : fl (literal (8 # 10)) = literal (8 # 10).
Proof. vm_compute. reflexivity. Qed.

Lemma peso_upper :
  (fl (literal (8 # 10) + fl (fl (literal (12 # 10) - literal (8 # 10)) * random_max))
   <= literal (12 # 10))%Q.
Proof. apply Qle_bool_iff. vm_compute. reflexivity. Qed.

(** The doubles written [0.8] and [1.2] lie inside the real interval. *)
Lemma peso_literals : (8 # 10 <= literal (8 # 10))%Q /\ (literal (12 # 10) <= 12 # 10)%Q.
Proof. split; apply Qle_bool_iff; vm_compute; reflexivity. Qed.

Lemma gerar_forma_pagamento_draws t :
  draws t gerar_forma_pagamento
        (fun f =>
           In (FormaPagamento.descricao f) (keys formas_pagamento_pesos) /\
           (FormaPagamento.descricao f <> "Boleto"%string ->
            FormaPagamento.prazo_pagamento f = 0) /\
           (FormaPagamento.descricao f <> "Dinheiro"%string ->
            FormaPagamento.desconto f = 0%Q) /\
           0 <= FormaPagamento.prazo_pagamento f <= 30 /\
           (0 <= FormaPagamento.desconto f)%Q /\
           (FormaPagamento.desconto f <= literal (1 # 10))%Q /\
           (FormaPagamento.desconto f <= 1 # 10)%Q).
Proof.
  unfold gerar_forma_pagamento.
  step as descricao Hin.
  { step as l Hl; [apply choices_draws; [discriminate | reflexivity | vm_compute; reflexivity]|].
    apply (item0_draws t l (fun x => In x (keys formas_pagamento_pesos))). assumption. }
  eapply draws_bind with
    (P := fun p => (descricao <> "Boleto"%string -> p = 0) /\ 0 <= p <= 30).
  { destruct (String.eqb_spec descricao "Boleto") as [E|N].
    - eapply draws_weaken; [apply randint_draws; lia|].
      cbv beta. intros p Hp. split; [congruence | exact Hp].
    - apply draws_ret. split; [reflexivity | lia]. }
  intros prazo [Hp1 Hp2].
  eapply draws_bind with
    (P := fun d => (descricao <> "Dinheiro"%string -> d = 0%Q) /\
                   (0 <= d)%Q /\ (d <= literal (1 # 10))%Q /\ (d <= 1 # 10)%Q).
  { destruct (String.eqb_spec descricao "Dinheiro") as [E|N].
    - eapply draws_weaken.
      { apply (uniform_draws t 0 (literal (1 # 10))).
        apply Qle_bool_iff. vm_compute. reflexivity. }
      cbv beta. rewrite fl_0. intros d [L U]. destruct desconto_upper as [U1 U2].
      split; [congruence|]. split; [exact L|].
      split; eapply Qle_trans; eassumption.
    - apply draws_ret. split; [reflexivity|].
      repeat split; apply Qle_bool_iff; vm_compute; reflexivity. }
  intros desconto (Hd1 & Hd2 & Hd3 & Hd4).
  apply draws_ret.
  cbn [FormaPagamento.descricao FormaPagamento.prazo_pagamento FormaPagamento.desconto].
  repeat split; try assumption; apply Hp2.
Qed.

(** [round(u, 2)] of a float of [10, 500] is the double of a numeral
    [n/100] of that interval. *)
Lemma round2_range (u : Q) :
  (10 <= u)%Q -> (u <= 500)%Q ->
  exists n : Z, 1000 <= n <= 50000 /\ round2 u = fl (n # 100) /\
                (10 <= round2 u)%Q /\ (round2 u <= 500)%Q.
Proof.
  intros Lo Hi. exists (rne (u * 100)).
  assert (Hn : 1000 <= rne (u * 100) <= 50000).
  { split.
    - rewrite <- (rne_Z 1000). apply rne_mono. change (inject_Z 1000) with 1000%Q. lra.
    - rewrite <- (rne_Z 50000). apply rne_mono. change (inject_Z 50000) with 50000%Q. lra. }
  assert (E : round2 u = fl (rne (u * 100) # 100)).
  { unfold round2. apply fl_comp. now rewrite (Qmake_Qdiv (rne (u * 100)) 100). }
  split; [exact Hn|]. split; [exact E|]. rewrite E.
  assert (E10 : fl (1000 # 100) = 10%Q) by (vm_compute; reflexivity).
  assert (E500 : fl (50000 # 100) = 500%Q) by (vm_compute; reflexivity).
  rewrite <- E10, <- E500.
  split; apply fl_mono; unfold Qle; cbn [Qnum Qden]; lia.
Qed.

(** Such a double is a fixed point of [round(., 2)]. *)
Lemma round2_fixed (n : Z) :
  1000 <= n <= 50000 -> round2 (fl (n # 100)) = fl (n # 100).
Proof.
  intros Hn. unfold round2.
  assert (Hx : (0 < n # 100)%Q) by (unfold Qlt; cbn [Qnum Qden]; lia).
  assert (Hlt : (n # 100 < 512)%Q) by (unfold Qlt; cbn [Qnum Qden]; lia).
  destruct (fl_error _ Hx) as [E1 E2].
  pose proof (two_pow_le _ _ (ulp_exp_below_512 _ Hx Hlt)) as P.
  change (2 ^ (-44))%Q with (1 # 17592186044416)%Q in P.
  assert (Hr : rne (fl (n # 100) * 100) = n).
  { apply rne_unique.
    - assert (inject_Z n == (n # 100) * 100)%Q as -> by (rewrite (Qmake_Qdiv n 100); field).
      lra.
    - assert (inject_Z n == (n # 100) * 100)%Q as -> by (rewrite (Qmake_Qdiv n 100); field).
      lra. }
  rewrite Hr. apply fl_comp. now rewrite (Qmake_Qdiv n 100).
Qed.

Lemma gerar_produto_draws t :
  draws t gerar_produto
        (fun p =>
           In (Produto.categoria p) (keys categorias_produtos) /\
           (10 <= Produto.preco_unitario p)%Q /\
           (Produto.preco_unitario p <= 500)%Q /\
           (exists n : Z, 1000 <= n <= 50000 /\ Produto.preco_unitario p = fl (n # 100)) /\
           round2 (Produto.preco_unitario p) = Produto.preco_unitario p /\
           (literal (8 # 10) <= Produto.peso_sazonal p)%Q /\
           (Produto.peso_sazonal p <= literal (12 # 10))%Q).
Proof.
  unfold gerar_produto.
  step as categoria Hin.
  { step as l Hl; [apply choices_draws; [discriminate | reflexivity | vm_compute; reflexivity]|].
    apply (item0_draws t l (fun x => In x (keys categorias_produtos))). assumption. }
  step as descricao Hd; [apply text_draws|].
  eapply draws_bind with
    (P := fun x => (10 <= x)%Q /\ (x <= 500)%Q /\
                   (exists n : Z, 1000 <= n <= 50000 /\ x = fl (n # 100)) /\
                   round2 x = x).
  { step as u Hu; [apply (uniform_draws t 10 500); unfold Qle; cbn; lia|].
    rewrite preco_lower in Hu. destruct Hu as [L U].
    apply (fun H => Qle_trans _ _ _ H preco_upper) in U.
    destruct (round2_range u L U) as (n & Hn & E & L' & U').
    apply draws_ret. repeat split; try assumption.
    - exists n. auto.
    - rewrite E. apply round2_fixed, Hn. }
  intros preco (L & U & N & F).
  step as peso Hpeso.
  { apply (uniform_draws t (literal (8 # 10)) (literal (12 # 10))).
    apply Qle_bool_iff. vm_compute. reflexivity. }
  rewrite peso_lower in Hpeso. destruct Hpeso as [PL PU].
  apply (fun H => Qle_trans _ _ _ H peso_upper) in PU.
  step as unidade Hun; [apply choice_draws; discriminate|].
  apply draws_ret.
  cbn [Produto.categoria Produto.preco_unitario Produto.peso_sazonal].
  repeat split; assumption.
Qed.

Lemma gerar_cliente_draws t : draws t gerar_cliente (fun _ => True).
Proof.
  unfold gerar_cliente.
  do 5 (step; [apply text_draws|]).
  do 2 (step; [apply choice_draws; discriminate|]).
  now apply draws_ret.
Qed.

Lemma gerar_caixa_draws t : draws t gerar_caixa (fun _ => True).
Proof.
  unfold gerar_caixa.
  step; [apply text_draws|].
  step; [apply choice_draws; discriminate|].
  step; [apply date_between_draws; cbn; lia|].
  now apply draws_ret.
Qed.

Lemma gerar_status_entrega_draws t (lista_status : list string) :
  lista_status <> [] ->
  draws t (gerar_status_entrega lista_status)
        (fun s => In (StatusEntrega.descricao s) lista_status).
Proof.
  intros Hne. unfold gerar_status_entrega.
  step; [apply choice_draws, Hne|].
  now apply draws_ret.
Qed.

End GeneratorFacts.

(* ================================================================== *)
(** * The store and the session *)
(* ================================================================== *)

Module SessionFacts.

Lemma insert_row_table (e : Entity) (s : Store) :
  has_table (table_of e) s = true ->
  exists i s', insert_row e s = Some (i, s').
Proof.
  destruct e; cbn;
    [destruct (clientes s) | destruct (produtos s) | destruct (caixas s)
    | destruct (formas_pagamento s) | destruct (status_entrega s) | destruct (vendas s)];
    cbn; intros H; try discriminate; eauto.
Qed.

Lemma insert_row_missing (e : Entity) (s : Store) :
  has_table (table_of e) s = false -> insert_row e s = None.
Proof.
  destruct e; cbn;
    [destruct (clientes s) | destruct (produtos s) | destruct (caixas s)
    | destruct (formas_pagamento s) | destruct (status_entrega s) | destruct (vendas s)];
    cbn; intros H; try discriminate; reflexivity.
Qed.

(** Inserting a row creates no table and drops none. *)
Lemma has_table_stored (t : Table) (s : Store) (e : Entity) :
  has_table t (stored s e) = has_table t s.
Proof.
  unfold stored.
  destruct e; cbn;
    [destruct (clientes s) eqn:E | destruct (produtos s) eqn:E | destruct (caixas s) eqn:E
    | destruct (formas_pagamento s) eqn:E | destruct (status_entrega s) eqn:E
    | destruct (vendas s) eqn:E];
    destruct t; cbn; rewrite ?E; reflexivity.
Qed.

Lemma has_table_flushed (t : Table) (es : list Entity) (s : Store) :
  has_table t (fold_left stored es s) = has_table t s.
Proof.
  revert s. induction es as [|e es IH]; intros s; cbn; [reflexivity|].
  now rewrite IH, has_table_stored.
Qed.

(** An insert adds one row to its table and none to the others. *)
Lemma count_stored (t : Table) (s : Store) (e : Entity) :
  has_table (table_of e) s = true ->
  count t (stored s e) = (count t s + if Table_eqb t (table_of e) then 1 else 0)%nat.
Proof.
  unfold stored.
  destruct e; cbn;
    [destruct (clientes s) eqn:E | destruct (produtos s) eqn:E | destruct (caixas s) eqn:E
    | destruct (formas_pagamento s) eqn:E | destruct (status_entrega s) eqn:E
    | destruct (vendas s) eqn:E];
    intros H; try discriminate;
    destruct t; cbn; rewrite ?E; cbn; rewrite ?length_app; cbn; lia.
Qed.

Lemma env_kept_trans (w1 w2 w3 : World) :
  env_kept w1 w2 -> env_kept w2 w3 -> env_kept w1 w3.
Proof. unfold env_kept. intuition congruence. Qed.

(** One [INSERT]: it succeeds exactly when the table exists. *)
Lemma insert_cases (e : Entity) (w : World) :
  (has_table (table_of e) (base w) = true /\
   exists w', insert e w = (Ok tt, w') /\
              base w' = stored (base w) e /\
              pending (session w') = pending (session w) /\
              database w' = database w /\ env_kept w w' /\
              log w' = log w ++ flush_events [e] (base w))
  \/
  (has_table (table_of e) (base w) = false /\
   insert e w = (Raise OperationalError, set_transaction (base w) w)).
Proof.
  destruct (has_table (table_of e) (base w)) eqn:T; [left | right]; split; trivial.
  - destruct (insert_row_table e (base w) T) as (i & s' & E).
    unfold insert, bind, begin, base in *.
    destruct w as [r f loc t db [pend [tx|]] lg]; cbn in *; rewrite E;
      eexists; (split; [reflexivity|]); cbn; unfold stored; rewrite E;
      repeat split.
  - pose proof (insert_row_missing e (base w) T) as E.
    unfold insert, bind, begin, base in *.
    destruct w as [r f loc t db [pend [tx|]] lg]; cbn in *; rewrite E; reflexivity.
Qed.

Lemma flush_events_app (es1 es2 : list Entity) (s : Store) :
  Forall (fun e => has_table (table_of e) s = true) es1 ->
  flush_events (es1 ++ es2) s = flush_events es1 s ++ flush_events es2 (fold_left stored es1 s).
Proof.
  revert s. induction es1 as [|e es1 IH]; intros s H; cbn; [reflexivity|].
  inversion H as [|? ? He Hes]; subst.
  destruct (insert_row_table e s He) as (i & s' & E).
  unfold stored at 2. rewrite E. cbn. f_equal. apply IH.
  eapply Forall_impl; [|exact Hes]. cbn. intros a Ha.
  replace s' with (stored s e) by (unfold stored; now rewrite E).
  now rewrite has_table_stored.
Qed.

Lemma flush_events_insert (es : list Entity) (s : Store) :
  Forall is_insert (flush_events es s).
Proof.
  revert s. induction es as [|e es IH]; intros s; cbn; [constructor|].
  destruct (insert_row e s) as [[i s']|]; constructor; [exact I | apply IH].
Qed.

(** The inserts of a flush: all succeed when every object has its table,
    and otherwise the flush raises. *)
Lemma insert_all_cases (es : list Entity) (w : World) :
  (Forall (fun e => has_table (table_of e) (base w) = true) es /\
   exists w', insert_all es w = (Ok tt, w') /\
              base w' = fold_left stored es (base w) /\
              pending (session w') = pending (session w) /\
              database w' = database w /\ env_kept w w' /\
              log w' = log w ++ flush_events es (base w))
  \/
  (~ Forall (fun e => has_table (table_of e) (base w) = true) es /\
   exists w', insert_all es w = (Raise OperationalError, w')).
Proof.
  revert w. induction es as [|e es IH]; intros w.
  - left. split; [constructor|]. exists w. cbn. rewrite app_nil_r.
    repeat split.
  - cbn [insert_all].
    destruct (insert_cases e w) as [(T & w1 & E1 & B1 & P1 & D1 & K1 & L1) | (T & E1)].
    + rewrite (bind_ok _ _ _ _ _ E1).
      destruct (IH w1) as [(F & w2 & E2 & B2 & P2 & D2 & K2 & L2) | (F & w2 & E2)].
      * left. split.
        { constructor; [exact T|]. eapply Forall_impl; [|exact F].
          cbn. intros a Ha. now rewrite B1, has_table_stored in Ha. }
        exists w2. split; [exact E2|].
        split; [cbn; congruence|]. split; [congruence|]. split; [congruence|].
        split; [eauto using env_kept_trans|].
        rewrite L2, L1, B1, <- app_assoc. f_equal.
        change (e :: es) with ([e] ++ es).
        rewrite flush_events_app by (constructor; [exact T | constructor]).
        reflexivity.
      * right. split.
        { intros H. apply F. inversion H; subst.
          eapply Forall_impl; [|eassumption]. cbn. intros a Ha.
          now rewrite B1, has_table_stored. }
        exists w2. exact E2.
    + right. rewrite (bind_raise _ _ _ _ _ E1). split.
      * intros H. inversion H; subst. congruence.
      * eexists. reflexivity.
Qed.

Lemma begin_run (w : World) :
  exists w', begin w = (Ok (base w), w') /\
             transaction (session w') = Some (base w) /\
             pending (session w') = pending (session w) /\
             database w' = database w /\ env_kept w w' /\ log w' = log w.
Proof.
  unfold begin, base.
  destruct w as [r f loc t db [pend [tx|]] lg]; cbn;
    eexists; (split; [reflexivity|]); repeat split.
Qed.

(** [session.flush()] *)
Lemma flush_cases (w : World) :
  (flush_ok w /\
   exists w', session_flush w = (Ok tt, w') /\
              base w' = view w /\
              pending (session w') = [] /\
              database w' = database w /\ env_kept w w' /\
              log w' = log w ++ flush_events (pending (session w)) (base w))
  \/
  (~ flush_ok w /\ exists w', session_flush w = (Raise OperationalError, w')).
Proof.
  unfold session_flush, flush_ok, view.
  rewrite (bind_ok (gets (fun w => pending (session w))) _ w (pending (session w)) w eq_refl).
  destruct (insert_all_cases (pending (session w)) w)
    as [(F & w1 & E1 & B1 & P1 & D1 & K1 & L1) | (F & w1 & E1)].
  - left. split; [exact F|].
    rewrite (bind_ok _ _ _ _ _ E1).
    eexists. split; [reflexivity|].
    destruct w1 as [r f loc t db [pend tx] lg]. cbn in *. auto.
  - right. split; [exact F|]. rewrite (bind_raise _ _ _ _ _ E1). eauto.
Qed.

Lemma view_flushed (w : World) (s : Store) :
  pending (session w) = [] -> transaction (session w) = Some s -> view w = s.
Proof. unfold view, base. now intros -> ->. Qed.

Lemma flush_ok_flushed (w : World) : pending (session w) = [] -> flush_ok w.
Proof. unfold flush_ok. intros ->. constructor. Qed.

(** [session.query(cls).all()] *)
Lemma query_cases {A} (m : Mapper A) (w : World) :
  (flush_ok w /\
   exists rows w', mapped_rows m (view w) = Some rows /\
                   session_query_all m w = (Ok rows, w') /\
                   transaction (session w') = Some (view w) /\
                   pending (session w') = [] /\
                   database w' = database w /\ env_kept w w' /\
                   log w' = log w ++ flush_events (pending (session w)) (base w)
                                  ++ [EvSelect (mapped_table m)])
  \/
  ((~ flush_ok w \/ mapped_rows m (view w) = None) /\
   exists w', session_query_all m w = (Raise OperationalError, w')).
Proof.
  unfold session_query_all.
  destruct (flush_cases w) as [(F & w1 & E1 & B1 & P1 & D1 & K1 & L1) | (F & w1 & E1)].
  - rewrite (bind_ok _ _ _ _ _ E1).
    destruct (begin_run w1) as (w2 & E2 & T2 & P2 & D2 & K2 & L2).
    rewrite (bind_ok _ _ _ _ _ E2). rewrite B1 in *.
    destruct (mapped_rows m (view w)) as [rows|] eqn:R.
    + left. split; [exact F|]. exists rows. eexists. split; [reflexivity|].
      split; [reflexivity|].
      destruct w2 as [r f loc t db [pend tx] lg]. cbn in *.
      split; [exact T2|]. split; [congruence|]. split; [congruence|].
      split; [eauto using env_kept_trans|].
      rewrite L2, L1, <- app_assoc. reflexivity.
    + right. split; [now right|]. eexists. reflexivity.
  - right. split; [now left|]. rewrite (bind_raise _ _ _ _ _ E1). eauto.
Qed.

(** [session.add(obj)] only grows the pending list. *)
Lemma session_add_run (e : Entity) (w : World) :
  exists w', session_add e w = (Ok tt, w') /\
             pending (session w') = pending (session w) ++ [e] /\
             transaction (session w') = transaction (session w) /\
             view w' = stored (view w) e /\
             database w' = database w /\ env_kept w w' /\ log w' = log w.
Proof.
  eexists. split; [reflexivity|].
  destruct w as [r f loc t db [pend tx] lg]. unfold view, base. cbn.
  rewrite fold_left_app. cbn. repeat split.
Qed.

(** [session.commit()] *)
Lemma commit_cases (w : World) :
  (flush_ok w /\
   exists w', session_commit w = (Ok tt, w') /\
              database w' = view w /\
              session w' = mkSession [] None /\
              env_kept w w' /\
              log w' = log w ++ flush_events (pending (session w)) (base w) ++ [EvCommit])
  \/
  (~ flush_ok w /\ exists w', session_commit w = (Raise OperationalError, w')).
Proof.
  unfold session_commit.
  destruct (flush_cases w) as [(F & w1 & E1 & B1 & P1 & D1 & K1 & L1) | (F & w1 & E1)].
  - left. split; [exact F|]. rewrite (bind_ok _ _ _ _ _ E1).
    eexists. split; [reflexivity|].
    destruct w1 as [r f loc t db [pend [tx|]] lg]; unfold base in B1; cbn in *;
      subst; rewrite <- app_assoc; repeat split; try apply K1; congruence.
  - right. split; [exact F|]. rewrite (bind_raise _ _ _ _ _ E1). eauto.
Qed.

Lemma session_close_run (w : World) :
  exists w', session_close w = (Ok tt, w') /\
             session w' = mkSession [] None /\
             database w' = database w /\ env_kept w w' /\ log w' = log w ++ [EvClose].
Proof. eexists. split; [reflexivity|]. repeat split. Qed.

Lemma new_session_run (w : World) :
  exists w', new_session w = (Ok tt, w') /\
             session w' = mkSession [] None /\
             database w' = database w /\ env_kept w w' /\ log w' = log w.
Proof. eexists. split; [reflexivity|]. repeat split. Qed.

End SessionFacts.

(* ================================================================== *)
(** * The sale generator *)
(* ================================================================== *)

Module VendaFacts.
Import Binary64 SessionFacts.

Lemma draw_at_0 (w : World) : draw_at w 0 = tape (random_state w) (cursor (random_state w)).
Proof. unfold draw_at. now rewrite Nat.add_0_r. Qed.

Lemma draw_at_next (w w' : World) (i : nat) :
  random_state w' = next_gen (random_state w) -> draw_at w' i = draw_at w (S i).
Proof. unfold draw_at. intros ->. cbn. f_equal. lia. Qed.

Lemma draw_at_same (w w' : World) (i : nat) :
  random_state w' = random_state w -> draw_at w' i = draw_at w i.
Proof. unfold draw_at. now intros ->. Qed.

Lemma pick_In {A} (rows : list A) (d : N) (x : A) : pick rows d = Some x -> In x rows.
Proof. unfold pick. apply nth_error_In. Qed.

(** [random.choice]: [IndexError] on no rows, and otherwise the row at the
    drawn index, for one draw. *)
Lemma choice_cases {A} (rows : list A) (w : World) :
  (rows = [] /\ random.choice rows w = (Raise IndexError, w))
  \/
  (exists x, random.choice rows w = (Ok x, advance_random w) /\
             pick rows (draw_at w 0) = Some x).
Proof.
  destruct rows as [|r rows]; [left; auto | right].
  eexists. split; [reflexivity|].
  unfold pick. rewrite draw_at_0.
  apply nth_error_nth'.
  pose proof (Z.mod_pos_bound (Z.of_N (tape (random_state w) (cursor (random_state w))))
                (Z.of_nat (List.length (r :: rows))) ltac:(cbn [List.length]; lia)).
  lia.
Qed.

Lemma randint_run (a b : Z) (w : World) :
  a <= b ->
  random.randint a b w = (Ok (a + Z.of_N (draw_at w 0) mod (b + 1 - a)), advance_random w).
Proof.
  intros Hab. unfold random.randint, random.randrange. cbv zeta.
  destruct (Z.ltb_spec 0 (b + 1 - a)) as [_|H]; [|lia].
  rewrite draw_at_0. reflexivity.
Qed.

Lemma date_between_run (s e : fake.DateSpec) (w : World) :
  fake.parse_date (today w) s <= fake.parse_date (today w) e ->
  exists d, fake.date_between s e w = (Ok d, advance_fake w) /\
            fake.parse_date (today w) s <= d <= fake.parse_date (today w) e.
Proof.
  intros Hse. unfold fake.date_between, bind, gets.
  destruct (Z.ltb_spec (fake.parse_date (today w) e) (fake.parse_date (today w) s)) as [H|_];
    [lia|].
  eexists. split; [reflexivity|].
  pose proof (Z.mod_pos_bound (Z.of_N (tape (fake_state w) (cursor (fake_state w))))
                (fake.parse_date (today w) e - fake.parse_date (today w) s + 1) ltac:(lia)).
  lia.
Qed.

(** One line of [gerar_venda]: [random.choice(session.query(cls).all())]. *)
Lemma query_choice_cases {A} (m : Mapper A) (w : World) :
  match (rows <- session_query_all m ;; random.choice rows) w with
  | (Ok x, w') =>
      exists rows,
      flush_ok w /\ mapped_rows m (view w) = Some rows /\
      pick rows (draw_at w 0) = Some x /\
      transaction (session w') = Some (view w) /\ pending (session w') = [] /\
      database w' = database w /\
      random_state w' = next_gen (random_state w) /\ fake_state w' = fake_state w /\
      fake_locale w' = fake_locale w /\ today w' = today w /\
      log w' = log w ++ flush_events (pending (session w)) (base w)
                     ++ [EvSelect (mapped_table m)]
  | (Raise e, _) =>
      (e = OperationalError /\ (~ flush_ok w \/ mapped_rows m (view w) = None)) \/
      (e = IndexError /\ flush_ok w /\ mapped_rows m (view w) = Some [])
  end.
Proof.
  destruct (query_cases m w)
    as [(F & rows & w1 & R & E & T & P & D & (K1 & K2 & K3 & K4) & L) | (N & w1 & E)].
  - rewrite (bind_ok _ _ _ _ _ E).
    destruct (choice_cases rows w1) as [(-> & C) | (x & C & Px)]; rewrite C.
    + right. auto.
    + exists rows. cbn. rewrite (draw_at_same w w1 0 K1) in Px.
      repeat split; try assumption. now rewrite K1.
  - rewrite (bind_raise _ _ _ _ _ E). left. auto.
Qed.

Ltac sale_line m w x w1 E :=
  let Q := fresh "Q" in
  pose proof (query_choice_cases m w) as Q;
  destruct ((rows <- session_query_all m ;; random.choice rows) w) as [[x|?e] w1] eqn:E;
  [ rewrite (bind_ok _ _ _ _ _ E)
  | rewrite (bind_raise _ _ _ _ _ E) ].

(** Every run of [gerar_venda]. *)
Lemma gerar_venda_cases (w : World) :
  match gerar_venda w with
  | (Ok v, w') => sold w v w'
  | (Raise e, _) => refused w e
  end.
Proof.
  unfold gerar_venda.
  sale_line ClienteMapper w c w1 E1.
  2:{ unfold refused. cbn in Q. tauto. }
  destruct Q as (rc & F & Rc & Pc & T1 & P1 & D1 & G1 & K1 & L1 & Y1 & Lg1).
  assert (V1 : view w1 = view w) by (apply view_flushed; assumption).
  assert (B1 : base w1 = view w) by (unfold base; now rewrite T1).
  sale_line ProdutoMapper w1 p w2 E2.
  2:{ unfold refused. cbn in Q. rewrite V1 in Q.
      pose proof (flush_ok_flushed w1 P1). tauto. }
  destruct Q as (rp & _ & Rp & Pp & T2 & P2 & D2 & G2 & K2 & L2 & Y2 & Lg2).
  rewrite V1 in *. rewrite P1 in Lg2. cbn [flush_events app] in Lg2.
  assert (V2 : view w2 = view w) by (apply view_flushed; assumption).
  sale_line FormaPagamentoMapper w2 f w3 E3.
  2:{ unfold refused. cbn in Q. rewrite V2 in Q.
      pose proof (flush_ok_flushed w2 P2). tauto. }
  destruct Q as (rf & _ & Rf & Pf & T3 & P3 & D3 & G3 & K3 & L3 & Y3 & Lg3).
  rewrite V2 in *. rewrite P2 in Lg3. cbn [flush_events app] in Lg3.
  assert (V3 : view w3 = view w) by (apply view_flushed; assumption).
  sale_line StatusEntregaMapper w3 s w4 E4.
  2:{ unfold refused. cbn in Q. rewrite V3 in Q.
      pose proof (flush_ok_flushed w3 P3). tauto. }
  destruct Q as (rs & _ & Rs & Ps & T4 & P4 & D4 & G4 & K4 & L4 & Y4 & Lg4).
  rewrite V3 in *. rewrite P3 in Lg4. cbn [flush_events app] in Lg4.
  assert (V4 : view w4 = view w) by (apply view_flushed; assumption).
  sale_line CaixaMapper w4 x w5 E5.
  2:{ unfold refused. cbn in Q. rewrite V4 in Q.
      pose proof (flush_ok_flushed w4 P4). tauto. }
  destruct Q as (rx & _ & Rx & Px & T5 & P5 & D5 & G5 & K5 & L5 & Y5 & Lg5).
  rewrite V4 in *. rewrite P4 in Lg5. cbn [flush_events app] in Lg5.
  cbn [mapped_rows mapped_table ClienteMapper ProdutoMapper FormaPagamentoMapper
         StatusEntregaMapper CaixaMapper] in *.
  (* the draws of the five choices *)
  rewrite (draw_at_next w w1 0 G1) in Pp.
  assert (N2 : forall i, draw_at w2 i = draw_at w (S (S i))).
  { intros i. now rewrite (draw_at_next w1 w2 i G2), (draw_at_next w w1 _ G1). }
  assert (N3 : forall i, draw_at w3 i = draw_at w (3 + i)).
  { intros i. now rewrite (draw_at_next w2 w3 i G3), N2. }
  assert (N4 : forall i, draw_at w4 i = draw_at w (4 + i)).
  { intros i. now rewrite (draw_at_next w3 w4 i G4), N3. }
  assert (N5 : forall i, draw_at w5 i = draw_at w (5 + i)).
  { intros i. now rewrite (draw_at_next w4 w5 i G5), N4. }
  rewrite N2 in Pf. rewrite N3 in Ps. rewrite N4 in Px. cbn [Nat.add] in Ps, Px.
  assert (Yw5 : today w5 = today w) by congruence.
  (* the date of the sale *)
  destruct (date_between_run (fake.YearsAgo 1) fake.Today w5) as (dv & Ed & Hd);
    [cbn; lia|].
  rewrite (bind_ok _ _ _ _ _ Ed).
  (* the amount and the quantity *)
  rewrite (bind_ok _ _ (advance_fake w5) _ (advance_random (advance_fake w5))
             (bind_ok _ _ _ _ _ (randint_run 1 10 (advance_fake w5) ltac:(lia)))).
  rewrite (bind_ok _ _ _ _ _ (randint_run 1 10 (advance_random (advance_fake w5)) ltac:(lia))).
  replace (draw_at (advance_fake w5) 0) with (draw_at w 5)
    by (symmetry; apply (N5 0%nat)).
  replace (draw_at (advance_random (advance_fake w5)) 0) with (draw_at w 6).
  2:{ rewrite (draw_at_next w5 (advance_random (advance_fake w5)) 0 eq_refl).
      symmetry. apply (N5 1%nat). }
  rewrite Yw5 in Hd. change (fake.parse_date (today w) fake.Today) with (today w) in Hd.
  assert (Lg : log w5 = log w ++ flush_events (pending (session w)) (base w)
                        ++ map EvSelect [TClientes; TProdutos; TFormasPagamento;
                                         TStatusEntrega; TCaixas]).
  { rewrite Lg5, Lg4, Lg3, Lg2, Lg1. cbn [map]. rewrite <- !app_assoc. reflexivity. }
  (* the date of delivery *)
  destruct (String.eqb (StatusEntrega.descricao s) "Entregue") eqn:Entregue.
  - destruct (date_between_run (fake.DaysAgo 30) fake.Today
                (advance_random (advance_random (advance_fake w5)))) as (de & Ee & He);
      [cbn; lia|].
    rewrite (bind_ok _ _ _ _ _ (bind_ok _ _ _ _ _ Ee)).
    cbn [fake.parse_date advance_random advance_fake set_random set_fake today] in He.
    rewrite Yw5 in He.
    exists rc, rp, rf, rs, rx, c, p, f, s, x. rewrite Entregue.
    cbn [Venda.id_venda Venda.id_cliente Venda.id_produto Venda.data_venda Venda.valor_venda
           Venda.quantidade Venda.id_forma_pagamento Venda.id_status_entrega
           Venda.data_entrega Venda.id_caixa].
    repeat match goal with |- _ /\ _ => split end; try assumption; try reflexivity;
      try (cbn [advance_random advance_fake set_random set_fake
                  database fake_locale session log today]; congruence);
      try lia.
    exists de. split; [reflexivity | lia].
  - exists rc, rp, rf, rs, rx, c, p, f, s, x. rewrite Entregue.
    cbn [Venda.id_venda Venda.id_cliente Venda.id_produto Venda.data_venda Venda.valor_venda
           Venda.quantidade Venda.id_forma_pagamento Venda.id_status_entrega
           Venda.data_entrega Venda.id_caixa].
    repeat match goal with |- _ /\ _ => split end; try assumption; try reflexivity;
      try (cbn [advance_random advance_fake set_random set_fake
                  database fake_locale session log today]; congruence);
      try lia.
Qed.

Lemma ready_set_draw (i : nat) (d : N) (w : World) : ready w -> ready (set_draw i d w).
Proof. intros H. exact H. Qed.

Lemma draw_at_set_draw (i j : nat) (d : N) (w : World) :
  draw_at (set_draw i d w) j = if (j =? i)%nat then d else draw_at w j.
Proof.
  unfold draw_at, set_draw. cbn.
  destruct (Nat.eqb_spec j i) as [->|N].
  - now rewrite Nat.eqb_refl.
  - destruct (Nat.eqb_spec (cursor (random_state w) + j) (cursor (random_state w) + i));
      [lia | reflexivity].
Qed.


End VendaFacts.

(* ================================================================== *)
(** * Properties of the sale generator *)
(* ================================================================== *)

Module VendaClaims.
Import Binary64 SessionFacts VendaFacts.

Lemma gerar_venda_sold (w : World) (v : Venda.t) (w' : World) :
  gerar_venda w = (Ok v, w') -> sold w v w'.
Proof. intros E. pose proof (gerar_venda_cases w) as H. now rewrite E in H. Qed.

Lemma gerar_venda_refused (w : World) (e : Exn) (w' : World) :
  gerar_venda w = (Raise e, w') -> refused w e.
Proof. intros E. pose proof (gerar_venda_cases w) as H. now rewrite E in H. Qed.

Lemma pick_nonempty {A} (rows : list A) (d : N) (x : A) : pick rows d = Some x -> rows <> [].
Proof. intros H ->. unfold pick in H. now destruct (Z.to_nat _). Qed.

(** From a ready session, [gerar_venda] returns a sale. *)
Lemma gerar_venda_total (w : World) :
  ready w -> exists v w', gerar_venda w = (Ok v, w').
Proof.
  intros (F & Hc & Hp & Hf & Hs & Hx).
  destruct (gerar_venda w) as [[v|e] w'] eqn:E; [eauto|exfalso].
  apply gerar_venda_refused in E.
  destruct E as [(_ & [N | [N | [N | [N | [N | N]]]]]) | (_ & _ & [N | [N | [N | [N | N]]]])];
    try (now apply N); rewrite N in *; cbn in *; lia.
Qed.

(** C1, at the failing input.  On the sample store the product costs 10.00;
    with the sixth draw 2 and the seventh 6, the sale is priced for 3 units
    (30.00) while its quantity is 7: the amount is not the unit price times
    the quantity. *)
Theorem gerar_venda_amount_quantity_mismatch :
  exists v w',
    gerar_venda (sample_world [0; 0; 0; 0; 0; 2; 6]%N [] sample_store) = (Ok v, w') /\
    Venda.id_produto v = Some 1 /\
    Venda.quantidade v = 7 /\
    Venda.valor_venda v = 30%Q /\
    ~ (Venda.valor_venda v == fmul 10 (inject_Z (Venda.quantidade v)))%Q.
Proof.
  eexists _, _. split; [vm_compute; reflexivity|].
  cbn [Venda.id_produto Venda.quantidade Venda.valor_venda].
  repeat split. vm_compute. discriminate.
Qed.

(** C2.  For every sale [gerar_venda] returns, with [s] the delivery status
    drawn for it: the delivery date is set exactly when the description of
    [s] is "Entregue"; a delivery date lies between 30 days before today
    and today; and the sale date lies between one year before today (as
    Faker resolves ["-1y"]) and today. *)
Theorem gerar_venda_dates (w : World) (v : Venda.t) (w' : World) :
  gerar_venda w = (Ok v, w') ->
  exists rs s,
    status_entrega (view w) = Some rs /\
    pick rs (draw_at w 3) = Some s /\
    Venda.id_status_entrega v = StatusEntrega.id_status_entrega s /\
    (Venda.data_entrega v <> None <-> StatusEntrega.descricao s = "Entregue"%string) /\
    (forall d, Venda.data_entrega v = Some d ->
               fake.parse_date (today w) (fake.DaysAgo 30) <= d <= today w) /\
    fake.parse_date (today w) (fake.YearsAgo 1) <= Venda.data_venda v <= today w.
Proof.
  intros E. apply gerar_venda_sold in E.
  destruct E as (rc & rp & rf & rs & rx & c & p & f & s & x & _ & _ & _ & _ & Rs & _ &
                 _ & _ & _ & Ps & _ & _ & _ & _ & _ & Is & _ & _ & _ & Dv & De & _).
  exists rs, s.
  split; [exact Rs|]. split; [exact Ps|]. split; [exact Is|].
  destruct (String.eqb_spec (StatusEntrega.descricao s) "Entregue") as [Y|N].
  - destruct De as (d' & Ed & Hd). rewrite Ed.
    split; [split; [trivial | discriminate]|].
    split; [|exact Dv].
    intros d H. assert (d' = d) by congruence. subst d'. cbn. lia.
  - rewrite De.
    split; [split; [congruence | contradiction]|].
    split; [|exact Dv].
    intros d H. discriminate.
Qed.

Lemma gerar_venda_dates_witness :
  exists (v : Venda.t) (w' : World) rs s,
    gerar_venda (sample_world [] [3; 40]%N sample_store) = (Ok v, w') /\
    status_entrega (view (sample_world [] [3; 40]%N sample_store)) = Some rs /\
    pick rs (draw_at (sample_world [] [3; 40]%N sample_store) 3) = Some s /\
    Venda.id_status_entrega v = StatusEntrega.id_status_entrega s /\
    (Venda.data_entrega v <> None <-> StatusEntrega.descricao s = "Entregue"%string) /\
    (forall d, Venda.data_entrega v = Some d -> 20000 - 30 <= d <= 20000) /\
    fake.parse_date 20000 (fake.YearsAgo 1) <= Venda.data_venda v <= 20000.
Proof.
  eexists _, _.
  assert (E : gerar_venda (sample_world [] [3; 40]%N sample_store)
              = (fst (gerar_venda (sample_world [] [3; 40]%N sample_store)),
                 snd (gerar_venda (sample_world [] [3; 40]%N sample_store))))
    by apply surjective_pairing.
  revert E. vm_compute (fst _). vm_compute (snd _). intros E.
  destruct (gerar_venda_dates _ _ _ E) as (rs & s & H).
  exists rs, s. split; [exact E | exact H].
Defined.

(** C3.  When one of the five reference tables has no rows, [gerar_venda]
    returns no sale; and when the five tables exist (and the pending
    objects can be flushed), what it raises is the [IndexError] of
    [random.choice] on an empty sequence. *)
Theorem gerar_venda_empty_table_raises (w : World) :
  (size (clientes (view w)) = 0 \/ size (produtos (view w)) = 0 \/
   size (formas_pagamento (view w)) = 0 \/ size (status_entrega (view w)) = 0 \/
   size (caixas (view w)) = 0)%nat ->
  (forall v w', gerar_venda w <> (Ok v, w')) /\
  (flush_ok w ->
   clientes (view w) <> None -> produtos (view w) <> None ->
   formas_pagamento (view w) <> None -> status_entrega (view w) <> None ->
   caixas (view w) <> None ->
   exists w', gerar_venda w = (Raise IndexError, w')).
Proof.
  intros Hempty.
  assert (No : forall v w', gerar_venda w <> (Ok v, w')).
  { intros v w' E. apply gerar_venda_sold in E.
    destruct E as (rc & rp & rf & rs & rx & c & p & f & s & x & _ & Rc & Rp & Rf & Rs & Rx &
                   Pc & Pp & Pf & Ps & Px & _).
    apply pick_nonempty in Pc, Pp, Pf, Ps, Px.
    rewrite Rc, Rp, Rf, Rs, Rx in Hempty. cbn in Hempty.
    destruct rc, rp, rf, rs, rx; cbn in Hempty; try congruence; lia. }
  split; [exact No|].
  intros F Hc Hp Hf Hs Hx.
  destruct (gerar_venda w) as [[v|e] w'] eqn:E.
  - exfalso. exact (No v w' eq_refl).
  - pose proof (gerar_venda_cases w) as R. rewrite E in R.
    destruct R as [(_ & R) | (-> & _)]; [exfalso; tauto | eauto].
Qed.

Lemma gerar_venda_empty_table_raises_witness :
  (size (caixas (view (sample_world [] [] store_without_caixa))) = 0)%nat /\
  (forall v w', gerar_venda (sample_world [] [] store_without_caixa) <> (Ok v, w')) /\
  exists w', gerar_venda (sample_world [] [] store_without_caixa) = (Raise IndexError, w').
Proof.
  assert (H0 : (size (caixas (view (sample_world [] [] store_without_caixa))) = 0)%nat)
    by reflexivity.
  split; [exact H0|].
  destruct (gerar_venda_empty_table_raises (sample_world [] [] store_without_caixa))
    as [No Raises].
  { right; right; right; right. exact H0. }
  split; [exact No|].
  apply Raises; [constructor | discriminate ..].
Defined.









(** C9.  For every sale [gerar_venda] returns, the amount is the float
    product of the drawn product's unit price by an integer [k] of
    [1, 10], namely the one given by the sixth draw, while the quantity is
    given by the seventh draw; and there is a run whose amount divided by
    the unit price is not the quantity. *)
Theorem gerar_venda_amount_own_draw :
  (forall (w : World) (v : Venda.t) (w' : World),
      gerar_venda w = (Ok v, w') ->
      exists rp p k,
        produtos (view w) = Some rp /\ pick rp (draw_at w 1) = Some p /\
        Venda.id_produto v = Produto.id_produto p /\
        1 <= k <= 10 /\
        k = 1 + Z.of_N (draw_at w 5) mod 10 /\
        Venda.valor_venda v = fmul (Produto.preco_unitario p) (inject_Z k) /\
        Venda.quantidade v = 1 + Z.of_N (draw_at w 6) mod 10 /\
        1 <= Venda.quantidade v <= 10)
  /\
  (exists (w : World) (v : Venda.t) (w' : World) (p : Produto.t),
      gerar_venda w = (Ok v, w') /\
      produtos (view w) = Some [p] /\
      Venda.id_produto v = Produto.id_produto p /\
      ~ (Venda.valor_venda v / Produto.preco_unitario p == inject_Z (Venda.quantidade v))%Q).
Proof.
  split.
  - intros w v w' E. apply gerar_venda_sold in E.
    destruct E as (rc & rp & rf & rs & rx & c & p & f & s & x & _ & _ & Rp & _ & _ & _ &
                   _ & Pp & _ & _ & _ & _ & _ & Ip & _ & _ & _ & Va & Q & _).
    exists rp, p, (1 + Z.of_N (draw_at w 5) mod 10).
    pose proof (Z.mod_pos_bound (Z.of_N (draw_at w 5)) 10 eq_refl).
    pose proof (Z.mod_pos_bound (Z.of_N (draw_at w 6)) 10 eq_refl).
    repeat split; try assumption; try lia.
  - exists (sample_world [0; 0; 0; 0; 0; 2; 6]%N [] sample_store).
    eexists _, _, _. split; [vm_compute; reflexivity|].
    split; [reflexivity|]. split; [reflexivity|].
    vm_compute. discriminate.
Qed.

Lemma gerar_venda_amount_own_draw_witness :
  exists (v : Venda.t) (w' : World) rp p k,
    gerar_venda (sample_world [0; 0; 0; 0; 0; 2; 6]%N [] sample_store) = (Ok v, w') /\
    produtos sample_store = Some rp /\ pick rp 0%N = Some p /\
    Venda.id_produto v = Produto.id_produto p /\
    k = 3 /\
    Venda.valor_venda v = fmul (Produto.preco_unitario p) (inject_Z k) /\
    Venda.quantidade v = 7.
Proof.
  eexists _, _.
  assert (E : gerar_venda (sample_world [0; 0; 0; 0; 0; 2; 6]%N [] sample_store)
              = (fst (gerar_venda (sample_world [0; 0; 0; 0; 0; 2; 6]%N [] sample_store)),
                 snd (gerar_venda (sample_world [0; 0; 0; 0; 0; 2; 6]%N [] sample_store))))
    by apply surjective_pairing.
  revert E. vm_compute (fst _). vm_compute (snd _). intros E.
  destruct (proj1 gerar_venda_amount_own_draw _ _ _ E)
    as (rp & p & k & Rp & Pp & Ip & _ & Hk & Hv & Hq & _).
  exists rp, p, k.
  split; [exact E|]. split; [exact Rp|]. split; [exact Pp|]. split; [exact Ip|].
  split; [exact Hk|]. split; [exact Hv | exact Hq].
Defined.

End VendaClaims.

(* ================================================================== *)
(** * Properties of the reference-entity generators *)
(* ================================================================== *)

Module GeneratorClaims.
Import Binary64 Binary64Facts GeneratorFacts.

(** C4.  [gerar_forma_pagamento] always returns; the description it gives
    is one of the four methods; the payment term is 0 unless the
    description is "Boleto"; and the discount is 0 unless the description is
    "Dinheiro". *)
Theorem gerar_forma_pagamento_conditional_fields (w : World) :
  exists f w',
    gerar_forma_pagamento w = (Ok f, w') /\
    In (FormaPagamento.descricao f)
       ["Dinheiro"; "Cartão de Crédito"; "Cartão de Débito"; "Boleto"]%string /\
    (FormaPagamento.descricao f <> "Boleto"%string -> FormaPagamento.prazo_pagamento f = 0) /\
    (FormaPagamento.prazo_pagamento f <> 0 -> FormaPagamento.descricao f = "Boleto"%string) /\
    (FormaPagamento.descricao f <> "Dinheiro"%string -> FormaPagamento.desconto f = 0%Q) /\
    (~ (FormaPagamento.desconto f == 0)%Q -> FormaPagamento.descricao f = "Dinheiro"%string).
Proof.
  destruct (gerar_forma_pagamento_draws (today w) w eq_refl)
    as (f & w' & E & (Hin & Hp & Hd & _) & _).
  exists f, w'. split; [exact E|]. split; [exact Hin|]. split; [exact Hp|].
  split; [|split; [exact Hd|]].
  - intros N. destruct (string_dec (FormaPagamento.descricao f) "Boleto") as [Y|Y]; [exact Y|].
    now apply Hp in Y.
  - intros N. destruct (string_dec (FormaPagamento.descricao f) "Dinheiro") as [Y|Y]; [exact Y|].
    apply Hd in Y. rewrite Y in N. exfalso. apply N. reflexivity.
Qed.

Lemma gerar_forma_pagamento_conditional_fields_witness :
  exists f w',
    gerar_forma_pagamento (sample_world [9007199254740991; 5]%N [] empty_file) = (Ok f, w') /\
    FormaPagamento.descricao f = "Boleto"%string /\
    FormaPagamento.prazo_pagamento f = 5 /\
    FormaPagamento.desconto f = 0%Q.
Proof.
  destruct (gerar_forma_pagamento_conditional_fields
              (sample_world [9007199254740991; 5]%N [] empty_file))
    as (f & w' & E & _ & _ & Hp & Hd & _).
  exists f, w'. split; [exact E|].
  assert (P : FormaPagamento.prazo_pagamento f = 5).
  { revert E. vm_compute. intros E. now inversion E. }
  split; [apply Hp; rewrite P; discriminate|].
  split; [exact P|].
  apply Hd. rewrite (Hp ltac:(rewrite P; discriminate)). discriminate.
Defined.

(** C5.  [gerar_produto] always returns; the unit price lies in [10, 500],
    is the double of a two-decimal numeral [n/100] and is left unchanged by
    [round(., 2)]; the seasonal weight lies between the doubles written
    [0.8] and [1.2], hence in the real interval [0.8, 1.2]. *)
Theorem gerar_produto_ranges (w : World) :
  exists p w',
    gerar_produto w = (Ok p, w') /\
    (10 <= Produto.preco_unitario p)%Q /\ (Produto.preco_unitario p <= 500)%Q /\
    (exists n : Z, 1000 <= n <= 50000 /\ Produto.preco_unitario p = fl (n # 100)) /\
    round2 (Produto.preco_unitario p) = Produto.preco_unitario p /\
    (literal (8 # 10) <= Produto.peso_sazonal p)%Q /\
    (Produto.peso_sazonal p <= literal (12 # 10))%Q /\
    (8 # 10 <= Produto.peso_sazonal p)%Q /\ (Produto.peso_sazonal p <= 12 # 10)%Q.
Proof.
  destruct (gerar_produto_draws (today w) w eq_refl)
    as (p & w' & E & (_ & L & U & N & F & PL & PU) & _).
  destruct peso_literals as [A B].
  exists p, w'. repeat split; try assumption.
  - eapply Qle_trans; eassumption.
  - eapply Qle_trans; eassumption.
Qed.

(** A unit price is a double, and so need not be a decimal itself: for
    the draw below it is the double nearest to 10.67, which is no integer
    number of hundredths. *)
Remark preco_unitario_not_decimal :
  exists w p w',
    gerar_produto w = (Ok p, w') /\
    Produto.preco_unitario p = fl (1067 # 100) /\
    forall n : Z, ~ (Produto.preco_unitario p == n # 100)%Q.
Proof.
  exists (sample_world [0; 12345678901234; 0; 0]%N [] empty_file).
  eexists _, _. split; [vm_compute; reflexivity|].
  split; [vm_compute; reflexivity|].
  intros n H. unfold Qeq in H. cbn in H. lia.
Qed.

(** C10.  [gerar_forma_pagamento] always returns a discount between 0 and
    the double written [0.1], which also keeps it at most one tenth, and a
    payment term between 0 and 30; there is
    a run that returns "Boleto" with a payment term of 0, and a run that
    returns "Dinheiro" with a discount of 0. *)
Theorem gerar_forma_pagamento_ranges :
  (forall w : World,
      exists f w',
        gerar_forma_pagamento w = (Ok f, w') /\
        (0 <= FormaPagamento.desconto f)%Q /\
        (FormaPagamento.desconto f <= literal (1 # 10))%Q /\
        (FormaPagamento.desconto f <= 1 # 10)%Q /\
        0 <= FormaPagamento.prazo_pagamento f <= 30)
  /\
  (exists w f w',
      gerar_forma_pagamento w = (Ok f, w') /\
      FormaPagamento.descricao f = "Boleto"%string /\
      FormaPagamento.prazo_pagamento f = 0)
  /\
  (exists w f w',
      gerar_forma_pagamento w = (Ok f, w') /\
      FormaPagamento.descricao f = "Dinheiro"%string /\
      FormaPagamento.desconto f = 0%Q).
Proof.
  split; [|split].
  - intros w.
    destruct (gerar_forma_pagamento_draws (today w) w eq_refl)
      as (f & w' & E & (_ & _ & _ & P & D0 & D1 & D2) & _).
    exists f, w'. auto.
  - exists (sample_world [9007199254740991; 0]%N [] empty_file).
    eexists _, _. split; [vm_compute; reflexivity|]. split; reflexivity.
  - exists (sample_world [0; 0]%N [] empty_file).
    eexists _, _. split; [vm_compute; reflexivity|]. split; reflexivity.
Qed.

End GeneratorClaims.

(* ================================================================== *)
(** * Schema creation *)
(* ================================================================== *)

Module SchemaFacts.
Import SessionFacts.

Lemma kept_refl (s : Store) : kept s s.
Proof. unfold kept. tauto. Qed.

Lemma kept_trans (s1 s2 s3 : Store) : kept s1 s2 -> kept s2 s3 -> kept s1 s3.
Proof.
  unfold kept. intros (A1 & A2 & A3 & A4 & A5 & A6) (B1 & B2 & B3 & B4 & B5 & B6).
  repeat split; intros H;
    [ specialize (A1 H); rewrite <- A1 in H; specialize (B1 H)
    | specialize (A2 H); rewrite <- A2 in H; specialize (B2 H)
    | specialize (A3 H); rewrite <- A3 in H; specialize (B3 H)
    | specialize (A4 H); rewrite <- A4 in H; specialize (B4 H)
    | specialize (A5 H); rewrite <- A5 in H; specialize (B5 H)
    | specialize (A6 H); rewrite <- A6 in H; specialize (B6 H) ];
    congruence.
Qed.

(** Creating a missing table leaves the others alone, and adds no row. *)
Lemma create_empty_spec (t : Table) (s : Store) :
  has_table t s = false ->
  kept s (create_empty t s) /\
  (forall u, count u (create_empty t s) = count u s) /\
  (forall u, has_table u (create_empty t s) = (Table_eqb u t || has_table u s)%bool).
Proof.
  destruct s as [c p x f st v].
  destruct t; cbn; intros H;
    [destruct x | destruct c | destruct f | destruct p | destruct st | destruct v];
    try discriminate;
    (split; [unfold kept; cbn; tauto|]);
    (split; intros u; destruct u; reflexivity).
Qed.

Lemma Table_eqb_eq (a b : Table) : Table_eqb a b = true <-> a = b.
Proof. destruct a, b; cbn; split; intros H; congruence. Qed.

(** A store with the six tables is the store it keeps. *)
Lemma kept_complete (s s' : Store) : complete s -> kept s s' -> s' = s.
Proof.
  intros Hc (Kc & Kp & Kx & Kf & Ks & Kv).
  pose proof (Hc TClientes) as Hc1. pose proof (Hc TProdutos) as Hc2.
  pose proof (Hc TCaixas) as Hc3. pose proof (Hc TFormasPagamento) as Hc4.
  pose proof (Hc TStatusEntrega) as Hc5. pose proof (Hc TVendas) as Hc6.
  destruct s as [c p x f st v], s' as [c' p' x' f' st' v']. cbn in *.
  destruct c, p, x, f, st, v; try discriminate.
  rewrite Kc, Kp, Kx, Kf, Ks, Kv by discriminate. reflexivity.
Qed.

(** The checks of [create_all]: one read of the schema per table, in the
    order of the metadata; the tables that are missing are returned. *)
Lemma can_create_tables_run (ts : list Table) (w : World) :
  exists w',
    can_create_tables ts w
    = (Ok (filter (fun t => negb (has_table t (database w))) ts), w') /\
    database w' = database w /\ session w' = session w /\ env_kept w w' /\
    log w' = log w ++ map EvHasTable ts.
Proof.
  revert w. induction ts as [|t ts IH]; intros w.
  - exists w. cbn. rewrite app_nil_r. repeat split.
  - assert (E0 : engine_has_table t w
                 = (Ok (has_table t (database w)), emit (EvHasTable t) w)) by reflexivity.
    destruct (IH (emit (EvHasTable t) w)) as (w' & E & D & S & K & L).
    change (database (emit (EvHasTable t) w)) with (database w) in E, D.
    exists w'. split.
    { cbn [can_create_tables filter].
      rewrite (bind_ok _ _ _ _ _ E0), (bind_ok _ _ _ _ _ E).
      destruct (has_table t (database w)); reflexivity. }
    split; [exact D|]. split; [exact S|]. split; [exact K|].
    rewrite L. cbn [log emit map]. now rewrite <- app_assoc.
Qed.

(** The creations of [create_all], on tables that are missing. *)
Lemma create_tables_run (ts : list Table) :
  NoDup ts ->
  forall w : World,
  (forall t, In t ts -> has_table t (database w) = false) ->
  exists w',
    create_tables ts w = (Ok tt, w') /\
    session w' = session w /\ env_kept w w' /\
    kept (database w) (database w') /\
    (forall u, count u (database w') = count u (database w)) /\
    (forall u, has_table u (database w')
               = (existsb (Table_eqb u) ts || has_table u (database w))%bool) /\
    log w' = log w ++ map EvCreateTable ts.
Proof.
  induction 1 as [|t ts Hnin Hnd IH]; intros w Hmiss.
  - exists w. cbn. rewrite app_nil_r. repeat split; auto using kept_refl.
  - assert (Ht : has_table t (database w) = false) by (apply Hmiss; now left).
    destruct (create_empty_spec t (database w) Ht) as (K & C & T).
    set (w1 := emit (EvCreateTable t) (set_database (create_empty t (database w)) w)).
    assert (E1 : engine_create_table t w = (Ok tt, w1)).
    { unfold engine_create_table, bind, gets, modify. now rewrite Ht. }
    destruct (IH w1) as (w2 & E2 & S2 & K2 & P2 & C2 & T2 & L2).
    { intros u Hu. change (database w1) with (create_empty t (database w)).
      rewrite T, (Hmiss u (or_intror Hu)).
      destruct (Table_eqb u t) eqn:Eq; [|reflexivity].
      apply Table_eqb_eq in Eq. subst u. contradiction. }
    change (database w1) with (create_empty t (database w)) in P2, C2, T2.
    exists w2. split.
    { cbn [create_tables]. now rewrite (bind_ok _ _ _ _ _ E1). }
    split; [exact S2|]. split; [exact K2|].
    split; [eauto using kept_trans|].
    split; [intros u; now rewrite C2, C|].
    split.
    { intros u. rewrite T2, T. cbn [existsb].
      destruct (Table_eqb u t), (existsb (Table_eqb u) ts), (has_table u (database w));
        reflexivity. }
    rewrite L2. cbn [log emit map w1 set_database]. now rewrite <- app_assoc.
Qed.

(** Tables taken from the metadata in its order are sorted already. *)
Lemma sort_tables_declared (f : Table -> bool) :
  sort_tables_and_constraints (filter f metadata_tables) = filter f metadata_tables.
Proof.
  unfold metadata_tables. cbn [filter].
  destruct (f TClientes), (f TProdutos), (f TCaixas), (f TFormasPagamento),
           (f TStatusEntrega), (f TVendas); reflexivity.
Qed.

Lemma metadata_tables_NoDup : NoDup metadata_tables.
Proof. repeat constructor; cbn; intuition discriminate. Qed.

(** [create_all], run: the six checks, then the creation of what is
    missing. *)
Lemma create_all_run (w : World) :
  exists w',
    create_all w = (Ok tt, w') /\
    session w' = session w /\ env_kept w w' /\
    kept (database w) (database w') /\
    (forall u, count u (database w') = count u (database w)) /\
    complete (database w') /\
    log w' = log w ++ map EvHasTable metadata_tables
                   ++ map EvCreateTable
                        (filter (fun t => negb (has_table t (database w))) metadata_tables).
Proof.
  unfold create_all.
  destruct (can_create_tables_run metadata_tables w) as (w1 & E1 & D1 & S1 & K1 & L1).
  rewrite (bind_ok _ _ _ _ _ E1), sort_tables_declared.
  destruct (create_tables_run
              (filter (fun t => negb (has_table t (database w))) metadata_tables)
              (NoDup_filter _ metadata_tables_NoDup) w1)
    as (w2 & E2 & S2 & K2 & P2 & C2 & T2 & L2).
  { intros t Ht. apply filter_In in Ht. destruct Ht as [_ Ht].
    rewrite D1. now apply negb_true_iff. }
  rewrite D1 in P2, C2, T2.
  exists w2. split; [exact E2|]. split; [congruence|].
  split; [eauto using env_kept_trans|]. split; [exact P2|]. split; [exact C2|].
  split.
  { intros u. rewrite T2.
    destruct (has_table u (database w)) eqn:H; [apply orb_true_r|].
    rewrite orb_false_r. apply existsb_exists. exists u. split.
    - apply filter_In. split; [destruct u; cbn; auto 7|]. now rewrite H.
    - now apply Table_eqb_eq. }
  rewrite L2, L1. now rewrite <- app_assoc.
Qed.

(** On a store that has the six tables nothing is missing. *)
Lemma nothing_missing (s : Store) :
  complete s -> filter (fun t => negb (has_table t s)) metadata_tables = [].
Proof.
  intros Hc. unfold metadata_tables. cbn [filter].
  now rewrite (Hc TClientes), (Hc TProdutos), (Hc TCaixas), (Hc TFormasPagamento),
              (Hc TStatusEntrega), (Hc TVendas).
Qed.

Lemma create_all_quiet (s : Store) :
  Forall quiet_event
         (map EvHasTable metadata_tables
          ++ map EvCreateTable (filter (fun t => negb (has_table t s)) metadata_tables)).
Proof.
  apply Forall_app. split; apply Forall_forall; intros e He;
    apply in_map_iff in He; destruct He as (t & <- & _); exact I.
Qed.

End SchemaFacts.

Module SchemaClaims.
Import SessionFacts SchemaFacts.

(** C7.  [create_all] never raises and leaves the six tables in the store,
    those that were there with their rows.  Run against a store that has
    the six tables, it changes nothing in the store: it only checks, table
    by table, that the table is there.  So a second run after a first one
    creates nothing. *)
Theorem create_all_idempotent :
  (forall w : World,
      exists w1 evs,
        create_all w = (Ok tt, w1) /\
        complete (database w1) /\ kept (database w) (database w1) /\
        log w1 = log w ++ evs /\
        exists w2,
          create_all w1 = (Ok tt, w2) /\
          database w2 = database w1 /\ session w2 = session w1 /\
          log w2 = log w1 ++ map EvHasTable metadata_tables)
  /\
  (forall w : World,
      complete (database w) ->
      exists w',
        create_all w = (Ok tt, w') /\
        database w' = database w /\ session w' = session w /\
        log w' = log w ++ map EvHasTable metadata_tables).
Proof.
  assert (Second : forall w : World,
             complete (database w) ->
             exists w',
               create_all w = (Ok tt, w') /\
               database w' = database w /\ session w' = session w /\
               log w' = log w ++ map EvHasTable metadata_tables).
  { intros w Hc.
    destruct (create_all_run w) as (w' & E & S & _ & K & _ & _ & L).
    rewrite (nothing_missing _ Hc), app_nil_r in L.
    exists w'. split; [exact E|]. split; [exact (kept_complete _ _ Hc K)|].
    split; [exact S | exact L]. }
  split; [|exact Second].
  intros w.
  destruct (create_all_run w) as (w1 & E & S & _ & K & _ & Hc & L).
  exists w1. eexists. split; [exact E|]. split; [exact Hc|]. split; [exact K|].
  split; [exact L|]. apply Second, Hc.
Qed.

Lemma create_all_idempotent_witness :
  complete (database (sample_world [] [] sample_store)) /\
  exists w',
    create_all (sample_world [] [] sample_store) = (Ok tt, w') /\
    database w' = sample_store /\
    log w' = map EvHasTable metadata_tables.
Proof.
  assert (Hc : complete (database (sample_world [] [] sample_store)))
    by (intros t; destruct t; reflexivity).
  split; [exact Hc|].
  destruct (proj2 create_all_idempotent (sample_world [] [] sample_store) Hc)
    as (w' & E & D & _ & L).
  exists w'. auto.
Defined.

End SchemaClaims.

(* ================================================================== *)
(** * The seeding scripts *)
(* ================================================================== *)

Module SeedingFacts.
Import SessionFacts VendaFacts VendaClaims SchemaFacts GeneratorFacts.

(** [for _ in range(n)] under an invariant indexed by the turn. *)
Lemma for_invariant (I : nat -> World -> Prop) (body : M unit) (n : nat) :
  (forall i w, (i < n)%nat -> I i w -> exists w', body w = (Ok tt, w') /\ I (S i) w') ->
  forall w, I O w -> exists w', for_ n body w = (Ok tt, w') /\ I n w'.
Proof.
  intros Hbody.
  assert (G : forall m k w, (k + m = n)%nat -> I k w ->
                            exists w', for_ m body w = (Ok tt, w') /\ I n w').
  { induction m as [|m IH]; intros k w Hk Hw.
    - exists w. replace n with k by lia. split; [reflexivity | exact Hw].
    - destruct (Hbody k w ltac:(lia) Hw) as (w1 & E1 & H1).
      destruct (IH (S k) w1 ltac:(lia) H1) as (w2 & E2 & H2).
      exists w2. cbn [for_]. rewrite (bind_ok _ _ _ _ _ E1). auto. }
  intros w Hw. apply (G n O w); [lia | exact Hw].
Qed.

Lemma quiet_inserts (evs : list Event) : Forall is_insert evs -> Forall quiet_event evs.
Proof. apply Forall_impl. intros [] H; try contradiction; exact I. Qed.

Lemma in_session_ext (w0 : World) (a b : Table -> nat) (w : World) :
  (forall t, a t = b t) -> in_session w0 a w -> in_session w0 b w.
Proof.
  intros Hab (D & Y & L & C & N & Ev).
  repeat split; try assumption. intros t. rewrite <- Hab. apply N.
Qed.

Lemma view_has_table (t : Table) (w : World) : has_table t (view w) = has_table t (base w).
Proof. apply has_table_flushed. Qed.

(** A generator that only draws keeps the session where it stands. *)
Lemma in_session_draws {A} (m : M A) (P : A -> Prop) (w0 : World) (a : Table -> nat)
      (w : World) :
  (forall t, draws t m P) -> in_session w0 a w ->
  exists x w', m w = (Ok x, w') /\ P x /\ in_session w0 a w'.
Proof.
  intros Hm (D & Y & L & C & N & Ev).
  destruct (Hm (today w) w eq_refl) as (x & w' & E & Px & (D' & S' & L' & Y' & F')).
  exists x, w'. split; [exact E|]. split; [exact Px|].
  unfold in_session, view, base in *. rewrite S', D', L'.
  repeat split; try assumption; congruence.
Qed.

(** [session.add] makes one more row visible. *)
Lemma in_session_add (e : Entity) (w0 : World) (a : Table -> nat) (w : World) :
  in_session w0 a w ->
  exists w', session_add e w = (Ok tt, w') /\ in_session w0 (bump (table_of e) a) w'.
Proof.
  intros (D & Y & L & C & N & Ev).
  destruct (session_add_run e w) as (w' & E & P' & T' & V' & D' & (_ & _ & L' & Y') & Lg').
  exists w'. split; [exact E|].
  assert (B' : base w' = base w) by (unfold base; now rewrite T', D').
  split; [congruence|]. split; [congruence|]. split; [congruence|].
  split; [now rewrite B'|]. split; [|now rewrite Lg'].
  intros t. rewrite V', count_stored, N; [unfold bump; lia|].
  rewrite view_has_table. apply C.
Qed.

(** With a row visible in each reference table, [gerar_venda] returns a
    sale and leaves every table as it sees it. *)
Lemma in_session_venda (w0 : World) (a : Table -> nat) (w : World) :
  in_session w0 a w ->
  (forall t, t <> TVendas -> (0 < count t (database w0) + a t)%nat) ->
  exists v w', gerar_venda w = (Ok v, w') /\ in_session w0 a w'.
Proof.
  intros (D & Y & L & C & N & (evs & Lg & Q)) Hpos.
  assert (F : flush_ok w).
  { unfold flush_ok. apply Forall_forall. intros e _. apply C. }
  assert (R : ready w).
  { split; [exact F|].
    pose proof (N TClientes) as Nc. pose proof (N TProdutos) as Np.
    pose proof (N TFormasPagamento) as Nf. pose proof (N TStatusEntrega) as Ns.
    pose proof (N TCaixas) as Nx.
    pose proof (Hpos TClientes ltac:(discriminate)).
    pose proof (Hpos TProdutos ltac:(discriminate)).
    pose proof (Hpos TFormasPagamento ltac:(discriminate)).
    pose proof (Hpos TStatusEntrega ltac:(discriminate)).
    pose proof (Hpos TCaixas ltac:(discriminate)).
    cbn [count] in *. repeat split; lia. }
  destruct (gerar_venda_total w R) as (v & w' & E).
  exists v, w'. split; [exact E|].
  apply gerar_venda_sold in E.
  destruct E as (rc & rp & rf & rs & rx & c & p & f & s & x & _ & _ & _ & _ & _ & _ &
                 _ & _ & _ & _ & _ & _ & _ & _ & _ & _ & _ & _ & _ & _ & _ &
                 T' & P' & D' & Y' & L' & Lg').
  assert (V' : view w' = view w) by (apply view_flushed; assumption).
  assert (B' : base w' = view w) by (unfold base; now rewrite T').
  split; [congruence|]. split; [congruence|]. split; [congruence|].
  split.
  { rewrite B'. intros t. rewrite view_has_table. apply C. }
  split; [intros t; rewrite V'; apply N|].
  exists (evs ++ flush_events (pending (session w)) (base w)
               ++ map EvSelect [TClientes; TProdutos; TFormasPagamento;
                                TStatusEntrega; TCaixas]).
  split.
  { rewrite Lg', Lg, <- app_assoc. reflexivity. }
  apply Forall_app. split; [exact Q|].
  apply Forall_app. split; [apply quiet_inserts, flush_events_insert|].
  repeat constructor.
Qed.

(** [session.commit()] and [session.close()] at the end of a session. *)
Lemma in_session_commit_close (w0 : World) (a : Table -> nat) (w : World) :
  in_session w0 a w ->
  exists w' evs,
    (session_commit ;; session_close) w = (Ok tt, w') /\
    (forall t, count t (database w') = (count t (database w0) + a t)%nat) /\
    complete (database w') /\
    session w' = mkSession [] None /\
    today w' = today w0 /\ fake_locale w' = fake_locale w0 /\
    log w' = log w0 ++ evs ++ [EvCommit; EvClose] /\ Forall quiet_event evs.
Proof.
  intros (D & Y & L & C & N & (evs & Lg & Q)).
  destruct (commit_cases w) as [(F & w1 & E1 & D1 & S1 & (_ & _ & L1 & Y1) & Lg1)
                               | (F & _)].
  2:{ exfalso. apply F. unfold flush_ok. apply Forall_forall. intros e _. apply C. }
  destruct (session_close_run w1) as (w2 & E2 & S2 & D2 & (_ & _ & L2 & Y2) & Lg2).
  exists w2, (evs ++ flush_events (pending (session w)) (base w)).
  split; [rewrite (bind_ok _ _ _ _ _ E1); exact E2|].
  split; [intros t; rewrite D2, D1; apply N|].
  split; [intros t; rewrite D2, D1, view_has_table; apply C|].
  split; [exact S2|]. split; [congruence|]. split; [congruence|].
  split.
  { rewrite Lg2, Lg1, Lg, <- !app_assoc. cbn [app]. reflexivity. }
  apply Forall_app. split; [exact Q | apply quiet_inserts, flush_events_insert].
Qed.

(** [Session()] on a store that has the six tables opens a session. *)
Lemma in_session_open (w : World) :
  complete (database w) ->
  exists w', new_session w = (Ok tt, w') /\
             database w' = database w /\ log w' = log w /\
             today w' = today w /\ fake_locale w' = fake_locale w /\
             in_session w' (fun _ => O) w'.
Proof.
  intros C.
  destruct (new_session_run w) as (w' & E & S' & D' & (_ & _ & L' & Y') & Lg').
  exists w'. repeat split; try assumption.
  - unfold base. rewrite S'. cbn. rewrite D'. exact C.
  - intros t. unfold view, base. rewrite S'. cbn. lia.
  - exists []. rewrite app_nil_r. split; [reflexivity | constructor].
Qed.

End SeedingFacts.

Module SeedingRuns.
Import SessionFacts SchemaFacts GeneratorFacts SeedingFacts.

Ltac draw_then_add lemma e :=
  match goal with
  | H : in_session ?w0 ?a ?w |- _ =>
      let x := fresh "x" in
      let w1 := fresh "w" in
      let E := fresh "E" in
      let H1 := fresh "H" in
      destruct (in_session_draws _ _ w0 a w lemma H) as (x & w1 & E & _ & H1);
      rewrite (bind_ok _ _ _ _ _ E); clear E H;
      let w2 := fresh "w" in
      let E2 := fresh "E" in
      let H2 := fresh "H" in
      destruct (in_session_add (e x) w0 a w1 H1) as (w2 & E2 & H2);
      clear H1;
      try (rewrite (bind_ok _ _ _ _ _ E2); clear E2)
  end.

Ltac run_loop n Inv :=
  match goal with
  | |- context [bind (for_ n ?body) _ ?w] =>
      let L := fresh "Loop" in
      assert (L : exists w', for_ n body w = (Ok tt, w') /\ Inv n w');
      [ apply (for_invariant Inv body n) | ]
  end.

Ltac same_rows := intros t; destruct t; unfold bump; cbn; lia.

(** One turn of the first loop of [models.py]: a row more in each
    reference table. *)
Lemma reference_turn (w0 : World) (a : Table -> nat) (w : World) :
  in_session w0 a w ->
  exists w',
    (c <- gerar_cliente ;; session_add (ECliente c) ;;
     p <- gerar_produto ;; session_add (EProduto p) ;;
     x <- gerar_caixa ;; session_add (ECaixa x) ;;
     f <- gerar_forma_pagamento ;; session_add (EFormaPagamento f) ;;
     s <- gerar_status_entrega lista_status_entrega ;; session_add (EStatusEntrega s)) w
    = (Ok tt, w') /\
    in_session w0 (bump TStatusEntrega (bump TFormasPagamento (bump TCaixas
                    (bump TProdutos (bump TClientes a))))) w'.
Proof.
  intros H.
  draw_then_add gerar_cliente_draws ECliente.
  draw_then_add gerar_produto_draws EProduto.
  draw_then_add gerar_caixa_draws ECaixa.
  draw_then_add gerar_forma_pagamento_draws EFormaPagamento.
  draw_then_add (fun t => gerar_status_entrega_draws t lista_status_entrega
                            ltac:(discriminate)) EStatusEntrega.
  eauto.
Qed.

Lemma produto_turn (w0 : World) (a : Table -> nat) (w : World) :
  in_session w0 a w ->
  exists w', (p <- gerar_produto ;; session_add (EProduto p)) w = (Ok tt, w') /\
             in_session w0 (bump TProdutos a) w'.
Proof. intros H. draw_then_add gerar_produto_draws EProduto. eauto. Qed.

Lemma cliente_turn (w0 : World) (a : Table -> nat) (w : World) :
  in_session w0 a w ->
  exists w', (c <- gerar_cliente ;; session_add (ECliente c)) w = (Ok tt, w') /\
             in_session w0 (bump TClientes a) w'.
Proof. intros H. draw_then_add gerar_cliente_draws ECliente. eauto. Qed.

Lemma venda_turn (w0 : World) (a : Table -> nat) (w : World) :
  in_session w0 a w ->
  (forall t, t <> TVendas -> (0 < count t (database w0) + a t)%nat) ->
  exists w', (v <- gerar_venda ;; session_add (EVenda v)) w = (Ok tt, w') /\
             in_session w0 (bump TVendas a) w'.
Proof.
  intros H Hpos.
  destruct (in_session_venda w0 a w H Hpos) as (v & w1 & E1 & H1).
  rewrite (bind_ok _ _ _ _ _ E1).
  apply in_session_add with (e := EVenda v). exact H1.
Qed.

(** The body of [models.py]. *)
Lemma models_main_run (w : World) :
  exists w' evs,
    models_main w = (Ok tt, w') /\
    (forall t, count t (database w') = (count t (database w) + models_rows t)%nat) /\
    complete (database w') /\
    log w' = log w ++ evs ++ [EvCommit; EvClose] /\ Forall quiet_event evs.
Proof.
  unfold models_main.
  destruct (create_all_run w) as (w1 & E1 & S1 & _ & _ & C1 & Hc & L1).
  pose proof (create_all_quiet (database w)) as Q1.
  set (evs1 := map EvHasTable metadata_tables ++ _) in L1, Q1.
  rewrite (bind_ok _ _ _ _ _ E1).
  destruct (in_session_open w1 Hc) as (w2 & E2 & D2 & L2 & _ & _ & H2).
  rewrite (bind_ok _ _ _ _ _ E2).
  (* a hundred rows of each reference entity *)
  run_loop 100%nat
    (fun i => in_session w2 (fun t => if Table_eqb t TVendas then O else i)).
  { intros i w0 _ H.
    destruct (reference_turn w2 _ w0 H) as (w' & E & H').
    exists w'. split; [exact E|]. eapply in_session_ext; [|exact H']. same_rows. }
  { eapply in_session_ext; [|exact H2]. same_rows. }
  destruct Loop as (w3 & E3 & H3).
  rewrite (bind_ok _ _ _ _ _ E3).
  (* five hundred sales *)
  run_loop 500%nat
    (fun i => in_session w2 (fun t => if Table_eqb t TVendas then i else 100%nat)).
  { intros i w0 _ H.
    destruct (venda_turn w2 _ w0 H ltac:(intros t Ht; destruct t; try congruence; cbn -[count]; lia)) as (w' & E & H').
    exists w'. split; [exact E|]. eapply in_session_ext; [|exact H']. same_rows. }
  { eapply in_session_ext; [|exact H3]. same_rows. }
  destruct Loop as (w4 & E4 & H4).
  rewrite (bind_ok _ _ _ _ _ E4).
  destruct (in_session_commit_close w2 _ w4 H4)
    as (w5 & evs & E5 & N5 & C5 & _ & _ & _ & L5 & Q5).
  exists w5, (evs1 ++ evs).
  split; [exact E5|].
  split.
  { intros t. rewrite N5, D2, C1. destruct t; reflexivity. }
  split; [exact C5|].
  split; [rewrite L5, L2, L1, <- !app_assoc; reflexivity|].
  apply Forall_app. auto.
Qed.

(** The body of [Dbcarga.py] on a store that has the six tables and a row
    of payment method, of delivery status and of cashier. *)
Lemma Dbcarga_seeding_run (w : World) :
  complete (database w) ->
  (0 < count TFormasPagamento (database w))%nat ->
  (0 < count TStatusEntrega (database w))%nat ->
  (0 < count TCaixas (database w))%nat ->
  exists w' evs,
    Dbcarga_seeding w = (Ok tt, w') /\
    (forall t, count t (database w') = (count t (database w) + Dbcarga_rows t)%nat) /\
    complete (database w') /\
    log w' = log w ++ evs ++ [EvCommit; EvClose] /\ Forall quiet_event evs.
Proof.
  intros Hc Hf Hs Hx. unfold Dbcarga_seeding.
  destruct (in_session_open w Hc) as (w2 & E2 & D2 & L2 & _ & _ & H2).
  rewrite (bind_ok _ _ _ _ _ E2). rewrite <- D2 in Hf, Hs, Hx.
  run_loop 400%nat
    (fun i => in_session w2 (fun t => if Table_eqb t TProdutos then i else O)).
  { intros i w0 _ H.
    destruct (produto_turn w2 _ w0 H) as (w' & E & H').
    exists w'. split; [exact E|]. eapply in_session_ext; [|exact H']. same_rows. }
  { eapply in_session_ext; [|exact H2]. same_rows. }
  destruct Loop as (w3 & E3 & H3).
  rewrite (bind_ok _ _ _ _ _ E3).
  run_loop 80%nat
    (fun i => in_session w2 (fun t => match t with TProdutos => 400%nat | TClientes => i | _ => O end)).
  { intros i w0 _ H.
    destruct (cliente_turn w2 _ w0 H) as (w' & E & H').
    exists w'. split; [exact E|]. eapply in_session_ext; [|exact H']. same_rows. }
  { eapply in_session_ext; [|exact H3]. same_rows. }
  destruct Loop as (w4 & E4 & H4).
  rewrite (bind_ok _ _ _ _ _ E4).
  run_loop 200%nat
    (fun i => in_session w2 (fun t => match t with
                        | TProdutos => 400%nat | TClientes => 80%nat
                        | TVendas => i | _ => O end)).
  { intros i w0 _ H.
    destruct (venda_turn w2 _ w0 H ltac:(intros t Ht; destruct t; try congruence; cbn -[count]; lia)) as (w' & E & H').
    exists w'. split; [exact E|]. eapply in_session_ext; [|exact H']. same_rows. }
  { eapply in_session_ext; [|exact H4]. same_rows. }
  destruct Loop as (w5 & E5 & H5).
  rewrite (bind_ok _ _ _ _ _ E5).
  destruct (in_session_commit_close w2 _ w5 H5)
    as (w6 & evs & E6 & N6 & C6 & _ & _ & _ & L6 & Q6).
  exists w6, evs.
  split; [exact E6|].
  split.
  { intros t. rewrite N6, D2. destruct t; reflexivity. }
  split; [exact C6|].
  split; [rewrite L6, L2; reflexivity | exact Q6].
Qed.

End SeedingRuns.

Module SeedingClaims.
Import SeedingRuns.

Lemma commits_app (l1 l2 : list Event) : commits (l1 ++ l2) = (commits l1 + commits l2)%nat.
Proof. unfold commits. now rewrite filter_app, length_app. Qed.

Lemma commits_quiet (evs : list Event) : Forall quiet_event evs -> commits evs = O.
Proof.
  unfold commits. induction 1 as [|e evs He _ IH]; [reflexivity|].
  destruct e; cbn in *; trivial; contradiction.
Qed.

(** [Dbcarga.py] run as a script: the import of line 9 runs the body of
    [models.py], and then come the loops of [Dbcarga.py] itself. *)
Lemma Dbcarga_main_run (w : World) :
  exists w' evs1 evs2,
    Dbcarga_main w = (Ok tt, w') /\
    (forall t, count t (database w')
               = (count t (database w) + models_rows t + Dbcarga_rows t)%nat) /\
    log w' = log w ++ evs1 ++ [EvCommit; EvClose] ++ evs2 ++ [EvCommit; EvClose] /\
    Forall quiet_event evs1 /\ Forall quiet_event evs2.
Proof.
  destruct (models_main_run w) as (w1 & evs1 & E1 & N1 & C1 & L1 & Q1).
  destruct (Dbcarga_seeding_run w1 C1) as (w' & evs2 & E & N & _ & L & Q).
  - rewrite N1. cbn. lia.
  - rewrite N1. cbn. lia.
  - rewrite N1. cbn. lia.
  - exists w', evs1, evs2.
    split; [unfold Dbcarga_main; now rewrite (bind_ok _ _ _ _ _ E1)|].
    split; [intros t; now rewrite N, N1|].
    split; [|auto]. rewrite L, L1, <- !app_assoc. reflexivity.
Qed.

(** C8.  The body of [models.py] never raises: it leaves the six tables in
    the store, with 100 more rows in each reference table and 500 more in
    [vendas] than were committed before, in one commit, sent after
    everything else and followed by the close.  The loops of [Dbcarga.py],
    on a store that has the six tables and at least one payment method, one
    delivery status and one cashier, add 400 products, 80 customers and 200
    sales, the other tables unchanged, in one commit followed by the close.
    But [Dbcarga.py] run as a script does not add those counts in a single
    commit: its import runs the body of [models.py] first, so that,
    whatever the store, it adds 500 products, 180 customers, 700 sales and
    100 rows to each of the three other tables, and commits and closes
    twice; so it does on a file without tables. *)
Theorem seeding_row_counts :
  (forall w : World,
      exists w' evs,
        models_main w = (Ok tt, w') /\
        complete (database w') /\
        (forall t, count t (database w') = (count t (database w) + models_rows t)%nat) /\
        log w' = log w ++ evs ++ [EvCommit; EvClose] /\ Forall quiet_event evs)
  /\
  (forall w : World,
      complete (database w) ->
      (0 < count TFormasPagamento (database w))%nat ->
      (0 < count TStatusEntrega (database w))%nat ->
      (0 < count TCaixas (database w))%nat ->
      exists w' evs,
        Dbcarga_seeding w = (Ok tt, w') /\
        (forall t, count t (database w') = (count t (database w) + Dbcarga_rows t)%nat) /\
        log w' = log w ++ evs ++ [EvCommit; EvClose] /\ Forall quiet_event evs)
  /\
  (forall w : World,
      exists w' evs1 evs2,
        Dbcarga_main w = (Ok tt, w') /\
        (forall t, count t (database w')
                   = (count t (database w) + models_rows t + Dbcarga_rows t)%nat) /\
        log w' = log w ++ evs1 ++ [EvCommit; EvClose] ++ evs2 ++ [EvCommit; EvClose] /\
        Forall quiet_event evs1 /\ Forall quiet_event evs2)
  /\
  (exists w' : World,
      Dbcarga_main (sample_world [] [] empty_file) = (Ok tt, w') /\
      count TProdutos (database w') = 500%nat /\
      count TClientes (database w') = 180%nat /\
      count TVendas (database w') = 700%nat /\
      count TCaixas (database w') = 100%nat /\
      count TFormasPagamento (database w') = 100%nat /\
      count TStatusEntrega (database w') = 100%nat /\
      commits (log w') = 2%nat).
Proof.
  split; [|split; [|split]].
  - intros w. destruct (models_main_run w) as (w' & evs & E & N & C & L & Q).
    exists w', evs. auto.
  - intros w Hc Hf Hs Hx.
    destruct (Dbcarga_seeding_run w Hc Hf Hs Hx) as (w' & evs & E & N & _ & L & Q).
    exists w', evs. auto.
  - exact Dbcarga_main_run.
  - destruct (Dbcarga_main_run (sample_world [] [] empty_file))
      as (w' & evs1 & evs2 & E & N & L & Q1 & Q2).
    exists w'. split; [exact E|].
    rewrite !N, L. cbn [log sample_world]. rewrite app_nil_l.
    rewrite !commits_app, (commits_quiet _ Q1), (commits_quiet _ Q2).
    repeat (split; [reflexivity|]). reflexivity.
Qed.

Lemma seeding_row_counts_witness :
  complete sample_store /\
  exists w' evs,
    Dbcarga_seeding (sample_world [] [] sample_store) = (Ok tt, w') /\
    count TProdutos (database w') = 401%nat /\
    count TClientes (database w') = 81%nat /\
    count TVendas (database w') = 200%nat /\
    count TCaixas (database w') = 1%nat /\
    count TFormasPagamento (database w') = 1%nat /\
    count TStatusEntrega (database w') = 1%nat /\
    log w' = evs ++ [EvCommit; EvClose] /\ Forall quiet_event evs.
Proof.
  assert (Hc : complete sample_store) by (intros t; destruct t; reflexivity).
  split; [exact Hc|].
  destruct (proj1 (proj2 seeding_row_counts) (sample_world [] [] sample_store) Hc)
    as (w' & evs & E & N & L & Q); [cbn; lia ..|].
  exists w', evs. split; [exact E|].
  rewrite !N. repeat split; try reflexivity; assumption.
Defined.

End SeedingClaims.

(* ================================================================== *)
(** * Further properties of the reference-entity generators *)
(* ================================================================== *)

Module GeneratorExtras.
Import Binary64 Binary64Facts RandomFacts ChoicesFacts FakeFacts GeneratorFacts.

(** X1.  [gerar_cliente] always returns a customer that is not persisted: it
    has no primary key and the store, the session and the log are as they
    were; the segment is one of the three of the source and the purchase
    channel one of the two. *)
Theorem gerar_cliente_fields (w : World) :
  exists c w',
    gerar_cliente w = (Ok c, w') /\
    Cliente.id_cliente c = None /\
    In (Cliente.segmento c) ["Residencial"; "Comercial"; "Industrial"]%string /\
    In (Cliente.canal_compra c) ["Loja Física"; "Online"]%string /\
    untouched w w'.
Proof.
  assert (H : draws (today w) gerar_cliente
                (fun c => Cliente.id_cliente c = None /\
                          In (Cliente.segmento c)
                             ["Residencial"; "Comercial"; "Industrial"]%string /\
                          In (Cliente.canal_compra c) ["Loja Física"; "Online"]%string)).
  { unfold gerar_cliente.
    do 5 (step; [apply text_draws|]).
    step as segmento Hs; [apply choice_draws; discriminate|].
    step as canal Hc; [apply choice_draws; discriminate|].
    apply draws_ret. cbn [Cliente.id_cliente Cliente.segmento Cliente.canal_compra]. auto. }
  destruct (H w eq_refl) as (c & w' & E & (A & B & C) & U).
  exists c, w'. auto.
Qed.

(** X2.  [gerar_caixa] always returns a cashier that is not persisted; the role
    is "Caixa" or "Gerente" and the hire date lies between five years
    before today (as Faker resolves ["-5y"]) and today. *)
Theorem gerar_caixa_fields (w : World) :
  exists x w',
    gerar_caixa w = (Ok x, w') /\
    Caixa.id_caixa x = None /\
    In (Caixa.funcao x) ["Caixa"; "Gerente"]%string /\
    fake.parse_date (today w) (fake.YearsAgo 5) <= Caixa.data_admissao x <= today w /\
    untouched w w'.
Proof.
  assert (H : draws (today w) gerar_caixa
                (fun x => Caixa.id_caixa x = None /\
                          In (Caixa.funcao x) ["Caixa"; "Gerente"]%string /\
                          fake.parse_date (today w) (fake.YearsAgo 5)
                          <= Caixa.data_admissao x <= today w)).
  { unfold gerar_caixa.
    step; [apply text_draws|].
    step as funcao Hf; [apply choice_draws; discriminate|].
    step as d Hd; [apply date_between_draws; cbn; lia|].
    apply draws_ret. cbn [Caixa.id_caixa Caixa.funcao Caixa.data_admissao].
    change (fake.parse_date (today w) fake.Today) with (today w) in Hd. auto. }
  destruct (H w eq_refl) as (x & w' & E & (A & B & C) & U).
  exists x, w'. auto.
Qed.

(** X3.  [gerar_produto] always returns a product that is not persisted; the
    category is one of the eight keys of [categorias_produtos] and the unit
    of measure one of the five of the source. *)
Theorem gerar_produto_labels (w : World) :
  exists p w',
    gerar_produto w = (Ok p, w') /\
    Produto.id_produto p = None /\
    In (Produto.categoria p)
       ["Cimento e Argamassa"; "Tijolos e Blocos"; "Telhas e Coberturas"; "Madeiras";
        "Hidráulica"; "Elétrica"; "Ferramentas"; "Tintas"]%string /\
    In (Produto.unidade_medida p) ["UN"; "KG"; "M"; "M2"; "M3"]%string /\
    untouched w w'.
Proof.
  assert (H : draws (today w) gerar_produto
                (fun p => Produto.id_produto p = None /\
                          In (Produto.categoria p) (keys categorias_produtos) /\
                          In (Produto.unidade_medida p)
                             ["UN"; "KG"; "M"; "M2"; "M3"]%string)).
  { unfold gerar_produto.
    step as categoria Hin.
    { step as l Hl;
        [apply choices_draws; [discriminate | reflexivity | vm_compute; reflexivity]|].
      apply (item0_draws (today w) l (fun x => In x (keys categorias_produtos))).
      assumption. }
    step as descricao Hd; [apply text_draws|].
    eapply draws_bind with (P := fun _ : Q => True).
    { step as u Hu; [apply (uniform_draws (today w) 10 500); unfold Qle; cbn; lia|].
      now apply draws_ret. }
    intros preco _.
    step as peso Hpeso.
    { apply (uniform_draws (today w) (literal (8 # 10)) (literal (12 # 10))).
      apply Qle_bool_iff. vm_compute. reflexivity. }
    step as unidade Hun; [apply choice_draws; discriminate|].
    apply draws_ret.
    cbn [Produto.id_produto Produto.categoria Produto.unidade_medida]. auto. }
  destruct (H w eq_refl) as (p & w' & E & (A & B & C) & U).
  exists p, w'. auto.
Qed.

(** X4.  [gerar_status_entrega] on an empty list raises the [IndexError] of
    [random.choice] and draws nothing; on any other list it returns a
    status, not persisted, whose description is an element of the list. *)
Theorem gerar_status_entrega_cases (lista_status : list string) (w : World) :
  (lista_status = [] -> gerar_status_entrega lista_status w = (Raise IndexError, w)) /\
  (lista_status <> [] ->
   exists s w',
     gerar_status_entrega lista_status w = (Ok s, w') /\
     StatusEntrega.id_status_entrega s = None /\
     In (StatusEntrega.descricao s) lista_status /\
     untouched w w').
Proof.
  split.
  - intros ->. reflexivity.
  - intros Hne.
    assert (H : draws (today w) (gerar_status_entrega lista_status)
                  (fun s => StatusEntrega.id_status_entrega s = None /\
                            In (StatusEntrega.descricao s) lista_status)).
    { unfold gerar_status_entrega.
      step as d Hd; [apply choice_draws, Hne|].
      apply draws_ret. cbn. auto. }
    destruct (H w eq_refl) as (s & w' & E & (A & B) & U).
    exists s, w'. auto.
Qed.

Lemma gerar_status_entrega_cases_witness :
  exists s w',
    gerar_status_entrega lista_status_entrega (sample_world [5]%N [] empty_file) = (Ok s, w') /\
    In (StatusEntrega.descricao s) ["Em processamento"; "Enviado"; "Entregue"]%string.
Proof.
  destruct (proj2 (gerar_status_entrega_cases lista_status_entrega
                     (sample_world [5]%N [] empty_file)) ltac:(discriminate))
    as (s & w' & E & _ & Hin & _).
  exists s, w'. split; [exact E | exact Hin].
Defined.

End GeneratorExtras.

(* ================================================================== *)
(** * The weighted choice *)
(* ================================================================== *)

Module WeightedChoice.
Import Binary64 Binary64Facts RandomFacts ChoicesFacts GeneratorFacts VendaFacts.

Lemma flt_true (x y : Q) : flt x y = true <-> (x < y)%Q.
Proof.
  unfold flt. rewrite negb_true_iff. split.
  - intros H. apply Qnot_le_lt. intros L. apply Qle_bool_iff in L. congruence.
  - intros H. destruct (Qle_bool y x) eqn:E; [|reflexivity].
    apply Qle_bool_iff in E. exfalso. eapply Qlt_not_le; eassumption.
Qed.

Lemma flt_false (x y : Q) : flt x y = false <-> (y <= x)%Q.
Proof.
  unfold flt. rewrite negb_false_iff. apply Qle_bool_iff.
Qed.

Lemma ascendingb_ascending (a : list Q) : ascendingb a = true -> ascending a.
Proof.
  induction a as [|x a IH]; intros H i j Hij; [cbn in Hij; lia|].
  destruct a as [|y a].
  - cbn in Hij. replace i with O by lia. replace j with O by lia. apply Qle_refl.
  - cbn [ascendingb] in H. apply andb_true_iff in H. destruct H as [Hxy Ha].
    apply Qle_bool_iff in Hxy. specialize (IH Ha).
    destruct j as [|j]; [replace i with O by lia; apply Qle_refl|].
    destruct i as [|i].
    + apply Qle_trans with y; [exact Hxy|].
      apply (IH O j). cbn [List.length] in *. lia.
    + apply (IH i j). cbn [List.length] in *. lia.
Qed.

(** The binary search of [bisect_right] on an ascending list: everything
    left of the index it returns is at most [x], and everything from the
    index on, up to [hi], is greater. *)
Lemma bisect_loop_spec (a : list Q) (x : Q) (turns lo hi : nat) :
  ascending a -> (hi - lo <= turns)%nat -> (lo <= hi <= List.length a)%nat ->
  (lo <= random.bisect_loop turns a x lo hi <= hi)%nat /\
  (forall j, (lo <= j < random.bisect_loop turns a x lo hi)%nat -> (nth j a 0 <= x)%Q) /\
  (forall j, (random.bisect_loop turns a x lo hi <= j < hi)%nat -> (x < nth j a 0)%Q).
Proof.
  intros Ha. revert lo hi.
  induction turns as [|turns IH]; intros lo hi Ht Hb; cbn [random.bisect_loop].
  - split; [lia|]. split; intros j Hj; lia.
  - destruct (Nat.ltb_spec lo hi) as [Hlt|Hge].
    2:{ split; [lia|]. split; intros j Hj; lia. }
    pose proof (Nat.div_mod_eq (lo + hi) 2) as Hdiv.
    pose proof (Nat.mod_upper_bound (lo + hi) 2 ltac:(lia)) as Hmod.
    set (mid := ((lo + hi) / 2)%nat) in *.
    destruct (flt x (nth mid a 0%Q)) eqn:C.
    + apply flt_true in C.
      destruct (IH lo mid ltac:(lia) ltac:(lia)) as (B & L & R).
      split; [lia|]. split; [exact L|].
      intros j Hj. destruct (Nat.lt_ge_cases j mid) as [Hjm|Hjm].
      * apply R. lia.
      * eapply Qlt_le_trans; [exact C|]. apply Ha. lia.
    + apply flt_false in C.
      destruct (IH (S mid) hi ltac:(lia) ltac:(lia)) as (B & L & R).
      split; [lia|]. split; [|exact R].
      intros j Hj. destruct (Nat.le_gt_cases j mid) as [Hjm|Hjm].
      * eapply Qle_trans; [|exact C]. apply Ha. lia.
      * apply L. lia.
Qed.

(** [random.choices], run: one call of [random()], scaled by the total
    weight and searched in the cumulative weights. *)
Lemma choices_run (population : list string) (weights : list Q) (w : World) :
  List.length (random.accumulate weights) = List.length population ->
  Qle_bool (fadd (last (random.accumulate weights) 0%Q) 0) 0 = false ->
  random.choices population weights w
  = (Ok [nth (random.bisect (random.accumulate weights)
                (fmul (next_random w) (fadd (last (random.accumulate weights) 0%Q) 0))
                0 (List.length population - 1)) population ""%string],
     advance_random w).
Proof.
  intros Hlen Htot. unfold random.choices.
  rewrite Hlen, Nat.eqb_refl. cbn [negb]. rewrite Htot.
  unfold next_random. rewrite draw_at_0. reflexivity.
Qed.

(** Where [x] falls in ascending cumulative weights decides the label. *)
Lemma choices_index (population : list string) (weights : list Q) (w : World) :
  population <> [] ->
  List.length (random.accumulate weights) = List.length population ->
  Qle_bool (fadd (last (random.accumulate weights) 0%Q) 0) 0 = false ->
  ascending (random.accumulate weights) ->
  exists i,
    random.choices population weights w = (Ok [nth i population ""%string], advance_random w) /\
    (i < List.length population)%nat /\
    (forall j, (j < i)%nat ->
               (nth j (random.accumulate weights) 0
                <= fmul (next_random w) (fadd (last (random.accumulate weights) 0%Q) 0))%Q) /\
    (forall j, (i <= j < List.length population - 1)%nat ->
               (fmul (next_random w) (fadd (last (random.accumulate weights) 0%Q) 0)
                < nth j (random.accumulate weights) 0)%Q).
Proof.
  intros Hne Hlen Htot Hasc.
  eexists. split; [apply choices_run; assumption|].
  assert (Hn : (0 < List.length population)%nat) by (destruct population; [congruence | cbn; lia]).
  destruct (bisect_loop_spec (random.accumulate weights)
              (fmul (next_random w) (fadd (last (random.accumulate weights) 0%Q) 0))
              (List.length population - 1 - 0) 0 (List.length population - 1) Hasc
              ltac:(lia) ltac:(lia)) as (B & L & R).
  unfold random.bisect. split; [lia|]. split.
  - intros j Hj. apply L. lia.
  - exact R.
Qed.

(** Once the description is chosen, [gerar_forma_pagamento] returns a
    payment method carrying it. *)
Lemma gerar_forma_pagamento_descricao (w w1 : World) (d : string) :
  (l <- random.choices (keys formas_pagamento_pesos) (values formas_pagamento_pesos) ;;
   item0 l) w = (Ok d, w1) ->
  exists f w', gerar_forma_pagamento w = (Ok f, w') /\ FormaPagamento.descricao f = d.
Proof.
  intros E. unfold gerar_forma_pagamento. rewrite (bind_ok _ _ _ _ _ E).
  destruct (gerar_forma_pagamento_draws (today w) w eq_refl) as (f & w' & E' & _).
  unfold gerar_forma_pagamento in E'. rewrite (bind_ok _ _ _ _ _ E) in E'.
  exists f, w'. split; [exact E'|].
  apply bind_inv_ok in E'. destruct E' as (prazo & w2 & _ & E').
  apply bind_inv_ok in E'. destruct E' as (desconto & w3 & _ & E').
  inversion E'. reflexivity.
Qed.

(** X5.  The payment method follows the weights of [formas_pagamento]: with [x]
    the next value of [random()] times the float total of the weights,
    "Dinheiro" is returned for [x] below 0.1, "Cartão de Crédito" from
    there to 0.1 + 0.6, "Cartão de Débito" from there to 0.1 + 0.6 + 0.2,
    and "Boleto" above (sums in floats, in the order of the dict). *)
Theorem gerar_forma_pagamento_weights (w : World) :
  let c0 := literal (1 # 10) in
  let c1 := fadd c0 (literal (6 # 10)) in
  let c2 := fadd c1 (literal (2 # 10)) in
  let total := fadd (fadd c2 (literal (1 # 10))) 0 in
  let x := fmul (next_random w) total in
  exists f w',
    gerar_forma_pagamento w = (Ok f, w') /\
    ((x < c0)%Q -> FormaPagamento.descricao f = "Dinheiro"%string) /\
    ((c0 <= x)%Q -> (x < c1)%Q -> FormaPagamento.descricao f = "Cartão de Crédito"%string) /\
    ((c1 <= x)%Q -> (x < c2)%Q -> FormaPagamento.descricao f = "Cartão de Débito"%string) /\
    ((c2 <= x)%Q -> FormaPagamento.descricao f = "Boleto"%string).
Proof.
  intros c0 c1 c2 total x.
  destruct (choices_index (keys formas_pagamento_pesos) (values formas_pagamento_pesos) w)
    as (i & E & Hi & L & R);
    [discriminate | reflexivity | vm_compute; reflexivity
    | apply ascendingb_ascending; vm_compute; reflexivity |].
  change (fmul (next_random w)
            (fadd (last (random.accumulate (values formas_pagamento_pesos)) 0%Q) 0))
    with x in L, R.
  change (random.accumulate (values formas_pagamento_pesos))
    with [c0; c1; c2; fadd c2 (literal (1 # 10))] in L, R.
  destruct (gerar_forma_pagamento_descricao w (advance_random w)
              (nth i (keys formas_pagamento_pesos) ""%string)) as (f & w' & Ef & D).
  { rewrite (bind_ok _ _ _ _ _ E). reflexivity. }
  exists f, w'. split; [exact Ef|]. rewrite D.
  change (List.length (keys formas_pagamento_pesos)) with 4%nat in Hi, R.
  assert (L0 : (1 <= i)%nat -> (c0 <= x)%Q) by (intros H; apply (L 0%nat); lia).
  assert (L1 : (2 <= i)%nat -> (c1 <= x)%Q) by (intros H; apply (L 1%nat); lia).
  assert (L2 : (3 <= i)%nat -> (c2 <= x)%Q) by (intros H; apply (L 2%nat); lia).
  assert (R0 : (i <= 0)%nat -> (x < c0)%Q) by (intros H; apply (R 0%nat); lia).
  assert (R1 : (i <= 1)%nat -> (x < c1)%Q) by (intros H; apply (R 1%nat); lia).
  assert (R2 : (i <= 2)%nat -> (x < c2)%Q) by (intros H; apply (R 2%nat); lia).
  clear L R E Ef D.
  destruct i as [|[|[|[|i]]]]; [ | | | | lia ];
    cbn [nth keys map fst formas_pagamento_pesos];
    repeat split; intros; trivial; exfalso;
      repeat match goal with
             | H : (_ <= _)%nat -> _ |- _ =>
                 first [ specialize (H ltac:(lia)) | clear H ]
             end; lra.
Qed.

Lemma gerar_forma_pagamento_weights_witness :
  exists f w',
    gerar_forma_pagamento (sample_world [] [] empty_file) = (Ok f, w') /\
    FormaPagamento.descricao f = "Dinheiro"%string.
Proof.
  pose proof (gerar_forma_pagamento_weights (sample_world [] [] empty_file)) as H.
  cbv zeta in H. destruct H as (f & w' & E & H0 & _).
  exists f, w'. split; [exact E|]. apply H0. vm_compute. reflexivity.
Defined.

(** X6.  The category of a product follows the weights of
    [categorias_produtos] in the same way: it is the [i]-th key, where [i]
    is the first position whose cumulative weight exceeds [x] (the last
    position when none does). *)
Theorem gerar_produto_weights (w : World) :
  let cum := random.accumulate (values categorias_produtos) in
  let x := fmul (next_random w) (fadd (last cum 0%Q) 0) in
  exists p w' i,
    gerar_produto w = (Ok p, w') /\
    Produto.categoria p = nth i (keys categorias_produtos) ""%string /\
    (i < 8)%nat /\
    (forall j, (j < i)%nat -> (nth j cum 0 <= x)%Q) /\
    (forall j, (i <= j < 7)%nat -> (x < nth j cum 0)%Q).
Proof.
  intros cum x.
  destruct (choices_index (keys categorias_produtos) (values categorias_produtos) w)
    as (i & E & Hi & L & R);
    [discriminate | reflexivity | vm_compute; reflexivity
    | apply ascendingb_ascending; vm_compute; reflexivity |].
  destruct (gerar_produto_draws (today w) w eq_refl) as (p & w' & E' & _).
  exists p, w', i. split; [exact E'|].
  split; [|split; [exact Hi|split; [exact L | exact R]]].
  unfold gerar_produto in E'.
  assert (E1 : (l <- random.choices (keys categorias_produtos) (values categorias_produtos) ;;
                item0 l) w
               = (Ok (nth i (keys categorias_produtos) ""%string), advance_random w)).
  { rewrite (bind_ok _ _ _ _ _ E). reflexivity. }
  rewrite (bind_ok _ _ _ _ _ E1) in E'.
  apply bind_inv_ok in E'. destruct E' as (descricao & w2 & _ & E').
  apply bind_inv_ok in E'. destruct E' as (preco & w3 & _ & E').
  apply bind_inv_ok in E'. destruct E' as (peso & w4 & _ & E').
  apply bind_inv_ok in E'. destruct E' as (unidade & w5 & _ & E').
  inversion E'. reflexivity.
Qed.

Lemma gerar_produto_weights_witness :
  exists p w',
    gerar_produto (sample_world [] [] empty_file) = (Ok p, w') /\
    Produto.categoria p = "Cimento e Argamassa"%string.
Proof.
  pose proof (gerar_produto_weights (sample_world [] [] empty_file)) as H.
  cbv zeta in H. destruct H as (p & w' & i & E & C & _ & L & _).
  exists p, w'. split; [exact E|]. rewrite C.
  destruct i as [|i]; [reflexivity|]. exfalso.
  specialize (L O (Nat.lt_0_succ i)). vm_compute in L. apply L. reflexivity.
Defined.

End WeightedChoice.

(* ================================================================== *)
(** * Further properties of the sale generator *)
(* ================================================================== *)

Module VendaExtras.
Import Binary64 Binary64Facts SessionFacts VendaFacts VendaClaims.

(** X7.  What [gerar_venda] does to the session when it returns: the pending
    objects are flushed into the open transaction (autoflush of the first
    query), nothing is committed, and the sale itself is neither added nor
    stored: it has no primary key and the session sees the same tables as
    before. *)
Theorem gerar_venda_side_effects (w : World) (v : Venda.t) (w' : World) :
  gerar_venda w = (Ok v, w') ->
  Venda.id_venda v = None /\
  database w' = database w /\
  pending (session w') = [] /\
  transaction (session w') = Some (view w) /\
  view w' = view w /\
  today w' = today w.
Proof.
  intros E. apply gerar_venda_sold in E.
  destruct E as (rc & rp & rf & rs & rx & c & p & f & s & x & _ & _ & _ & _ & _ & _ &
                 _ & _ & _ & _ & _ & Iv & _ & _ & _ & _ & _ & _ & _ & _ & _ &
                 T & P & D & Y & _ & _).
  repeat split; try assumption. apply view_flushed; assumption.
Qed.

Lemma gerar_venda_side_effects_witness :
  exists v w',
    gerar_venda (sample_world [] [] sample_store) = (Ok v, w') /\
    Venda.id_venda v = None /\
    database w' = sample_store /\
    pending (session w') = [] /\
    transaction (session w') = Some sample_store.
Proof.
  destruct (gerar_venda_total (sample_world [] [] sample_store)) as (v & w' & E).
  { split; [constructor | cbn; repeat split; lia]. }
  destruct (gerar_venda_side_effects _ _ _ E) as (A & B & C & D & _).
  exists v, w'. auto.
Defined.

Lemma pick_single {A} (c x : A) (d : N) : pick [c] d = Some x -> x = c.
Proof. intros H. apply pick_In in H. destruct H as [H|[]]. now symmetry. Qed.

(** X8.  With exactly one row in each reference table, whatever is drawn, the
    sale references those five rows; it has a delivery date, within the
    last 30 days, exactly when the only status is "Entregue". *)
Theorem gerar_venda_single_rows (w : World)
        (c : Cliente.t) (p : Produto.t) (f : FormaPagamento.t)
        (s : StatusEntrega.t) (x : Caixa.t) :
  flush_ok w ->
  clientes (view w) = Some [c] -> produtos (view w) = Some [p] ->
  formas_pagamento (view w) = Some [f] -> status_entrega (view w) = Some [s] ->
  caixas (view w) = Some [x] ->
  exists v w',
    gerar_venda w = (Ok v, w') /\
    Venda.id_cliente v = Cliente.id_cliente c /\
    Venda.id_produto v = Produto.id_produto p /\
    Venda.id_forma_pagamento v = FormaPagamento.id_forma_pagamento f /\
    Venda.id_status_entrega v = StatusEntrega.id_status_entrega s /\
    Venda.id_caixa v = Caixa.id_caixa x /\
    (exists k, 1 <= k <= 10 /\
               Venda.valor_venda v = fmul (Produto.preco_unitario p) (inject_Z k)) /\
    (StatusEntrega.descricao s = "Entregue"%string ->
     exists d, Venda.data_entrega v = Some d /\ today w - 30 <= d <= today w) /\
    (StatusEntrega.descricao s <> "Entregue"%string -> Venda.data_entrega v = None).
Proof.
  intros F Rc Rp Rf Rs Rx.
  destruct (gerar_venda_total w) as (v & w' & E).
  { split; [exact F|]. rewrite Rc, Rp, Rf, Rs, Rx. cbn. repeat split; lia. }
  exists v, w'. split; [exact E|].
  apply gerar_venda_sold in E.
  destruct E as (rc & rp & rf & rs & rx & c' & p' & f' & s' & x' & _ &
                 Rc' & Rp' & Rf' & Rs' & Rx' & Pc & Pp & Pf & Ps & Px & _ &
                 Ic & Ip & If_ & Is & Ix & Va & _ & _ & De & _).
  rewrite Rc in Rc'. rewrite Rp in Rp'. rewrite Rf in Rf'. rewrite Rs in Rs'.
  rewrite Rx in Rx'.
  inversion Rc'; inversion Rp'; inversion Rf'; inversion Rs'; inversion Rx'; subst.
  apply pick_single in Pc, Pp, Pf, Ps, Px. subst.
  do 5 (split; [assumption|]).
  split.
  { exists (1 + Z.of_N (draw_at w 5) mod 10). split; [|exact Va].
    pose proof (Z.mod_pos_bound (Z.of_N (draw_at w 5)) 10 eq_refl). lia. }
  destruct (String.eqb_spec (StatusEntrega.descricao s) "Entregue") as [Y|N].
  - split; [intros _; exact De | congruence].
  - split; [congruence | intros _; exact De].
Qed.

Lemma gerar_venda_single_rows_witness :
  exists v w',
    gerar_venda (sample_world [11; 12; 13; 14; 15; 16; 17]%N [] sample_store) = (Ok v, w') /\
    Venda.id_cliente v = Some 1 /\ Venda.id_produto v = Some 1 /\
    Venda.id_forma_pagamento v = Some 1 /\ Venda.id_status_entrega v = Some 1 /\
    Venda.id_caixa v = Some 1 /\
    exists d, Venda.data_entrega v = Some d /\ 20000 - 30 <= d <= 20000.
Proof.
  destruct (gerar_venda_single_rows
              (sample_world [11; 12; 13; 14; 15; 16; 17]%N [] sample_store)
              _ _ _ _ _ ltac:(constructor) eq_refl eq_refl eq_refl eq_refl eq_refl)
    as (v & w' & E & A & B & C & D & G & _ & De & _).
  exists v, w'. repeat (split; [assumption|]). apply De. reflexivity.
Defined.

(** X9.  The amount of a sale lies between the float products of the drawn
    product's unit price by 1 and by 10, when that price is not negative. *)
Theorem gerar_venda_amount_bounds (w : World) (v : Venda.t) (w' : World) :
  gerar_venda w = (Ok v, w') ->
  exists rp p,
    produtos (view w) = Some rp /\ pick rp (draw_at w 1) = Some p /\
    ((0 <= Produto.preco_unitario p)%Q ->
     (fmul (Produto.preco_unitario p) 1 <= Venda.valor_venda v)%Q /\
     (Venda.valor_venda v <= fmul (Produto.preco_unitario p) 10)%Q).
Proof.
  intros E. apply gerar_venda_sold in E.
  destruct E as (rc & rp & rf & rs & rx & c & p & f & s & x & _ & _ & Rp & _ & _ & _ &
                 _ & Pp & _ & _ & _ & _ & _ & _ & _ & _ & _ & Va & _).
  exists rp, p. split; [exact Rp|]. split; [exact Pp|].
  intros H0. rewrite Va. unfold fmul.
  pose proof (Z.mod_pos_bound (Z.of_N (draw_at w 5)) 10 eq_refl) as Hk.
  set (k := 1 + Z.of_N (draw_at w 5) mod 10) in *.
  assert (K1 : (1 <= inject_Z k)%Q).
  { change 1%Q with (inject_Z 1). rewrite <- Zle_Qle. lia. }
  assert (K10 : (inject_Z k <= 10)%Q).
  { change 10%Q with (inject_Z 10). rewrite <- Zle_Qle. lia. }
  split; apply fl_mono; nra.
Qed.

Lemma gerar_venda_amount_bounds_witness :
  exists v w',
    gerar_venda (sample_world [0; 0; 0; 0; 0; 2; 6]%N [] sample_store) = (Ok v, w') /\
    (10 <= Venda.valor_venda v)%Q /\ (Venda.valor_venda v <= 100)%Q.
Proof.
  destruct (gerar_venda_total (sample_world [0; 0; 0; 0; 0; 2; 6]%N [] sample_store))
    as (v & w' & E).
  { split; [constructor | cbn; repeat split; lia]. }
  destruct (gerar_venda_amount_bounds _ _ _ E) as (rp & p & Rp & Pp & H).
  exists v, w'. split; [exact E|].
  cbn in Rp. inversion Rp; subst rp. apply pick_single in Pp. subst p.
  destruct (H ltac:(cbn; unfold Qle; cbn; lia)) as [L U].
  cbn [Produto.preco_unitario] in L, U.
  replace (fmul 10 1) with 10%Q in L by (vm_compute; reflexivity).
  replace (fmul 10 10) with 100%Q in U by (vm_compute; reflexivity).
  split; assumption.
Defined.

(** X10.  The factor of the amount and the quantity are independent: from any
    ready session, and for any [k] and [q] of [1, 10], changing only the
    sixth and the seventh coming draws gives a sale of the same product
    whose amount is the unit price times [k] and whose quantity is [q]. *)
Theorem gerar_venda_factor_and_quantity (w : World) (k q : Z) :
  ready w -> 1 <= k <= 10 -> 1 <= q <= 10 ->
  exists v w' rp p,
    gerar_venda (set_draw 6 (Z.to_N (q - 1)) (set_draw 5 (Z.to_N (k - 1)) w)) = (Ok v, w') /\
    produtos (view w) = Some rp /\ pick rp (draw_at w 1) = Some p /\
    Venda.id_produto v = Produto.id_produto p /\
    Venda.valor_venda v = fmul (Produto.preco_unitario p) (inject_Z k) /\
    Venda.quantidade v = q.
Proof.
  intros R Hk Hq.
  set (w2 := set_draw 6 (Z.to_N (q - 1)) (set_draw 5 (Z.to_N (k - 1)) w)).
  destruct (gerar_venda_total w2) as (v & w' & E).
  { apply ready_set_draw, ready_set_draw, R. }
  exists v, w'.
  destruct (gerar_venda_sold _ _ _ E)
    as (rc & rp & rf & rs & rx & c & p & f & s & x & _ & _ & Rp & _ & _ & _ &
        _ & Pp & _ & _ & _ & _ & _ & Ip & _ & _ & _ & Va & Qu & _).
  exists rp, p.
  unfold w2 in Pp, Va, Qu. rewrite !draw_at_set_draw in Pp, Va, Qu. cbn [Nat.eqb] in Pp, Va, Qu.
  rewrite Z2N.id in Va, Qu by lia.
  rewrite Z.mod_small in Va, Qu by lia.
  replace (1 + (k - 1)) with k in Va by lia.
  replace (1 + (q - 1)) with q in Qu by lia.
  split; [exact E|]. split; [exact Rp|]. auto.
Qed.

Lemma gerar_venda_factor_and_quantity_witness :
  exists v w',
    gerar_venda (set_draw 6 6%N (set_draw 5 2%N (sample_world [] [] sample_store)))
    = (Ok v, w') /\
    Venda.valor_venda v = fmul 10 3 /\ Venda.quantidade v = 7.
Proof.
  destruct (gerar_venda_factor_and_quantity (sample_world [] [] sample_store) 3 7)
    as (v & w' & rp & p & E & Rp & Pp & _ & Va & Qu); [|lia|lia|].
  { split; [constructor | cbn; repeat split; lia]. }
  exists v, w'. split; [exact E|].
  cbn in Rp. inversion Rp; subst rp. apply pick_single in Pp. subst p.
  split; [exact Va | exact Qu].
Defined.

End VendaExtras.

(* ================================================================== *)
(** * Further properties of schema creation *)
(* ================================================================== *)

Module SchemaExtras.
Import SessionFacts SchemaFacts.

(** X11.  [create_all] always returns.  It first looks up the six tables,
    in the order their classes are declared ([clientes], [produtos],
    [caixas], [formas_pagamento], [status_entrega], [vendas]), and only then
    creates those that are missing, in the same order.  Afterwards the six
    tables exist, those that were there have the rows they had, no table
    has gained a row, and the session is untouched. *)
Theorem create_all_creates_missing (w : World) :
  exists w',
    create_all w = (Ok tt, w') /\
    log w' = log w
             ++ map EvHasTable
                    [TClientes; TProdutos; TCaixas; TFormasPagamento; TStatusEntrega; TVendas]
             ++ map EvCreateTable
                    (filter (fun t => negb (has_table t (database w)))
                            [TClientes; TProdutos; TCaixas; TFormasPagamento;
                             TStatusEntrega; TVendas]) /\
    (forall t, has_table t (database w') = true) /\
    kept (database w) (database w') /\
    (forall t, count t (database w') = count t (database w)) /\
    session w' = session w.
Proof.
  destruct (create_all_run w) as (w' & E & S & _ & K & C & Hc & L).
  exists w'. split; [exact E|]. split; [exact L|]. split; [exact Hc|].
  split; [exact K|]. split; [exact C | exact S].
Qed.

End SchemaExtras.

(* ================================================================== *)
(** * Invariants of the store under seeding *)
(* ================================================================== *)

Module StoreInvariants.
Import SessionFacts VendaFacts VendaClaims.

Lemma next_rowid_above (ks : list (option Z)) (i : Z) :
  In (Some i) ks -> i < next_rowid ks.
Proof.
  assert (G : forall l m, m <= fold_left Z.max l m /\
                          forall j, In j l -> j <= fold_left Z.max l m).
  { induction l as [|a l IH]; intros m; cbn; [split; [lia | contradiction]|].
    destruct (IH (Z.max m a)) as [A B]. split; [lia|].
    intros j [->|Hj]; [lia | now apply B]. }
  destruct ks as [|k ks]; [contradiction|]. cbn [next_rowid].
  destruct (G (map rowid_of ks) (rowid_of k)) as [A B].
  intros [->|Hi].
  - cbn [rowid_of] in *. lia.
  - specialize (B i (in_map rowid_of _ _ Hi)). cbn [rowid_of] in B. lia.
Qed.

(** Appending a row under the next rowid keeps the keys distinct. *)
Lemma keyed_append {A} (pk : A -> option Z) (l : list A) (x : A) :
  keyed pk (Some l) -> pk x = Some (next_rowid (map pk l)) -> keyed pk (Some (l ++ [x])).
Proof.
  intros [Hnd Hnone] Hx. unfold keyed in *. cbn [rows] in *.
  rewrite map_app. cbn [map]. split.
  - apply NoDup_app; [exact Hnd | repeat constructor; intros [] | ].
    intros k Hk [<-|[]]. rewrite Hx in Hk.
    apply next_rowid_above in Hk. lia.
  - rewrite in_app_iff. intros [H|[H|[]]]; [now apply Hnone | congruence].
Qed.

(** An insert keeps the primary keys of every table set and distinct. *)
Lemma keys_ok_stored (s : Store) (e : Entity) : keys_ok s -> keys_ok (stored s e).
Proof.
  intros K. pose proof K as (Kc & Kp & Kx & Kf & Ks & Kv). unfold stored.
  destruct e; cbn [insert_row];
    [destruct (clientes s) eqn:E | destruct (produtos s) eqn:E | destruct (caixas s) eqn:E
    | destruct (formas_pagamento s) eqn:E | destruct (status_entrega s) eqn:E
    | destruct (vendas s) eqn:E];
    try exact K;
    unfold keys_ok;
    cbn [clientes produtos caixas formas_pagamento status_entrega vendas
         set_clientes set_produtos set_caixas set_formas_pagamento set_status_entrega
         set_vendas];
    repeat match goal with
           | |- keyed _ (Some (_ ++ [_])) => apply keyed_append; [assumption | reflexivity]
           | |- keyed _ _ => assumption
           | |- _ /\ _ => split
           end.
Qed.

Lemma in_rows_stored_incl (s : Store) (e : Entity) :
  incl (rows (clientes s)) (rows (clientes (stored s e))) /\
  incl (rows (produtos s)) (rows (produtos (stored s e))) /\
  incl (rows (formas_pagamento s)) (rows (formas_pagamento (stored s e))) /\
  incl (rows (status_entrega s)) (rows (status_entrega (stored s e))) /\
  incl (rows (caixas s)) (rows (caixas (stored s e))).
Proof.
  unfold stored.
  destruct e; cbn [insert_row];
    [destruct (clientes s) eqn:E | destruct (produtos s) eqn:E | destruct (caixas s) eqn:E
    | destruct (formas_pagamento s) eqn:E | destruct (status_entrega s) eqn:E
    | destruct (vendas s) eqn:E];
    cbn [clientes produtos caixas formas_pagamento status_entrega vendas
         set_clientes set_produtos set_caixas set_formas_pagamento set_status_entrega
         set_vendas];
    rewrite ?E; cbn [rows];
    repeat split; try apply incl_refl; apply incl_appl, incl_refl.
Qed.

Lemma references_incl (v : Venda.t) (s s' : Store) :
  incl (rows (clientes s)) (rows (clientes s')) ->
  incl (rows (produtos s)) (rows (produtos s')) ->
  incl (rows (formas_pagamento s)) (rows (formas_pagamento s')) ->
  incl (rows (status_entrega s)) (rows (status_entrega s')) ->
  incl (rows (caixas s)) (rows (caixas s')) ->
  references v s -> references v s'.
Proof.
  intros Ic Ip If_ Is Ix (Rc & Rp & Rf & Rs & Rx).
  repeat split; (eapply incl_map; [|eassumption]); assumption.
Qed.

Lemma references_stored (v : Venda.t) (s : Store) (e : Entity) :
  references v s -> references v (stored s e).
Proof.
  destruct (in_rows_stored_incl s e) as (A & B & C & D & G).
  now apply references_incl.
Qed.

Lemma vendas_stored (s : Store) (e : Entity) (v : Venda.t) :
  In v (rows (vendas (stored s e))) ->
  In v (rows (vendas s)) \/ exists v0 i, e = EVenda v0 /\ v = Venda.with_id i v0.
Proof.
  unfold stored.
  destruct e; cbn [insert_row];
    [destruct (clientes s) eqn:E | destruct (produtos s) eqn:E | destruct (caixas s) eqn:E
    | destruct (formas_pagamento s) eqn:E | destruct (status_entrega s) eqn:E
    | destruct (vendas s) eqn:E];
    cbn [vendas set_clientes set_produtos set_caixas set_formas_pagamento
         set_status_entrega set_vendas];
    rewrite ?E; cbn [rows]; auto.
  rewrite in_app_iff. intros [H|[<-|[]]]; [now left | right; eauto].
Qed.

(** An insert keeps referential integrity, provided that an inserted sale
    references rows of the store. *)
Lemma integrity_stored (s : Store) (e : Entity) :
  integrity s -> (forall v, e = EVenda v -> references v s) -> integrity (stored s e).
Proof.
  intros Hi He v Hv. apply references_stored.
  destruct (vendas_stored s e v Hv) as [H | (v0 & i & -> & ->)].
  - now apply Hi.
  - exact (He v0 eq_refl).
Qed.

End StoreInvariants.

Module InvariantRuns.
Import SessionFacts VendaFacts VendaClaims SchemaFacts GeneratorFacts SeedingFacts
       SeedingRuns StoreInvariants.

Lemma untouched_view (w w' : World) : untouched w w' -> view w' = view w.
Proof.
  intros (D & S' & _). unfold view, base. now rewrite S', D.
Qed.

Lemma kept_same_rows (s s' : Store) :
  kept s s' -> (forall t, count t s' = count t s) -> same_rows s s'.
Proof.
  intros (Kc & Kp & Kx & Kf & Ks & Kv) C.
  pose proof (C TClientes) as Cc. pose proof (C TProdutos) as Cp.
  pose proof (C TCaixas) as Cx. pose proof (C TFormasPagamento) as Cf.
  pose proof (C TStatusEntrega) as Cs. pose proof (C TVendas) as Cv.
  cbn [count] in *.
  assert (G : forall A (r r' : option (list A)),
             (r <> None -> r' = r) -> size r' = size r -> rows r' = rows r).
  { intros A r r' K E. destruct r as [l|].
    - rewrite K; [reflexivity | discriminate].
    - destruct r' as [[|x l]|]; cbn in *; trivial; discriminate. }
  repeat split; apply G; assumption.
Qed.

Section Preserved.

(** A property of stores that depends on the rows only and that an insert
    keeps, provided that an inserted sale references rows of the store. *)
Variable S : Store -> Prop.
Hypothesis S_rows : forall s s', same_rows s s' -> S s -> S s'.
Hypothesis S_stored :
  forall s e, S s -> (forall v, e = EVenda v -> references v s) -> S (stored s e).

Lemma with_ext (w0 : World) (a b : Table -> nat) (w : World) :
  (forall t, a t = b t) -> in_session_with S w0 a w -> in_session_with S w0 b w.
Proof. intros Hab [H HS]. split; [eapply in_session_ext; eassumption | exact HS]. Qed.

Lemma with_draws {A} (m : M A) (P : A -> Prop) (w0 : World) (a : Table -> nat)
      (w : World) :
  (forall t, draws t m P) -> in_session_with S w0 a w ->
  exists x w', m w = (Ok x, w') /\ P x /\ in_session_with S w0 a w'.
Proof.
  intros Hm [H HS].
  destruct (in_session_draws m P w0 a w Hm H) as (x & w' & E & Px & H').
  exists x, w'. split; [exact E|]. split; [exact Px|]. split; [exact H'|].
  destruct (Hm (today w) w eq_refl) as (x2 & w2 & E2 & _ & U).
  rewrite E in E2. inversion E2; subst. now rewrite (untouched_view _ _ U).
Qed.

Lemma with_add (e : Entity) (w0 : World) (a : Table -> nat) (w : World) :
  in_session_with S w0 a w ->
  (forall v, e = EVenda v -> references v (view w)) ->
  exists w', session_add e w = (Ok tt, w') /\
             in_session_with S w0 (bump (table_of e) a) w'.
Proof.
  intros [H HS] He.
  destruct (in_session_add e w0 a w H) as (w' & E & H').
  exists w'. split; [exact E|]. split; [exact H'|].
  destruct (session_add_run e w) as (w2 & E2 & _ & _ & V & _).
  rewrite E in E2. inversion E2; subst. rewrite V. now apply S_stored.
Qed.

Lemma with_venda (w0 : World) (a : Table -> nat) (w : World) :
  in_session_with S w0 a w ->
  (forall t, t <> TVendas -> (0 < count t (database w0) + a t)%nat) ->
  exists v w', gerar_venda w = (Ok v, w') /\
               in_session_with S w0 a w' /\ references v (view w').
Proof.
  intros [H HS] Hpos.
  destruct (in_session_venda w0 a w H Hpos) as (v & w' & E & H').
  exists v, w'. split; [exact E|].
  destruct (gerar_venda_sold _ _ _ E)
    as (rc & rp & rf & rs & rx & c & p & f & s & x & _ & Rc & Rp & Rf & Rs & Rx &
        Pc & Pp & Pf & Ps & Px & _ & Ic & Ip & If_ & Is & Ix & _ & _ & _ & _ &
        T & P & _).
  assert (V : view w' = view w) by (apply view_flushed; assumption).
  split; [split; [exact H' | now rewrite V]|].
  rewrite V. unfold references. rewrite Rc, Rp, Rf, Rs, Rx, Ic, Ip, If_, Is, Ix. cbn [rows].
  repeat split; apply in_map; eapply pick_In; eassumption.
Qed.

Ltac draw_then_add_with lemma e :=
  match goal with
  | H : in_session_with S ?w0 ?a ?w |- _ =>
      let x := fresh "x" in
      let w1 := fresh "w" in
      let E := fresh "E" in
      let H1 := fresh "H" in
      destruct (with_draws _ _ w0 a w lemma H) as (x & w1 & E & _ & H1);
      rewrite (bind_ok _ _ _ _ _ E); clear E H;
      let w2 := fresh "w" in
      let E2 := fresh "E" in
      let H2 := fresh "H" in
      destruct (with_add (e x) w0 a w1 H1 ltac:(discriminate)) as (w2 & E2 & H2);
      clear H1;
      try (rewrite (bind_ok _ _ _ _ _ E2); clear E2)
  end.

Lemma reference_turn_with (w0 : World) (a : Table -> nat) (w : World) :
  in_session_with S w0 a w ->
  exists w',
    (c <- gerar_cliente ;; session_add (ECliente c) ;;
     p <- gerar_produto ;; session_add (EProduto p) ;;
     x <- gerar_caixa ;; session_add (ECaixa x) ;;
     f <- gerar_forma_pagamento ;; session_add (EFormaPagamento f) ;;
     s <- gerar_status_entrega lista_status_entrega ;; session_add (EStatusEntrega s)) w
    = (Ok tt, w') /\
    in_session_with S w0 (bump TStatusEntrega (bump TFormasPagamento (bump TCaixas
                           (bump TProdutos (bump TClientes a))))) w'.
Proof.
  intros H.
  draw_then_add_with gerar_cliente_draws ECliente.
  draw_then_add_with gerar_produto_draws EProduto.
  draw_then_add_with gerar_caixa_draws ECaixa.
  draw_then_add_with gerar_forma_pagamento_draws EFormaPagamento.
  draw_then_add_with (fun t => gerar_status_entrega_draws t lista_status_entrega
                                 ltac:(discriminate)) EStatusEntrega.
  eauto.
Qed.

Lemma produto_turn_with (w0 : World) (a : Table -> nat) (w : World) :
  in_session_with S w0 a w ->
  exists w', (p <- gerar_produto ;; session_add (EProduto p)) w = (Ok tt, w') /\
             in_session_with S w0 (bump TProdutos a) w'.
Proof. intros H. draw_then_add_with gerar_produto_draws EProduto. eauto. Qed.

Lemma cliente_turn_with (w0 : World) (a : Table -> nat) (w : World) :
  in_session_with S w0 a w ->
  exists w', (c <- gerar_cliente ;; session_add (ECliente c)) w = (Ok tt, w') /\
             in_session_with S w0 (bump TClientes a) w'.
Proof. intros H. draw_then_add_with gerar_cliente_draws ECliente. eauto. Qed.

Lemma venda_turn_with (w0 : World) (a : Table -> nat) (w : World) :
  in_session_with S w0 a w ->
  (forall t, t <> TVendas -> (0 < count t (database w0) + a t)%nat) ->
  exists w', (v <- gerar_venda ;; session_add (EVenda v)) w = (Ok tt, w') /\
             in_session_with S w0 (bump TVendas a) w'.
Proof.
  intros H Hpos.
  destruct (with_venda w0 a w H Hpos) as (v & w1 & E1 & H1 & R1).
  rewrite (bind_ok _ _ _ _ _ E1).
  apply with_add with (e := EVenda v); [exact H1|].
  intros v0 Ev. inversion Ev; subst. exact R1.
Qed.

Lemma commit_close_with (w0 : World) (a : Table -> nat) (w : World) :
  in_session_with S w0 a w ->
  exists w', (session_commit ;; session_close) w = (Ok tt, w') /\ S (database w').
Proof.
  intros [(D & Y & L & C & N & Ev) HS].
  destruct (commit_cases w) as [(F & w1 & E1 & D1 & _) | (F & _)].
  2:{ exfalso. apply F. unfold flush_ok. apply Forall_forall. intros e _. apply C. }
  destruct (session_close_run w1) as (w2 & E2 & _ & D2 & _).
  exists w2. split; [rewrite (bind_ok _ _ _ _ _ E1); exact E2|].
  now rewrite D2, D1.
Qed.

Lemma open_with (w : World) :
  complete (database w) -> S (database w) ->
  exists w', new_session w = (Ok tt, w') /\ database w' = database w /\
             in_session_with S w' (fun _ => O) w'.
Proof.
  intros C HS.
  destruct (in_session_open w C) as (w' & E & D & _ & _ & _ & H).
  exists w'. split; [exact E|]. split; [exact D|]. split; [exact H|].
  destruct (new_session_run w) as (w2 & E2 & S2 & D2 & _).
  rewrite E in E2. inversion E2; subst.
  unfold view, base. rewrite S2. cbn. now rewrite D2.
Qed.

Lemma create_all_with (w : World) :
  S (database w) ->
  exists w', create_all w = (Ok tt, w') /\ complete (database w') /\ S (database w').
Proof.
  intros HS.
  destruct (create_all_run w) as (w1 & E & _ & _ & K & C & Hc & _).
  exists w1. split; [exact E|]. split; [exact Hc|].
  eapply S_rows; [|exact HS]. now apply kept_same_rows.
Qed.

(** The body of [models.py] keeps the property. *)
Lemma models_main_with (w : World) :
  S (database w) -> exists w', models_main w = (Ok tt, w') /\ S (database w').
Proof.
  intros HS. unfold models_main.
  destruct (create_all_with w HS) as (w1 & E1 & C1 & S1).
  rewrite (bind_ok _ _ _ _ _ E1).
  destruct (open_with w1 C1 S1) as (w2 & E2 & D2 & H2).
  rewrite (bind_ok _ _ _ _ _ E2).
  run_loop 100%nat
    (fun i => in_session_with S w2 (fun t => if Table_eqb t TVendas then O else i)).
  { intros i w0 _ H.
    destruct (reference_turn_with w2 _ w0 H) as (w' & E & H').
    exists w'. split; [exact E|]. eapply with_ext; [|exact H']. same_rows. }
  { eapply with_ext; [|exact H2]. same_rows. }
  destruct Loop as (w3 & E3 & H3).
  rewrite (bind_ok _ _ _ _ _ E3).
  run_loop 500%nat
    (fun i => in_session_with S w2 (fun t => if Table_eqb t TVendas then i else 100%nat)).
  { intros i w0 _ H.
    destruct (venda_turn_with w2 _ w0 H
                ltac:(intros t Ht; destruct t; try congruence; cbn -[count]; lia))
      as (w' & E & H').
    exists w'. split; [exact E|]. eapply with_ext; [|exact H']. same_rows. }
  { eapply with_ext; [|exact H3]. same_rows. }
  destruct Loop as (w4 & E4 & H4).
  rewrite (bind_ok _ _ _ _ _ E4).
  apply (commit_close_with w2 _ w4 H4).
Qed.

(** So does the body of [Dbcarga.py], where it can run. *)
Lemma Dbcarga_seeding_with (w : World) :
  complete (database w) ->
  (0 < count TFormasPagamento (database w))%nat ->
  (0 < count TStatusEntrega (database w))%nat ->
  (0 < count TCaixas (database w))%nat ->
  S (database w) ->
  exists w', Dbcarga_seeding w = (Ok tt, w') /\ S (database w').
Proof.
  intros Hc Hf Hs Hx HS. unfold Dbcarga_seeding.
  destruct (open_with w Hc HS) as (w2 & E2 & D2 & H2).
  rewrite (bind_ok _ _ _ _ _ E2). rewrite <- D2 in Hf, Hs, Hx.
  run_loop 400%nat
    (fun i => in_session_with S w2 (fun t => if Table_eqb t TProdutos then i else O)).
  { intros i w0 _ H.
    destruct (produto_turn_with w2 _ w0 H) as (w' & E & H').
    exists w'. split; [exact E|]. eapply with_ext; [|exact H']. same_rows. }
  { eapply with_ext; [|exact H2]. same_rows. }
  destruct Loop as (w3 & E3 & H3).
  rewrite (bind_ok _ _ _ _ _ E3).
  run_loop 80%nat
    (fun i => in_session_with S w2
                (fun t => match t with TProdutos => 400%nat | TClientes => i | _ => O end)).
  { intros i w0 _ H.
    destruct (cliente_turn_with w2 _ w0 H) as (w' & E & H').
    exists w'. split; [exact E|]. eapply with_ext; [|exact H']. same_rows. }
  { eapply with_ext; [|exact H3]. same_rows. }
  destruct Loop as (w4 & E4 & H4).
  rewrite (bind_ok _ _ _ _ _ E4).
  run_loop 200%nat
    (fun i => in_session_with S w2
                (fun t => match t with
                          | TProdutos => 400%nat | TClientes => 80%nat
                          | TVendas => i | _ => O end)).
  { intros i w0 _ H.
    destruct (venda_turn_with w2 _ w0 H
                ltac:(intros t Ht; destruct t; try congruence; cbn -[count]; lia))
      as (w' & E & H').
    exists w'. split; [exact E|]. eapply with_ext; [|exact H']. same_rows. }
  { eapply with_ext; [|exact H4]. same_rows. }
  destruct Loop as (w5 & E5 & H5).
  rewrite (bind_ok _ _ _ _ _ E5).
  apply (commit_close_with w2 _ w5 H5).
Qed.

(** And so does [Dbcarga.py] run as a script. *)
Lemma Dbcarga_main_with (w : World) :
  S (database w) -> exists w', Dbcarga_main w = (Ok tt, w') /\ S (database w').
Proof.
  intros HS. unfold Dbcarga_main.
  destruct (models_main_with w HS) as (w1 & E1 & S1).
  destruct (models_main_run w) as (w1' & evs & E1' & N1 & C1 & _).
  rewrite E1 in E1'. inversion E1'; subst w1'.
  rewrite (bind_ok _ _ _ _ _ E1).
  apply Dbcarga_seeding_with; trivial; rewrite N1; cbn; lia.
Qed.

End Preserved.

End InvariantRuns.

(* ================================================================== *)
(** * Invariants of the committed store *)
(* ================================================================== *)

Module SeedingInvariants.
Import SessionFacts StoreInvariants InvariantRuns.

Lemma keys_ok_rows (s s' : Store) : same_rows s s' -> keys_ok s -> keys_ok s'.
Proof.
  intros (A & B & C & D & E & F) K. unfold keys_ok, keyed in *.
  rewrite A, B, C, D, E, F. exact K.
Qed.

Lemma keys_ok_insert (s : Store) (e : Entity) :
  keys_ok s -> (forall v, e = EVenda v -> references v s) -> keys_ok (stored s e).
Proof. intros K _. now apply keys_ok_stored. Qed.

Lemma integrity_rows (s s' : Store) : same_rows s s' -> integrity s -> integrity s'.
Proof.
  intros (A & B & C & D & E & F) I. unfold integrity, references in *.
  rewrite A, B, C, D, E, F. exact I.
Qed.

Lemma extends_refl (s : Store) : extends s s.
Proof. repeat split; exists []; symmetry; apply app_nil_r. Qed.

Lemma extends_rows (s0 s s' : Store) : same_rows s s' -> extends s0 s -> extends s0 s'.
Proof.
  intros (A & B & C & D & E & F) X. unfold extends in *.
  rewrite A, B, C, D, E, F. exact X.
Qed.

Lemma extends_stored (s0 s : Store) (e : Entity) :
  extends s0 s -> (forall v, e = EVenda v -> references v s) -> extends s0 (stored s e).
Proof.
  intros (Xc & Xp & Xx & Xf & Xs & Xv) _. unfold stored.
  destruct e; cbn [insert_row];
    [destruct (clientes s) eqn:E | destruct (produtos s) eqn:E | destruct (caixas s) eqn:E
    | destruct (formas_pagamento s) eqn:E | destruct (status_entrega s) eqn:E
    | destruct (vendas s) eqn:E];
    unfold extends;
    cbn [clientes produtos caixas formas_pagamento status_entrega vendas
         set_clientes set_produtos set_caixas set_formas_pagamento set_status_entrega
         set_vendas];
    rewrite ?E in *; cbn [rows] in *;
    repeat match goal with |- _ /\ _ => split end;
    try assumption;
    match goal with
    | H : exists _, ?l = _ |- exists _, ?l ++ _ = _ =>
        destruct H as [l' H]; rewrite H; eexists; symmetry; apply app_assoc
    end.
Qed.

Lemma keys_ok_sample : keys_ok sample_store.
Proof.
  unfold keys_ok, keyed, sample_store; cbn.
  repeat match goal with
         | |- _ /\ _ => split
         | |- NoDup _ => repeat constructor; intros []
         | |- ~ _ => intros H; repeat destruct H as [H|H]; try discriminate; contradiction
         end.
Qed.

Lemma complete_sample : complete sample_store.
Proof. intros t; destruct t; reflexivity. Qed.

End SeedingInvariants.

Module SeedingInvariantClaims.
Import SessionFacts StoreInvariants InvariantRuns SeedingInvariants.

(** X12.  Primary keys.  If every committed row has a primary key and no two
    rows of a table share one, the same holds of the store the body of
    [models.py] commits, of the one the body of [Dbcarga.py] commits (on a
    store where it can run) and of the one [Dbcarga.py] leaves when run as
    a script; each of them returns. *)
Theorem seeding_keeps_keys :
  (forall w : World,
      keys_ok (database w) ->
      exists w', models_main w = (Ok tt, w') /\ keys_ok (database w'))
  /\
  (forall w : World,
      complete (database w) ->
      (0 < count TFormasPagamento (database w))%nat ->
      (0 < count TStatusEntrega (database w))%nat ->
      (0 < count TCaixas (database w))%nat ->
      keys_ok (database w) ->
      exists w', Dbcarga_seeding w = (Ok tt, w') /\ keys_ok (database w'))
  /\
  (forall w : World,
      keys_ok (database w) ->
      exists w', Dbcarga_main w = (Ok tt, w') /\ keys_ok (database w')).
Proof.
  split; [|split]; intros w.
  - apply (models_main_with keys_ok keys_ok_rows keys_ok_insert).
  - apply (Dbcarga_seeding_with keys_ok keys_ok_insert).
  - apply (Dbcarga_main_with keys_ok keys_ok_rows keys_ok_insert).
Qed.

Lemma seeding_keeps_keys_witness :
  keys_ok sample_store /\
  exists w', Dbcarga_seeding (sample_world [] [] sample_store) = (Ok tt, w') /\
             keys_ok (database w').
Proof.
  split; [exact keys_ok_sample|].
  apply (proj1 (proj2 seeding_keeps_keys) (sample_world [] [] sample_store));
    [exact complete_sample | cbn; lia | cbn; lia | cbn; lia | exact keys_ok_sample].
Defined.

(** X13.  Referential integrity.  If each of the five foreign keys of every
    committed sale is the primary key of a committed row of the table it
    refers to, the same holds of the store each script commits: every sale
    a script adds references rows that are committed with it. *)
Theorem seeding_keeps_integrity :
  (forall w : World,
      integrity (database w) ->
      exists w', models_main w = (Ok tt, w') /\ integrity (database w'))
  /\
  (forall w : World,
      complete (database w) ->
      (0 < count TFormasPagamento (database w))%nat ->
      (0 < count TStatusEntrega (database w))%nat ->
      (0 < count TCaixas (database w))%nat ->
      integrity (database w) ->
      exists w', Dbcarga_seeding w = (Ok tt, w') /\ integrity (database w'))
  /\
  (forall w : World,
      integrity (database w) ->
      exists w', Dbcarga_main w = (Ok tt, w') /\ integrity (database w')).
Proof.
  split; [|split]; intros w.
  - apply (models_main_with integrity integrity_rows integrity_stored).
  - apply (Dbcarga_seeding_with integrity integrity_stored).
  - apply (Dbcarga_main_with integrity integrity_rows integrity_stored).
Qed.

Lemma seeding_keeps_integrity_witness :
  integrity sample_store /\
  exists w', Dbcarga_seeding (sample_world [] [] sample_store) = (Ok tt, w') /\
             integrity (database w').
Proof.
  assert (I : integrity sample_store) by (intros v []).
  split; [exact I|].
  apply (proj1 (proj2 seeding_keeps_integrity) (sample_world [] [] sample_store));
    [exact complete_sample | cbn; lia | cbn; lia | cbn; lia | exact I].
Defined.

(** X14.  Insert only.  Every table of the store a script commits starts with
    the rows that were committed before, unchanged and in the same order:
    the scripts add rows at the end and neither change nor remove one. *)
Theorem seeding_insert_only :
  (forall w : World,
      exists w', models_main w = (Ok tt, w') /\ extends (database w) (database w'))
  /\
  (forall w : World,
      complete (database w) ->
      (0 < count TFormasPagamento (database w))%nat ->
      (0 < count TStatusEntrega (database w))%nat ->
      (0 < count TCaixas (database w))%nat ->
      exists w', Dbcarga_seeding w = (Ok tt, w') /\ extends (database w) (database w'))
  /\
  (forall w : World,
      exists w', Dbcarga_main w = (Ok tt, w') /\ extends (database w) (database w')).
Proof.
  split; [|split]; intros w.
  - apply (models_main_with (extends (database w)) (extends_rows _) (extends_stored _)).
    apply extends_refl.
  - intros Hc Hf Hs Hx.
    apply (Dbcarga_seeding_with (extends (database w)) (extends_stored _));
      trivial.
    apply extends_refl.
  - apply (Dbcarga_main_with (extends (database w)) (extends_rows _) (extends_stored _)).
    apply extends_refl.
Qed.

Lemma seeding_insert_only_witness :
  complete sample_store /\
  exists w', Dbcarga_seeding (sample_world [] [] sample_store) = (Ok tt, w') /\
             extends sample_store (database w').
Proof.
  split; [exact complete_sample|].
  apply (proj1 (proj2 seeding_insert_only) (sample_world [] [] sample_store));
    [exact complete_sample | cbn; lia | cbn; lia | cbn; lia].
Defined.

End SeedingInvariantClaims.

(* ================================================================== *)
(** * What is committed when a script fails *)
(* ================================================================== *)

Module Atomicity.
Import SessionFacts VendaFacts VendaClaims SchemaFacts GeneratorFacts RandomFacts FakeFacts
       SeedingFacts SeedingRuns.

Lemma uncommitted_refl (w : World) : uncommitted w w.
Proof. split; [reflexivity|]. exists []. rewrite app_nil_r. split; [reflexivity | constructor]. Qed.

Lemma uncommitted_trans (w1 w2 w3 : World) :
  uncommitted w1 w2 -> uncommitted w2 w3 -> uncommitted w1 w3.
Proof.
  intros (D1 & e1 & L1 & Q1) (D2 & e2 & L2 & Q2). split; [congruence|].
  exists (e1 ++ e2). split; [rewrite L2, L1; symmetry; apply app_assoc|].
  apply Forall_app. auto.
Qed.

Ltac silent :=
  split; [reflexivity|]; exists []; rewrite app_nil_r; split; [reflexivity | constructor].

Lemma commits_nothing_ret {A} (a : A) : commits_nothing (ret a).
Proof. intros w. apply uncommitted_refl. Qed.

Lemma commits_nothing_raise {A} (e : Exn) : commits_nothing (@raise A e).
Proof. intros w. apply uncommitted_refl. Qed.

Lemma commits_nothing_bind {A B} (m : M A) (k : A -> M B) :
  commits_nothing m -> (forall a, commits_nothing (k a)) -> commits_nothing (bind m k).
Proof.
  intros Hm Hk w. specialize (Hm w). unfold bind.
  destruct (m w) as [[a|e] w1]; cbn [snd] in *; [|exact Hm].
  eapply uncommitted_trans; [exact Hm | apply Hk].
Qed.

Lemma commits_nothing_for (n : nat) (body : M unit) :
  commits_nothing body -> commits_nothing (for_ n body).
Proof.
  intros Hb. induction n as [|n IH]; cbn [for_].
  - apply commits_nothing_ret.
  - apply commits_nothing_bind; [exact Hb | intros _; exact IH].
Qed.

(** A statement that only draws commits nothing. *)
Lemma commits_nothing_draws {A} (m : M A) (P : A -> Prop) :
  (forall t, draws t m P) -> commits_nothing m.
Proof.
  intros Hm w. destruct (Hm (today w) w eq_refl) as (a & w' & E & _ & (D & _ & L & _)).
  rewrite E. cbn [snd]. split; [exact D|].
  exists []. rewrite app_nil_r. split; [exact L | constructor].
Qed.

Lemma commits_nothing_emit (e : Event) :
  quiet_event e -> commits_nothing (modify (emit e)).
Proof.
  intros Q w. split; [reflexivity|]. exists [e]. split; [reflexivity | repeat constructor; exact Q].
Qed.

Lemma commits_nothing_session_add (e : Entity) : commits_nothing (session_add e).
Proof. intros w. silent. Qed.

Lemma commits_nothing_new_session : commits_nothing new_session.
Proof. intros w. silent. Qed.

Lemma commits_nothing_begin : commits_nothing begin.
Proof.
  intros w. unfold begin. destruct (transaction (session w)); silent.
Qed.

Lemma commits_nothing_insert (e : Entity) : commits_nothing (insert e).
Proof.
  unfold insert. apply commits_nothing_bind; [apply commits_nothing_begin|].
  intros s. destruct (insert_row e s) as [[i s']|]; [|apply commits_nothing_raise].
  intros w. split; [reflexivity|].
  exists [EvInsert (table_of e) i]. split; [reflexivity | repeat constructor].
Qed.

Lemma commits_nothing_insert_all (es : list Entity) : commits_nothing (insert_all es).
Proof.
  induction es as [|e es IH]; cbn [insert_all].
  - apply commits_nothing_ret.
  - apply commits_nothing_bind; [apply commits_nothing_insert | intros _; exact IH].
Qed.

Lemma commits_nothing_flush : commits_nothing session_flush.
Proof.
  unfold session_flush.
  apply commits_nothing_bind; [intros w; silent|].
  intros es. apply commits_nothing_bind; [apply commits_nothing_insert_all|].
  intros _ w. silent.
Qed.

Lemma commits_nothing_query {A} (m : Mapper A) : commits_nothing (session_query_all m).
Proof.
  unfold session_query_all.
  apply commits_nothing_bind; [apply commits_nothing_flush|]. intros _.
  apply commits_nothing_bind; [apply commits_nothing_begin|]. intros s.
  destruct (mapped_rows m s); [|apply commits_nothing_raise].
  apply commits_nothing_bind; [apply commits_nothing_emit; exact I|].
  intros _. apply commits_nothing_ret.
Qed.

Lemma commits_nothing_choice {A} (seq : list A) : commits_nothing (random.choice seq).
Proof.
  destruct seq as [|x l]; [apply commits_nothing_raise|].
  apply (commits_nothing_draws _ (fun y => In y (x :: l))).
  intros t. apply choice_draws. discriminate.
Qed.

(** [gerar_venda] commits nothing, whether it returns a sale or raises. *)
Lemma commits_nothing_gerar_venda : commits_nothing gerar_venda.
Proof.
  unfold gerar_venda.
  do 5 (apply commits_nothing_bind;
        [apply commits_nothing_bind;
         [apply commits_nothing_query | intros ?; apply commits_nothing_choice]
        | intros ?]).
  apply commits_nothing_bind.
  { apply (commits_nothing_draws _ (fun _ => True)). intros t.
    eapply draws_weaken; [apply date_between_draws; cbn; lia | trivial]. }
  intros data_venda.
  apply commits_nothing_bind.
  { apply commits_nothing_bind.
    - eapply commits_nothing_draws. intros t. apply randint_draws. lia.
    - intros k. apply commits_nothing_ret. }
  intros valor.
  apply commits_nothing_bind.
  { eapply commits_nothing_draws. intros t. apply randint_draws. lia. }
  intros quantidade.
  apply commits_nothing_bind; [|intros ?; apply commits_nothing_ret].
  destruct (String.eqb _ _); [|apply commits_nothing_ret].
  apply commits_nothing_bind; [|intros d; apply commits_nothing_ret].
  apply (commits_nothing_draws _ (fun _ => True)). intros t.
    eapply draws_weaken; [apply date_between_draws; cbn; lia | trivial].
Qed.

Lemma bind_inv_raise {A B} (m : M A) (k : A -> M B) w e w' :
  bind m k w = (Raise e, w') ->
  m w = (Raise e, w') \/ exists a w1, m w = (Ok a, w1) /\ k a w1 = (Raise e, w').
Proof.
  unfold bind. destruct (m w) as [[a|e1] w1]; [eauto|].
  intros H. inversion H. now left.
Qed.

Lemma commits_nothing_run {A} (m : M A) (w : World) (r : Result A) (w' : World) :
  commits_nothing m -> m w = (r, w') -> uncommitted w w'.
Proof. intros Hm E. specialize (Hm w). now rewrite E in Hm. Qed.

(** When a statement that commits nothing is followed by one whose
    failures leave nothing committed, a failure of the sequence leaves
    nothing committed. *)
Lemma raise_after {A B} (m : M A) (k : A -> M B) :
  commits_nothing m ->
  (forall a w e w', k a w = (Raise e, w') -> uncommitted w w') ->
  forall w e w', bind m k w = (Raise e, w') -> uncommitted w w'.
Proof.
  intros Hm Hk w e w' H.
  destruct (bind_inv_raise _ _ _ _ _ H) as [E | (a & w1 & E & E')].
  - exact (commits_nothing_run _ _ _ _ Hm E).
  - eapply uncommitted_trans; [exact (commits_nothing_run _ _ _ _ Hm E) | eapply Hk, E'].
Qed.

(** [session.commit()] followed by [session.close()] can only fail in the
    flush of the commit, before anything is committed. *)
Lemma commit_close_raise (w : World) (e : Exn) (w' : World) :
  (session_commit ;; session_close) w = (Raise e, w') -> uncommitted w w'.
Proof.
  intros H.
  destruct (bind_inv_raise _ _ _ _ _ H) as [E | (a & w1 & _ & E)].
  - unfold session_commit in E.
    destruct (bind_inv_raise _ _ _ _ _ E) as [F | (a & w1 & _ & F)].
    + exact (commits_nothing_run _ _ _ _ commits_nothing_flush F).
    + discriminate.
  - discriminate.
Qed.

Lemma Dbcarga_seeding_raise (w : World) (e : Exn) (w' : World) :
  Dbcarga_seeding w = (Raise e, w') -> uncommitted w w'.
Proof.
  unfold Dbcarga_seeding. revert w e w'.
  apply raise_after; [apply commits_nothing_new_session | intros _].
  apply raise_after; [|intros _].
  { apply commits_nothing_for, commits_nothing_bind;
      [apply (commits_nothing_draws _ _ gerar_produto_draws)
      | intros ?; apply commits_nothing_session_add]. }
  apply raise_after; [|intros _].
  { apply commits_nothing_for, commits_nothing_bind;
      [apply (commits_nothing_draws _ _ gerar_cliente_draws)
      | intros ?; apply commits_nothing_session_add]. }
  apply raise_after; [|intros _; apply commit_close_raise].
  apply commits_nothing_for, commits_nothing_bind;
    [apply commits_nothing_gerar_venda | intros ?; apply commits_nothing_session_add].
Qed.

(** In a seeding session where a reference table shows no row,
    [gerar_venda] raises [IndexError]. *)
Lemma gerar_venda_index_error (w0 : World) (a : Table -> nat) (w : World) (t : Table) :
  in_session w0 a w -> t <> TVendas -> (count t (database w0) + a t = 0)%nat ->
  exists w', gerar_venda w = (Raise IndexError, w').
Proof.
  intros (D & Y & L & C & N & Ev) Ht H0.
  assert (Hz : count t (view w) = O) by (rewrite N; exact H0).
  assert (F : flush_ok w).
  { unfold flush_ok. apply Forall_forall. intros e _. apply C. }
  assert (HT : forall u, has_table u (view w) = true).
  { intros u. rewrite view_has_table. apply C. }
  pose proof (gerar_venda_cases w) as G.
  destruct (gerar_venda w) as [[v|e] w'].
  - exfalso.
    destruct G as (rc & rp & rf & rs & rx & c & p & f & s & x & _ & Rc & Rp & Rf & Rs & Rx &
                   Pc & Pp & Pf & Ps & Px & _).
    apply pick_nonempty in Pc, Pp, Pf, Ps, Px.
    destruct t; try congruence; cbn [count] in Hz;
      rewrite ?Rc, ?Rp, ?Rf, ?Rs, ?Rx in Hz;
      [destruct rx | destruct rc | destruct rf | destruct rp | destruct rs];
      cbn in Hz; congruence.
  - destruct G as [(_ & [N' | [N' | [N' | [N' | [N' | N']]]]]) | (-> & _)]; [exfalso ..| eauto].
    + contradiction.
    + pose proof (HT TClientes) as X. cbn in X. now rewrite N' in X.
    + pose proof (HT TProdutos) as X. cbn in X. now rewrite N' in X.
    + pose proof (HT TFormasPagamento) as X. cbn in X. now rewrite N' in X.
    + pose proof (HT TStatusEntrega) as X. cbn in X. now rewrite N' in X.
    + pose proof (HT TCaixas) as X. cbn in X. now rewrite N' in X.
Qed.



(** What the first [gerar_venda] of [Dbcarga.py] raises, the script raises. *)
Lemma Dbcarga_seeding_first_sale (w w4 : World) (e : Exn) (w' : World) :
  Dbcarga_additions w = (Ok tt, w4) -> gerar_venda w4 = (Raise e, w') ->
  Dbcarga_seeding w = (Raise e, w').
Proof.
  unfold Dbcarga_additions, Dbcarga_seeding. intros E G.
  apply bind_inv_ok in E. destruct E as ([] & w2 & E2 & E).
  apply bind_inv_ok in E. destruct E as ([] & w3 & E3 & E4).
  rewrite (bind_ok _ _ _ _ _ E2), (bind_ok _ _ _ _ _ E3), (bind_ok _ _ _ _ _ E4).
  change (for_ 200 (v <- gerar_venda ;; session_add (EVenda v)))
    with ((v <- gerar_venda ;; session_add (EVenda v)) ;;
          for_ 199 (v <- gerar_venda ;; session_add (EVenda v))).
  apply bind_raise, bind_raise, bind_raise, G.
Qed.

(** On a store with the six tables, the session then sees the 400 products
    and the 80 customers. *)
Lemma Dbcarga_additions_in_session (w : World) :
  complete (database w) ->
  exists w2 w4,
    database w2 = database w /\
    Dbcarga_additions w = (Ok tt, w4) /\
    in_session w2
      (fun t => match t with TProdutos => 400%nat | TClientes => 80%nat | _ => O end) w4.
Proof.
  intros Hc. unfold Dbcarga_additions.
  destruct (in_session_open w Hc) as (w2 & E2 & D2 & L2 & _ & _ & H2).
  rewrite (bind_ok _ _ _ _ _ E2).
  run_loop 400%nat
    (fun i => in_session w2 (fun t => if Table_eqb t TProdutos then i else O)).
  { intros i w0 _ H.
    destruct (produto_turn w2 _ w0 H) as (w' & E & H').
    exists w'. split; [exact E|]. eapply in_session_ext; [|exact H']. same_rows. }
  { eapply in_session_ext; [|exact H2]. same_rows. }
  destruct Loop as (w3 & E3 & H3).
  rewrite (bind_ok _ _ _ _ _ E3).
  destruct (for_invariant
              (fun i => in_session w2
                 (fun t => match t with TProdutos => 400%nat | TClientes => i | _ => O end))
              (c <- gerar_cliente ;; session_add (ECliente c)) 80) with (w := w3)
    as (w4 & E4 & H4).
  { intros i w0 _ H.
    destruct (cliente_turn w2 _ w0 H) as (w' & E & H').
    exists w'. split; [exact E|]. eapply in_session_ext; [|exact H']. same_rows. }
  { eapply in_session_ext; [|exact H3]. same_rows. }
  exists w2, w4. auto.
Qed.

Lemma Dbcarga_seeding_index_error (w : World) :
  complete (database w) ->
  (count TFormasPagamento (database w) = 0 \/ count TStatusEntrega (database w) = 0 \/
   count TCaixas (database w) = 0)%nat ->
  exists w4 w',
    Dbcarga_additions w = (Ok tt, w4) /\
    gerar_venda w4 = (Raise IndexError, w') /\
    Dbcarga_seeding w = (Raise IndexError, w').
Proof.
  intros Hc Hempty.
  destruct (Dbcarga_additions_in_session w Hc) as (w2 & w4 & D2 & E & H4).
  rewrite <- D2 in Hempty.
  assert (R : exists w5, gerar_venda w4 = (Raise IndexError, w5)).
  { destruct Hempty as [H0 | [H0 | H0]].
    - apply (gerar_venda_index_error w2 _ w4 TFormasPagamento H4); [discriminate|].
      cbv beta iota. now rewrite H0.
    - apply (gerar_venda_index_error w2 _ w4 TStatusEntrega H4); [discriminate|].
      cbv beta iota. now rewrite H0.
    - apply (gerar_venda_index_error w2 _ w4 TCaixas H4); [discriminate|].
      cbv beta iota. now rewrite H0. }
  destruct R as (w5 & E5). exists w4, w5.
  split; [exact E|]. split; [exact E5|].
  exact (Dbcarga_seeding_first_sale _ _ _ _ E E5).
Qed.





(** X17.  If the body of [Dbcarga.py] raises, it has committed nothing: the
    committed contents of the store are what they were, and no commit (nor
    close) was sent. *)
Theorem Dbcarga_seeding_failure_commits_nothing (w : World) (e : Exn) (w' : World) :
  Dbcarga_seeding w = (Raise e, w') ->
  database w' = database w /\
  exists evs, log w' = log w ++ evs /\ Forall quiet_event evs.
Proof. apply Dbcarga_seeding_raise. Qed.

Lemma Dbcarga_seeding_failure_commits_nothing_witness :
  exists w',
    Dbcarga_seeding (sample_world [] [] store_without_caixa) = (Raise IndexError, w') /\
    database w' = store_without_caixa /\
    exists evs, log w' = evs /\ Forall quiet_event evs.
Proof.
  assert (Hc : complete store_without_caixa) by (intros t; destruct t; reflexivity).
  destruct (Dbcarga_seeding_index_error (sample_world [] [] store_without_caixa) Hc)
    as (w4 & w' & _ & _ & E); [right; right; reflexivity|].
  exists w'. split; [exact E|].
  destruct (Dbcarga_seeding_failure_commits_nothing _ _ _ E) as (D & evs & L & Q).
  split; [exact D|]. exists evs. auto.
Defined.

(** X18.  The outcomes of [gerar_venda].  From a session whose pending objects
    can be flushed and which then sees a row in each of the five reference
    tables, it returns a sale; from any other session it raises, and what
    it raises is [IndexError] or [OperationalError].  In both cases the
    committed store is the same after as before. *)
Theorem gerar_venda_outcomes (w : World) :
  (ready w ->
   exists v w', gerar_venda w = (Ok v, w') /\ database w' = database w) /\
  (~ ready w ->
   exists e w', gerar_venda w = (Raise e, w') /\
                (e = IndexError \/ e = OperationalError) /\
                database w' = database w).
Proof.
  assert (D : forall r w', gerar_venda w = (r, w') -> database w' = database w).
  { intros r w' E. exact (proj1 (commits_nothing_run _ _ _ _ commits_nothing_gerar_venda E)). }
  split.
  - intros R. destruct (gerar_venda_total w R) as (v & w' & E).
    exists v, w'. split; [exact E | exact (D _ _ E)].
  - intros N. destruct (gerar_venda w) as [[v|e] w'] eqn:E.
    + exfalso. apply N. apply gerar_venda_sold in E.
      destruct E as (rc & rp & rf & rs & rx & c & p & f & s & x & F &
                     Rc & Rp & Rf & Rs & Rx & Pc & Pp & Pf & Ps & Px & _).
      apply pick_nonempty in Pc, Pp, Pf, Ps, Px.
      split; [exact F|]. rewrite Rc, Rp, Rf, Rs, Rx.
      destruct rc, rp, rf, rs, rx; try congruence. cbn. repeat split; lia.
    + exists e, w'. split; [reflexivity|]. split; [|exact (D _ _ eq_refl)].
      apply gerar_venda_refused in E. destruct E as [(-> & _) | (-> & _)]; auto.
Qed.

Lemma gerar_venda_outcomes_witness :
  (exists v w', gerar_venda (sample_world [] [] sample_store) = (Ok v, w') /\
                database w' = sample_store) /\
  (exists e w', gerar_venda (sample_world [] [] store_without_caixa) = (Raise e, w') /\
                (e = IndexError \/ e = OperationalError) /\
                database w' = store_without_caixa).
Proof.
  split.
  - apply (proj1 (gerar_venda_outcomes (sample_world [] [] sample_store))).
    split; [constructor | cbn; repeat split; lia].
  - apply (proj2 (gerar_venda_outcomes (sample_world [] [] store_without_caixa))).
    intros (_ & _ & _ & _ & _ & H). cbn in H. lia.
Defined.

End Atomicity.
